(** * chatly-sdk: the protocol core, embedded and verified

    The development follows the layout of the SDK sources:

    - [Js] and [Utf8]: JavaScript strings, and the UTF-8 encoding Node
      applies between strings and buffers;
    - [Buffer]: the operations of Node's [Buffer] the SDK relies on;
    - [NodePlatform]: the primitives of [node:crypto] (AES-256-GCM, ECDH on
      P-256, SHA-256, PBKDF2, base64, the entropy source and the clock),
      kept abstract and constrained by the laws the proofs need;
    - [E2E]: [src/crypto/e2e.ts];
    - [Chat]: the pairwise session [ChatSession];
    - [Queue]: [src/utils/messageQueue.ts];
    - [Transport]: [src/transport/websocketClient.ts];
    - [SDK]: the parts of the [ChatSDK] orchestrator that name sessions and
      feed the queue;
    - [GroupCrypto] and [GroupChat]: [src/crypto/group.ts] and the group
      session [GroupSession];
    - [Stores]: the in-memory stores of [src/stores/memory];
    - [Orchestrator]: how the [ChatSDK] orchestrator receives, sends media
      and flushes its queue;
    - [Uuid]: the branch of [generateUUID] over [crypto.getRandomValues].

    A JavaScript string is the sequence of its UTF-16 code units ([string]
    below): its length, its order and its UTF-8 form are those of the code
    units. *)

From Stdlib Require Import List ZArith NArith Lia Bool.
From Stdlib Require Import Strings.Byte.
Import ListNotations.

Set Implicit Arguments.
Local Open Scope Z_scope.

(** ** JavaScript strings *)

(** A [string] of JavaScript is the sequence of its UTF-16 code units, each
    from 0 to 65535. *)
Definition string : Type := list Z.

(** String literals: each character of an ASCII literal is one code unit. *)
Inductive Literal : Type :=
| LiteralEnd
| LiteralUnit (u : Z) (rest : Literal).

Fixpoint literalOfBytes (bytes : list byte) : option Literal :=
  match bytes with
  | [] => Some LiteralEnd
  | b :: rest =>
      match literalOfBytes rest with
      | Some l =>
          if (Byte.to_N b <? 128)%N
          then Some (LiteralUnit (Z.of_N (Byte.to_N b)) l) else None
      | None => None
      end
  end.

Fixpoint bytesOfLiteral (l : Literal) : option (list byte) :=
  match l with
  | LiteralEnd => Some []
  | LiteralUnit u rest =>
      match Byte.of_N (Z.to_N u), bytesOfLiteral rest with
      | Some b, Some bytes =>
          if (32 <=? u) && (u <? 127) then Some (b :: bytes) else None
      | _, _ => None
      end
  end.

(** Only a string of printable characters is shown as a literal. *)
Definition shownLiteral (l : Literal) : option (list byte) :=
  match l with
  | LiteralEnd => None
  | LiteralUnit _ _ => bytesOfLiteral l
  end.

Declare Scope js_scope.
Delimit Scope js_scope with js.
Bind Scope js_scope with string.
#[local] Set Warnings "-via-type-mismatch,-via-type-remapping".
String Notation string literalOfBytes shownLiteral
  (via Literal mapping [[nil] => LiteralEnd, [cons] => LiteralUnit]) : js_scope.
#[local] Set Warnings "via-type-mismatch,via-type-remapping".
Local Open Scope js_scope.

Module Js.

(** [a === b] on strings. *)
Fixpoint eqb (a b : string) : bool :=
  match a, b with
  | [], [] => true
  | x :: a', y :: b' => (x =? y) && eqb a' b'
  | _, _ => false
  end.

(** The order of [<] on strings and of [sort()] without a comparator: code
    unit by code unit, a proper prefix first. *)
Fixpoint compare (a b : string) : comparison :=
  match a, b with
  | [], [] => Eq
  | [], _ :: _ => Lt
  | _ :: _, [] => Gt
  | x :: a', y :: b' =>
      match x ?= y with
      | Eq => compare a' b'
      | Lt => Lt
      | Gt => Gt
      end
  end.

Definition ltb (a b : string) : bool :=
  match compare a b with Lt => true | _ => false end.

Definition leb (a b : string) : bool :=
  match compare a b with Gt => false | _ => true end.

(** [s.length]: the number of code units. *)
Definition length (s : string) : Z := Z.of_nat (List.length s).

(** The lists that are strings: every element is a code unit. *)
Definition isUnit (u : Z) : bool := (0 <=? u) && (u <? 65536).
Definition valid (s : string) : bool := forallb isUnit s.

Definition isHighSurrogate (u : Z) : bool := (0xD800 <=? u) && (u <=? 0xDBFF).
Definition isLowSurrogate (u : Z) : bool := (0xDC00 <=? u) && (u <=? 0xDFFF).
Definition isSurrogate (cp : Z) : bool := (0xD800 <=? cp) && (cp <=? 0xDFFF).

(** The code points of a string, as its iterator yields them: a high
    surrogate followed by a low one is one code point, and any other code
    unit is a code point of its own. *)
Fixpoint codePoints (s : string) : list Z :=
  match s with
  | [] => []
  | u :: rest =>
      match rest with
      | l :: rest' =>
          if isHighSurrogate u && isLowSurrogate l
          then (0x10000 + (u - 0xD800) * 0x400 + (l - 0xDC00)) :: codePoints rest'
          else u :: codePoints rest
      | [] => [u]
      end
  end.

(** The UTF-16 form of a code point. *)
Definition utf16 (cp : Z) : string :=
  if cp <? 0x10000 then [cp]
  else [0xD800 + (cp - 0x10000) / 0x400; 0xDC00 + (cp - 0x10000) mod 0x400].

(** [s.isWellFormed()]: no surrogate stands outside a pair. *)
Definition isWellFormed (s : string) : bool :=
  forallb (fun cp => negb (isSurrogate cp)) (codePoints s).

(** A scalar value: a code point that is not a surrogate. *)
Definition isScalarValue (cp : Z) : bool :=
  (0 <=? cp) && (cp <=? 0x10FFFF) && negb (isSurrogate cp).

(** A surrogate outside a pair becomes U+FFFD, the replacement character. *)
Definition scalar (cp : Z) : Z := if isSurrogate cp then 0xFFFD else cp.

(** [s.toWellFormed()] *)
Definition toWellFormed (s : string) : string :=
  flat_map (fun cp => utf16 (scalar cp)) (codePoints s).

End Js.

(** ** UTF-8, as Node encodes and decodes it *)

Module Utf8.

(** The bytes of a scalar value. *)
Definition bytesOf (cp : Z) : list Z :=
  if cp <? 0x80 then [cp]
  else if cp <? 0x800 then [0xC0 + cp / 64; 0x80 + cp mod 64]
  else if cp <? 0x10000 then
    [0xE0 + cp / 4096; 0x80 + (cp / 64) mod 64; 0x80 + cp mod 64]
  else
    [0xF0 + cp / 262144; 0x80 + (cp / 4096) mod 64;
     0x80 + (cp / 64) mod 64; 0x80 + cp mod 64].

(** Encoding a string: its code points one after the other, a surrogate
    outside a pair as U+FFFD. *)
Definition encode (s : string) : list Z :=
  flat_map (fun cp => bytesOf (Js.scalar cp)) (Js.codePoints s).

(** The decoder of the WHATWG Encoding Standard, which Node follows: between
    two code points it is [Idle]; inside one it holds the bits read so far,
    the number of bytes still to come and the range the next byte must lie
    in. *)
Inductive Decoder : Type :=
| Idle
| Inside (codePoint : Z) (needed : nat) (lower upper : Z).

(** A byte read between two code points. *)
Definition start (b : Z) : Decoder * list Z :=
  if b <=? 0x7F then (Idle, [b])
  else if (0xC2 <=? b) && (b <=? 0xDF) then (Inside (b - 0xC0) 1 0x80 0xBF, [])
  else if (0xE0 <=? b) && (b <=? 0xEF) then
    (Inside (b - 0xE0) 2
            (if b =? 0xE0 then 0xA0 else 0x80)
            (if b =? 0xED then 0x9F else 0xBF), [])
  else if (0xF0 <=? b) && (b <=? 0xF4) then
    (Inside (b - 0xF0) 3
            (if b =? 0xF0 then 0x90 else 0x80)
            (if b =? 0xF4 then 0x8F else 0xBF), [])
  else (Idle, [0xFFFD]).

(** One byte: the new state and the code points it completes. A byte that
    cannot continue the code point under way ends it as U+FFFD and is read
    again as the first byte of the next one. *)
Definition step (d : Decoder) (b : Z) : Decoder * list Z :=
  match d with
  | Idle => start b
  | Inside cp needed lower upper =>
      if (lower <=? b) && (b <=? upper) then
        let cp := cp * 64 + (b - 0x80) in
        match needed with
        | S (S n) => (Inside cp (S n) 0x80 0xBF, [])
        | _ => (Idle, [cp])
        end
      else
        let '(d', out) := start b in (d', 0xFFFD :: out)
  end.

(** The code points of a byte sequence; one cut short at the end of the
    input is U+FFFD. *)
Fixpoint decodeFrom (d : Decoder) (bytes : list Z) : list Z :=
  match bytes with
  | [] => match d with Idle => [] | Inside _ _ _ _ => [0xFFFD] end
  | b :: rest => let '(d', out) := step d b in out ++ decodeFrom d' rest
  end.

Definition decode (bytes : list Z) : string :=
  flat_map Js.utf16 (decodeFrom Idle bytes).

End Utf8.

(** ** Exceptions and mutable state *)

(** What a JavaScript [throw] carries, as far as the SDK distinguishes it. *)
Inductive fault : Type :=
| CryptoError (reason : string)
| PlainError (message : string)
| SessionError (message : string)
| NetworkError (message : string)
| TransportError (message : string)
| ValidationError (message : string).

Inductive outcome (A : Type) : Type :=
| Returned (a : A)
| Thrown (e : fault).
Arguments Returned {A} a.
Arguments Thrown {A} e.

(** A computation over a mutable store [S]: the store survives a [throw],
    as it does in JavaScript. *)
Definition Eff (S A : Type) : Type := S -> outcome A * S.

Definition ret {S A : Type} (a : A) : Eff S A := fun s => (Returned a, s).

Definition throw {S A : Type} (e : fault) : Eff S A := fun s => (Thrown e, s).

Definition bind {S A B : Type} (m : Eff S A) (k : A -> Eff S B) : Eff S B :=
  fun s =>
    match m s with
    | (Returned a, s') => k a s'
    | (Thrown e, s') => (Thrown e, s')
    end.

Definition readStore {S : Type} : Eff S S := fun s => (Returned s, s).

Definition liftOutcome {S A : Type} (o : outcome A) : Eff S A := fun s => (o, s).

(** [try { m } catch (e) { handler e }] *)
Definition tryCatch {S A : Type} (m : Eff S A) (handler : fault -> Eff S A)
  : Eff S A :=
  fun s =>
    match m s with
    | (Returned a, s') => (Returned a, s')
    | (Thrown e, s') => handler e s'
    end.

(** Runs a computation on the second component of a pair of stores. *)
Definition onSnd {S W A : Type} (m : Eff W A) : Eff (S * W) A :=
  fun sw => let '(o, w') := m (snd sw) in (o, (fst sw, w')).

(** Runs a computation on the first component of a pair of stores. *)
Definition onFst {S W A : Type} (m : Eff S A) : Eff (S * W) A :=
  fun sw => let '(o, s') := m (fst sw) in (o, (s', snd sw)).

Declare Scope eff_scope.
Delimit Scope eff_scope with eff.
Notation "x <- m ;; k" := (bind m (fun x => k))
  (at level 61, m at next level, right associativity) : eff_scope.
Notation "m ;;; k" := (bind m (fun _ => k))
  (at level 61, right associativity) : eff_scope.

(** ** Node's Buffer *)

Module Buffer.

Definition t : Type := list byte.

Definition concat (parts : list t) : t := List.concat parts.

(** An index argument of [slice]: negative indices count from the end, and
    the result is clamped to the buffer. *)
Definition clampIndex (len i : Z) : Z :=
  if i <? 0 then Z.max (len + i) 0 else Z.min i len.

(** [buf.slice(start, end)]. *)
Definition slice (b : t) (start finish : Z) : t :=
  let len := Z.of_nat (List.length b) in
  let s := clampIndex len start in
  let e := clampIndex len finish in
  firstn (Z.to_nat (e - s)) (skipn (Z.to_nat s) b).

(** [buf.slice(start)]: [end] defaults to the length. *)
Definition sliceFrom (b : t) (start : Z) : t :=
  slice b start (Z.of_nat (List.length b)).

(** [Buffer.compare(a, b)]: bytewise, unsigned, shorter prefix first. *)
Fixpoint compare (a b : t) : Z :=
  match a, b with
  | [], [] => 0
  | [], _ :: _ => -1
  | _ :: _, [] => 1
  | x :: a', y :: b' =>
      match N.compare (Byte.to_N x) (Byte.to_N y) with
      | Lt => -1
      | Gt => 1
      | Eq => compare a' b'
      end
  end.

Fixpoint eqb (a b : t) : bool :=
  match a, b with
  | [], [] => true
  | x :: a', y :: b' => Byte.eqb x y && eqb a' b'
  | _, _ => false
  end.

(** A byte of a buffer and its value. *)
Definition byteOfZ (z : Z) : byte :=
  match Byte.of_N (Z.to_N (z mod 256)) with
  | Some b => b
  | None => "000"%byte
  end.

Definition valueOf (b : byte) : Z := Z.of_N (Byte.to_N b).

(** [Buffer.from(text, "utf8")] and [buf.toString("utf8")]. *)
Definition fromUtf8 (s : string) : t := List.map byteOfZ (Utf8.encode s).
Definition toUtf8 (b : t) : string := Utf8.decode (List.map valueOf b).

End Buffer.

(** ** The platform *)

(** The primitives the SDK obtains from Node. [world] stands for what an
    effectful call consumes: the entropy pool and the clock. *)
Class NodePlatform : Type := {
  world : Type;
  (** [crypto.randomBytes(n)] *)
  randomBytes : nat -> world -> Buffer.t * world;
  (** [crypto.randomUUID()], behind [generateUUID()] *)
  randomUUID : world -> string * world;
  (** [Date.now()] *)
  dateNow : world -> Z * world;
  (** [buf.toString("base64")] and [Buffer.from(text, "base64")] *)
  base64_encode : Buffer.t -> string;
  base64_decode : string -> Buffer.t;
  (** [ecdh_keypair d Q]: on prime256v1, [Q] encodes the public point of the
      private scalar [d] *)
  ecdh_keypair : Buffer.t -> Buffer.t -> bool;
  (** [setPrivateKey(d)] then [computeSecret(Q)]; [None] when either throws *)
  ecdh_computeSecret : Buffer.t -> Buffer.t -> option Buffer.t;
  sha256 : Buffer.t -> Buffer.t;
  (** [pbkdf2Sync(password, salt, iterations, keylen, "sha256")] *)
  pbkdf2_sha256 : Buffer.t -> Buffer.t -> N -> nat -> Buffer.t;
  (** the counter-mode layer of AES-256-GCM: key, nonce, data *)
  aes256_ctr : Buffer.t -> Buffer.t -> Buffer.t -> Buffer.t;
  (** the full GCM tag of a ciphertext (no associated data): key, nonce,
      ciphertext *)
  gcm_tag : Buffer.t -> Buffer.t -> Buffer.t -> Buffer.t
}.

Class Base64Laws (P : NodePlatform) : Prop := {
  base64_decode_encode : forall b : Buffer.t, base64_decode (base64_encode b) = b
}.

Class GcmLaws (P : NodePlatform) : Prop := {
  (** counter mode xors a key stream: applying it twice is the identity *)
  aes256_ctr_involutive :
    forall k iv x, aes256_ctr k iv (aes256_ctr k iv x) = x;
  aes256_ctr_length :
    forall k iv x, List.length (aes256_ctr k iv x) = List.length x;
  gcm_tag_length :
    forall k iv c, List.length (gcm_tag k iv c) = 16%nat
}.

Class EntropyLaws (P : NodePlatform) : Prop := {
  randomBytes_length :
    forall n w, List.length (fst (randomBytes n w)) = n
}.

Class KdfLaws (P : NodePlatform) : Prop := {
  pbkdf2_length :
    forall password salt iterations keylen,
      List.length (pbkdf2_sha256 password salt iterations keylen) = keylen
}.

Class EcdhLaws (P : NodePlatform) : Prop := {
  (** Diffie-Hellman: [a.(b.G) = b.(a.G)], and both are computed *)
  ecdh_commutes :
    forall a A b B,
      ecdh_keypair a A = true -> ecdh_keypair b B = true ->
      ecdh_computeSecret a B = ecdh_computeSecret b A;
  ecdh_total :
    forall a A b B,
      ecdh_keypair a A = true -> ecdh_keypair b B = true ->
      ecdh_computeSecret a B <> None
}.

(** *** The objects of [node:crypto] built on the primitives *)

Module NodeCrypto.
Section WithPlatform.
Context {P : NodePlatform}.

(** A [Cipher] in GCM mode: what it was created with and what it was fed. *)
Record Cipher : Type := {
  cipherKey : Buffer.t;
  cipherIv : Buffer.t;
  cipherInput : Buffer.t
}.

(** [createCipheriv("aes-256-gcm", key, iv)] throws unless the key has 32
    bytes and the nonce is not empty. *)
Definition createCipheriv (algorithm : string) (key iv : Buffer.t)
  : outcome Cipher :=
  if negb (Js.eqb algorithm "aes-256-gcm") then
    Thrown (CryptoError "Unknown cipher")
  else if negb (Nat.eqb (List.length key) 32) then
    Thrown (CryptoError "Invalid key length")
  else if Nat.eqb (List.length iv) 0 then
    Thrown (CryptoError "Invalid initialization vector")
  else Returned {| cipherKey := key; cipherIv := iv; cipherInput := [] |}.

(** [cipher.update(data)]: the ciphertext of the new data, at its position
    in the stream. *)
Definition cipherUpdate (c : Cipher) (data : Buffer.t) : Buffer.t * Cipher :=
  let input := cipherInput c ++ data in
  (skipn (List.length (cipherInput c))
         (aes256_ctr (cipherKey c) (cipherIv c) input),
   {| cipherKey := cipherKey c; cipherIv := cipherIv c; cipherInput := input |}).

(** [cipher.final()]: a stream mode has nothing left to flush. *)
Definition cipherFinal (c : Cipher) : Buffer.t := [].

(** [cipher.getAuthTag()]: the 16-byte tag of the whole ciphertext. *)
Definition getAuthTag (c : Cipher) : Buffer.t :=
  gcm_tag (cipherKey c) (cipherIv c)
          (aes256_ctr (cipherKey c) (cipherIv c) (cipherInput c)).

Record Decipher : Type := {
  decipherKey : Buffer.t;
  decipherIv : Buffer.t;
  decipherInput : Buffer.t;
  decipherTag : option Buffer.t
}.

Definition createDecipheriv (algorithm : string) (key iv : Buffer.t)
  : outcome Decipher :=
  if negb (Js.eqb algorithm "aes-256-gcm") then
    Thrown (CryptoError "Unknown cipher")
  else if negb (Nat.eqb (List.length key) 32) then
    Thrown (CryptoError "Invalid key length")
  else if Nat.eqb (List.length iv) 0 then
    Thrown (CryptoError "Invalid initialization vector")
  else Returned {| decipherKey := key; decipherIv := iv;
                   decipherInput := []; decipherTag := None |}.

(** The tag lengths of NIST SP 800-38D, which [setAuthTag] accepts when
    [createDecipheriv] was given no [authTagLength] option. *)
Definition isValidGcmTagLength (n : nat) : bool :=
  Nat.eqb n 4 || Nat.eqb n 8 || (Nat.leb 12 n && Nat.leb n 16).

(** [decipher.setAuthTag(tag)] *)
Definition setAuthTag (d : Decipher) (tag : Buffer.t) : outcome Decipher :=
  if isValidGcmTagLength (List.length tag) then
    Returned {| decipherKey := decipherKey d; decipherIv := decipherIv d;
                decipherInput := decipherInput d; decipherTag := Some tag |}
  else Thrown (CryptoError "Invalid authentication tag length").

(** [decipher.update(data)] *)
Definition decipherUpdate (d : Decipher) (data : Buffer.t)
  : Buffer.t * Decipher :=
  let input := decipherInput d ++ data in
  (skipn (List.length (decipherInput d))
         (aes256_ctr (decipherKey d) (decipherIv d) input),
   {| decipherKey := decipherKey d; decipherIv := decipherIv d;
      decipherInput := input; decipherTag := decipherTag d |}).

(** [decipher.final()]: compares the tag it was given with the leading
    bytes, as many as that tag has, of the tag of the ciphertext it was fed;
    throws on a mismatch. *)
Definition decipherFinal (d : Decipher) : outcome Buffer.t :=
  match decipherTag d with
  | None => Thrown (CryptoError "Unsupported state or unable to authenticate data")
  | Some tag =>
      if Buffer.eqb tag
           (firstn (List.length tag)
                   (gcm_tag (decipherKey d) (decipherIv d) (decipherInput d)))
      then Returned []
      else Thrown (CryptoError "Unsupported state or unable to authenticate data")
  end.

(** [createHash("sha256")], [update], [digest]. *)
Definition createHash (algorithm : string) : Buffer.t := [].
Definition hashUpdate (h : Buffer.t) (data : Buffer.t) : Buffer.t := h ++ data.
Definition hashDigest (h : Buffer.t) : Buffer.t := sha256 h.

End WithPlatform.
End NodeCrypto.

(** ** src/crypto/utils.ts *)

Definition bufferToBase64 {P : NodePlatform} (buffer : Buffer.t) : string :=
  base64_encode buffer.

Definition base64ToBuffer {P : NodePlatform} (data : string) : Buffer.t :=
  base64_decode data.

(** ** src/crypto/keys.ts *)

Record KeyPair : Type := {
  kpPublicKey : string;
  kpPrivateKey : string
}.

Definition SUPPORTED_CURVE : string := "prime256v1".

(** ** src/crypto/e2e.ts *)

Module E2E.
Import NodeCrypto.
Section WithPlatform.
Context {P : NodePlatform}.

Definition ALGORITHM : string := "aes-256-gcm".
Definition IV_LENGTH : nat := 12.
Definition SALT_LENGTH : nat := 16.
Definition KEY_LENGTH : nat := 32.
Definition TAG_LENGTH : nat := 16.
Definition PBKDF2_ITERATIONS : N := 100000.

(** The two public keys in bytewise order, as the salt hashes them. *)
Definition orderedPair (a b : Buffer.t) : Buffer.t * Buffer.t :=
  if Buffer.compare a b <=? 0 then (a, b) else (b, a).

Definition deriveSharedSecret (local : KeyPair) (remotePublicKey : string)
  : outcome Buffer.t :=
  let remotePublicKeyBuffer := base64ToBuffer remotePublicKey in
  match ecdh_computeSecret (base64ToBuffer (kpPrivateKey local))
                           remotePublicKeyBuffer with
  | None => Thrown (CryptoError "ECDH failed")
  | Some sharedSecret =>
      let a := base64ToBuffer (kpPublicKey local) in
      let b := base64ToBuffer remotePublicKey in
      let '(first, second) := orderedPair a b in
      let hash :=
        hashDigest (hashUpdate (hashUpdate (createHash "sha256") first) second) in
      let salt := Buffer.slice hash 0 (Z.of_nat SALT_LENGTH) in
      Returned (pbkdf2_sha256 sharedSecret salt PBKDF2_ITERATIONS KEY_LENGTH)
  end.

Record Encrypted : Type := {
  encCiphertext : string;
  encIv : string
}.

(** The body of [encryptMessage] once its nonce has been drawn. *)
Definition encryptWithNonce (iv : Buffer.t) (plaintext : string)
  (secret : Buffer.t) : outcome Encrypted :=
  match createCipheriv ALGORITHM secret iv with
  | Thrown e => Thrown e
  | Returned cipher =>
      let '(ciphertext, cipher) := cipherUpdate cipher (Buffer.fromUtf8 plaintext) in
      let ciphertext := Buffer.concat [ciphertext; cipherFinal cipher] in
      let tag := getAuthTag cipher in
      let encrypted := Buffer.concat [ciphertext; tag] in
      Returned {| encCiphertext := bufferToBase64 encrypted;
                  encIv := bufferToBase64 iv |}
  end.

Definition encryptMessage (plaintext : string) (secret : Buffer.t)
  : Eff world Encrypted :=
  fun w =>
    let '(iv, w') := randomBytes IV_LENGTH w in
    (encryptWithNonce iv plaintext secret, w').

Definition decryptMessage (ciphertext iv : string) (secret : Buffer.t)
  : outcome string :=
  let encryptedBuffer := base64ToBuffer ciphertext in
  let ivBuffer := base64ToBuffer iv in
  let tag := Buffer.sliceFrom encryptedBuffer (- Z.of_nat TAG_LENGTH) in
  let actualCiphertext := Buffer.slice encryptedBuffer 0 (- Z.of_nat TAG_LENGTH) in
  match createDecipheriv ALGORITHM secret ivBuffer with
  | Thrown e => Thrown e
  | Returned decipher =>
      match setAuthTag decipher tag with
      | Thrown e => Thrown e
      | Returned decipher =>
          let '(decrypted, decipher) := decipherUpdate decipher actualCiphertext in
          match decipherFinal decipher with
          | Thrown e => Thrown e
          | Returned rest =>
              let decrypted := Buffer.concat [decrypted; rest] in
              Returned (Buffer.toUtf8 decrypted)
          end
      end
  end.

End WithPlatform.
End E2E.

(** ** src/models *)

Record User : Type := {
  userId : string;
  username : string;
  identityKey : string;
  publicKey : string;
  privateKey : string
}.

Inductive MediaType : Type := IMAGE | AUDIO | VIDEO | DOCUMENT.

Record MediaMetadata : Type := {
  filename : string;
  mimeType : string;
  size : Z;
  thumbnail : option string
}.

Record MediaAttachment : Type := {
  mediaType : MediaType;
  mediaData : string;
  mediaMetadata : MediaMetadata
}.

Inductive MessageType : Type := TextMessage | MediaMessage | SystemMessage.

Record Message : Type := {
  msgId : string;
  senderId : string;
  receiverId : option string;
  groupId : option string;
  ciphertext : string;
  iv : string;
  timestamp : Z;
  msgType : MessageType;
  media : option MediaAttachment
}.

(** [{ ...media, data }] *)
Definition withData (m : MediaAttachment) (data : string) : MediaAttachment :=
  {| mediaType := mediaType m; mediaData := data; mediaMetadata := mediaMetadata m |}.

(** ** src/crypto/uuid.ts *)

Definition generateUUID {P : NodePlatform} : Eff world string :=
  fun w => let '(u, w') := randomUUID w in (Returned u, w').

Definition now {P : NodePlatform} : Eff world Z :=
  fun w => let '(t, w') := dateNow w in (Returned t, w').

(** ** src/chat/ChatSession.ts *)

Module Chat.
Import E2E.
Section WithPlatform.
Context {P : NodePlatform}.

Record ChatSession : Type := {
  sessionId : string;
  userA : User;
  userB : User;
  sharedSecret : option Buffer.t;
  ephemeralKeyPair : option KeyPair
}.

(** [new ChatSession(id, userA, userB)] *)
Definition newChatSession (id : string) (a b : User) : ChatSession :=
  {| sessionId := id; userA := a; userB := b;
     sharedSecret := None; ephemeralKeyPair := None |}.

Definition setSharedSecret (s : ChatSession) (k : Buffer.t) : ChatSession :=
  {| sessionId := sessionId s; userA := userA s; userB := userB s;
     sharedSecret := Some k; ephemeralKeyPair := ephemeralKeyPair s |}.

Definition initialize : Eff ChatSession unit :=
  fun this =>
    let localKeyPair :=
      {| kpPublicKey := publicKey (userA this);
         kpPrivateKey := privateKey (userA this) |} in
    match deriveSharedSecret localKeyPair (publicKey (userB this)) with
    | Returned k => (Returned tt, setSharedSecret this k)
    | Thrown e => (Thrown e, this)
    end.

Definition initializeForUser (user : User) : Eff ChatSession unit :=
  fun this =>
    let otherUser :=
      if Js.eqb (userId user) (userId (userA this))
      then userB this else userA this in
    let localKeyPair :=
      {| kpPublicKey := publicKey user; kpPrivateKey := privateKey user |} in
    match deriveSharedSecret localKeyPair (publicKey otherUser) with
    | Returned k => (Returned tt, setSharedSecret this k)
    | Thrown e => (Thrown e, this)
    end.

(** The receiver of an envelope sent by [sender]. *)
Definition counterpart (this : ChatSession) (sender : string) : string :=
  if Js.eqb sender (userId (userA this))
  then userId (userB this) else userId (userA this).

(** The guard of [decrypt] and [decryptMedia]: no key yet, or a user that is
    neither participant. *)
Definition needsInitializeFor (this : ChatSession) (user : User) : bool :=
  match sharedSecret this with
  | None => true
  | Some _ =>
      negb (Js.eqb (userId user) (userId (userA this)))
      && negb (Js.eqb (userId user) (userId (userB this)))
  end.

Local Open Scope eff_scope.

Definition encrypt (plaintext sender : string)
  : Eff (ChatSession * world) Message :=
  this <- onFst readStore ;;
  match sharedSecret this with
  | None => onFst initialize
  | Some _ => ret tt
  end ;;;
  this <- onFst readStore ;;
  match sharedSecret this with
  | None => throw (PlainError "Failed to initialize session")
  | Some secret =>
      enc <- onSnd (encryptMessage plaintext secret) ;;
      id <- onSnd generateUUID ;;
      ts <- onSnd now ;;
      ret {| msgId := id;
             senderId := sender;
             receiverId := Some (counterpart this sender);
             groupId := None;
             ciphertext := encCiphertext enc;
             iv := encIv enc;
             timestamp := ts;
             msgType := TextMessage;
             media := None |}
  end.

Definition encryptMedia (plaintext : string) (attachment : MediaAttachment)
  (sender : string) : Eff (ChatSession * world) Message :=
  this <- onFst readStore ;;
  match sharedSecret this with
  | None => onFst initialize
  | Some _ => ret tt
  end ;;;
  this <- onFst readStore ;;
  match sharedSecret this with
  | None => throw (PlainError "Failed to initialize session")
  | Some secret =>
      enc <- onSnd (encryptMessage plaintext secret) ;;
      encMedia <- onSnd (encryptMessage (mediaData attachment) secret) ;;
      let encryptedMedia := withData attachment (encCiphertext encMedia) in
      id <- onSnd generateUUID ;;
      ts <- onSnd now ;;
      ret {| msgId := id;
             senderId := sender;
             receiverId := Some (counterpart this sender);
             groupId := None;
             ciphertext := encCiphertext enc;
             iv := encIv enc;
             timestamp := ts;
             msgType := MediaMessage;
             media := Some encryptedMedia |}
  end.

Definition decrypt (message : Message) (user : User)
  : Eff ChatSession string :=
  this <- readStore ;;
  (if needsInitializeFor this user then initializeForUser user else ret tt) ;;;
  this <- readStore ;;
  match sharedSecret this with
  | None => throw (PlainError "Failed to initialize session")
  | Some secret =>
      liftOutcome (decryptMessage (ciphertext message) (iv message) secret)
  end.

Definition decryptMedia (message : Message) (user : User)
  : Eff ChatSession (string * MediaAttachment) :=
  match media message with
  | None => throw (PlainError "Message does not contain media")
  | Some attachment =>
      this <- readStore ;;
      (if needsInitializeFor this user then initializeForUser user else ret tt) ;;;
      this <- readStore ;;
      match sharedSecret this with
      | None => throw (PlainError "Failed to initialize session")
      | Some secret =>
          text <- liftOutcome
                    (decryptMessage (ciphertext message) (iv message) secret) ;;
          decryptedMediaData <-
            liftOutcome
              (decryptMessage (mediaData attachment) (iv message) secret) ;;
          ret (text, withData attachment decryptedMediaData)
      end
  end.

End WithPlatform.
End Chat.

(** ** The insertion-ordered [Map<string, V>] of JavaScript *)

Module JsMap.
Section WithValues.
Variable V : Type.

(** Entries in insertion order; a key occurs at most once. *)
Definition t : Type := list (string * V).

Fixpoint get (m : t) (k : string) : option V :=
  match m with
  | [] => None
  | (k', v) :: rest => if Js.eqb k' k then Some v else get rest k
  end.

(** [map.set(k, v)]: an existing key keeps its place, a new one goes last. *)
Fixpoint set (m : t) (k : string) (v : V) : t :=
  match m with
  | [] => [(k, v)]
  | (k', v') :: rest =>
      if Js.eqb k' k then (k, v) :: rest else (k', v') :: set rest k v
  end.

Fixpoint delete (m : t) (k : string) : t :=
  match m with
  | [] => []
  | (k', v') :: rest =>
      if Js.eqb k' k then rest else (k', v') :: delete rest k
  end.

Definition size (m : t) : Z := Z.of_nat (List.length m).

Definition keys (m : t) : list string := List.map fst m.

Definition values (m : t) : list V := List.map snd m.

(** [map.keys().next().value]: [undefined] on an empty map. *)
Definition firstKey (m : t) : option string :=
  match m with
  | [] => None
  | (k, _) :: _ => Some k
  end.

End WithValues.
End JsMap.

(** A string in a condition: only the empty string is falsy. *)
Definition truthy (s : string) : bool := negb (Js.eqb s "").

(** ** src/utils/messageQueue.ts *)

Module Queue.

Definition MAX_QUEUE_SIZE : Z := 1000.
Definition MESSAGE_RETRY_ATTEMPTS : Z := 3.
Definition MESSAGE_RETRY_DELAY : Z := 2000.

Inductive MessageStatus : Type := PENDING | SENT | DELIVERED | FAILED.

Definition statusEqb (a b : MessageStatus) : bool :=
  match a, b with
  | PENDING, PENDING | SENT, SENT | DELIVERED, DELIVERED | FAILED, FAILED => true
  | _, _ => false
  end.

Record QueuedMessage : Type := {
  message : Message;
  status : MessageStatus;
  attempts : nat;
  lastAttempt : option Z;
  error : option fault
}.

Record MessageQueue : Type := {
  queue : JsMap.t QueuedMessage;
  maxSize : Z;
  maxRetries : Z;
  retryDelay : Z
}.

(** [new MessageQueue(maxSize, maxRetries, retryDelay)] *)
Definition newMessageQueue (maxSize maxRetries retryDelay : Z) : MessageQueue :=
  {| queue := []; maxSize := maxSize; maxRetries := maxRetries;
     retryDelay := retryDelay |}.

(** [new MessageQueue()] *)
Definition defaultMessageQueue : MessageQueue :=
  newMessageQueue MAX_QUEUE_SIZE MESSAGE_RETRY_ATTEMPTS MESSAGE_RETRY_DELAY.

Definition withQueue (q : MessageQueue) (m : JsMap.t QueuedMessage)
  : MessageQueue :=
  {| queue := m; maxSize := maxSize q; maxRetries := maxRetries q;
     retryDelay := retryDelay q |}.

(** The entry [enqueue] stores. *)
Definition freshEntry (m : Message) : QueuedMessage :=
  {| message := m; status := PENDING; attempts := 0;
     lastAttempt := None; error := None |}.

(** The first half of [enqueue]: making room. *)
Definition evictIfFull (q : MessageQueue) : JsMap.t QueuedMessage :=
  if JsMap.size (queue q) >=? maxSize q then
    match JsMap.firstKey (queue q) with
    | Some firstKey =>
        if truthy firstKey then JsMap.delete (queue q) firstKey else queue q
    | None => queue q
    end
  else queue q.

Definition enqueue (q : MessageQueue) (m : Message) : MessageQueue :=
  withQueue q (JsMap.set (evictIfFull q) (msgId m) (freshEntry m)).

Definition markSent (q : MessageQueue) (messageId : string) : MessageQueue :=
  match JsMap.get (queue q) messageId with
  | Some queued => withQueue q (JsMap.delete (queue q) messageId)
  | None => q
  end.

(** The entry after the assignments of [markFailed]; [clock] is the value of
    [Date.now()]. *)
Definition failedEntry (queued : QueuedMessage) (err : fault) (clock : Z)
  : QueuedMessage :=
  {| message := message queued;
     status := FAILED;
     attempts := S (attempts queued);
     lastAttempt := Some clock;
     error := Some err |}.

Definition markFailed (q : MessageQueue) (messageId : string) (err : fault)
  (clock : Z) : MessageQueue :=
  match JsMap.get (queue q) messageId with
  | Some queued =>
      let queued' := failedEntry queued err clock in
      let updated := JsMap.set (queue q) messageId queued' in
      if Z.of_nat (attempts queued') >=? maxRetries q
      then withQueue q (JsMap.delete updated messageId)
      else withQueue q updated
  | None => q
  end.

(** [!queued.lastAttempt || now - queued.lastAttempt >= this.retryDelay]:
    a missing or zero time stamp is falsy. *)
Definition retryDue (q : MessageQueue) (queued : QueuedMessage) (clock : Z)
  : bool :=
  match lastAttempt queued with
  | None => true
  | Some t => (t =? 0) || (clock - t >=? retryDelay q)
  end.

Definition getRetryableMessages (q : MessageQueue) (clock : Z)
  : list QueuedMessage :=
  List.filter
    (fun queued =>
       statusEqb (status queued) FAILED
       && (Z.of_nat (attempts queued) <? maxRetries q)
       && retryDue q queued clock)
    (JsMap.values (queue q)).

Definition getPendingMessages (q : MessageQueue) : list QueuedMessage :=
  List.filter (fun queued => statusEqb (status queued) PENDING)
              (JsMap.values (queue q)).

Definition size (q : MessageQueue) : Z := JsMap.size (queue q).

Definition clear (q : MessageQueue) : MessageQueue := withQueue q [].

Definition get (q : MessageQueue) (messageId : string) : option QueuedMessage :=
  JsMap.get (queue q) messageId.

Definition remove (q : MessageQueue) (messageId : string) : MessageQueue :=
  withQueue q (JsMap.delete (queue q) messageId).

Definition getAll (q : MessageQueue) : list QueuedMessage :=
  JsMap.values (queue q).

(** [markFailed] called [n] times in a row on one id, at the given clock
    readings. *)
Fixpoint markFailedTimes (q : MessageQueue) (messageId : string) (err : fault)
  (clocks : list Z) : MessageQueue :=
  match clocks with
  | [] => q
  | clock :: later =>
      markFailedTimes (markFailed q messageId err clock) messageId err later
  end.

End Queue.

(** ** src/transport/websocketClient.ts *)

Module Transport.

Definition RECONNECT_MAX_ATTEMPTS : nat := 5.
Definition RECONNECT_BASE_DELAY : Z := 1000.
Definition RECONNECT_MAX_DELAY : Z := 30000.
Definition HEARTBEAT_INTERVAL : Z := 30000.
Definition CONNECTION_TIMEOUT : Z := 10000.

Inductive ConnectionState : Type :=
| DISCONNECTED | CONNECTING | CONNECTED | RECONNECTING | FAILED.

Definition stateEqb (a b : ConnectionState) : bool :=
  match a, b with
  | DISCONNECTED, DISCONNECTED | CONNECTING, CONNECTING
  | CONNECTED, CONNECTED | RECONNECTING, RECONNECTING | FAILED, FAILED => true
  | _, _ => false
  end.

(** [WebSocket.readyState] *)
Inductive ReadyState : Type := WS_CONNECTING | WS_OPEN | WS_CLOSING | WS_CLOSED.

(** A socket made by one call of [doConnect], with the connect-timeout
    timer that call started. *)
Record Socket : Type := {
  readyState : ReadyState;
  timeoutPending : bool
}.

(** What [JSON.parse(event.data)] makes of an incoming frame. *)
Inductive Frame : Type :=
| Pong
| Envelope (m : Message)
| Malformed.

(** What the client hands to its handlers, to the wire and to the timer
    queue, in order. *)
Inductive Output : Type :=
| StateChanged (s : ConnectionState)
| ErrorReported (e : fault)
| MessageReceived (m : Message)
| PingSent (socket : nat)
| MessageSent (socket : nat) (m : Message)
| ReconnectScheduled (attempt : nat) (delay : Z).

(** The fields of the class, then the sockets it has created and the trace
    of its outputs. [reconnectTimer] is [Some true] while the timer is
    pending and [Some false] once it has fired: the handle is only dropped
    by [clearReconnectTimer]. [urlValid] tells whether [new WebSocket(url)]
    returns or throws. *)
Record WebSocketClient : Type := {
  ws : option nat;
  urlValid : bool;
  connectionState : ConnectionState;
  reconnectAttempts : nat;
  reconnectTimer : option bool;
  heartbeatTimer : bool;
  currentUserId : option string;
  shouldReconnect : bool;
  sockets : list Socket;
  outputs : list Output
}.

(** [new WebSocketClient(url)] *)
Definition newWebSocketClient (valid : bool) : WebSocketClient :=
  {| ws := None; urlValid := valid; connectionState := DISCONNECTED;
     reconnectAttempts := 0; reconnectTimer := None; heartbeatTimer := false;
     currentUserId := None; shouldReconnect := true;
     sockets := []; outputs := [] |}.

Definition setWs (v : option nat) (c : WebSocketClient) : WebSocketClient :=
  {| ws := v; urlValid := urlValid c; connectionState := connectionState c;
     reconnectAttempts := reconnectAttempts c; reconnectTimer := reconnectTimer c;
     heartbeatTimer := heartbeatTimer c; currentUserId := currentUserId c;
     shouldReconnect := shouldReconnect c; sockets := sockets c;
     outputs := outputs c |}.

Definition setConnectionState (v : ConnectionState) (c : WebSocketClient)
  : WebSocketClient :=
  {| ws := ws c; urlValid := urlValid c; connectionState := v;
     reconnectAttempts := reconnectAttempts c; reconnectTimer := reconnectTimer c;
     heartbeatTimer := heartbeatTimer c; currentUserId := currentUserId c;
     shouldReconnect := shouldReconnect c; sockets := sockets c;
     outputs := outputs c |}.

Definition setReconnectAttempts (v : nat) (c : WebSocketClient)
  : WebSocketClient :=
  {| ws := ws c; urlValid := urlValid c; connectionState := connectionState c;
     reconnectAttempts := v; reconnectTimer := reconnectTimer c;
     heartbeatTimer := heartbeatTimer c; currentUserId := currentUserId c;
     shouldReconnect := shouldReconnect c; sockets := sockets c;
     outputs := outputs c |}.

Definition setReconnectTimer (v : option bool) (c : WebSocketClient)
  : WebSocketClient :=
  {| ws := ws c; urlValid := urlValid c; connectionState := connectionState c;
     reconnectAttempts := reconnectAttempts c; reconnectTimer := v;
     heartbeatTimer := heartbeatTimer c; currentUserId := currentUserId c;
     shouldReconnect := shouldReconnect c; sockets := sockets c;
     outputs := outputs c |}.

Definition setHeartbeatTimer (v : bool) (c : WebSocketClient)
  : WebSocketClient :=
  {| ws := ws c; urlValid := urlValid c; connectionState := connectionState c;
     reconnectAttempts := reconnectAttempts c; reconnectTimer := reconnectTimer c;
     heartbeatTimer := v; currentUserId := currentUserId c;
     shouldReconnect := shouldReconnect c; sockets := sockets c;
     outputs := outputs c |}.

Definition setCurrentUserId (v : option string) (c : WebSocketClient)
  : WebSocketClient :=
  {| ws := ws c; urlValid := urlValid c; connectionState := connectionState c;
     reconnectAttempts := reconnectAttempts c; reconnectTimer := reconnectTimer c;
     heartbeatTimer := heartbeatTimer c; currentUserId := v;
     shouldReconnect := shouldReconnect c; sockets := sockets c;
     outputs := outputs c |}.

Definition setShouldReconnect (v : bool) (c : WebSocketClient)
  : WebSocketClient :=
  {| ws := ws c; urlValid := urlValid c; connectionState := connectionState c;
     reconnectAttempts := reconnectAttempts c; reconnectTimer := reconnectTimer c;
     heartbeatTimer := heartbeatTimer c; currentUserId := currentUserId c;
     shouldReconnect := v; sockets := sockets c; outputs := outputs c |}.

Definition setSockets (v : list Socket) (c : WebSocketClient)
  : WebSocketClient :=
  {| ws := ws c; urlValid := urlValid c; connectionState := connectionState c;
     reconnectAttempts := reconnectAttempts c; reconnectTimer := reconnectTimer c;
     heartbeatTimer := heartbeatTimer c; currentUserId := currentUserId c;
     shouldReconnect := shouldReconnect c; sockets := v; outputs := outputs c |}.

Definition emit (o : Output) (c : WebSocketClient) : WebSocketClient :=
  {| ws := ws c; urlValid := urlValid c; connectionState := connectionState c;
     reconnectAttempts := reconnectAttempts c; reconnectTimer := reconnectTimer c;
     heartbeatTimer := heartbeatTimer c; currentUserId := currentUserId c;
     shouldReconnect := shouldReconnect c; sockets := sockets c;
     outputs := outputs c ++ [o] |}.

(** The socket numbered [i], changed by [f]. *)
Fixpoint changeSocket (i : nat) (f : Socket -> Socket) (l : list Socket)
  : list Socket :=
  match l, i with
  | [], _ => []
  | s :: rest, O => f s :: rest
  | s :: rest, S j => s :: changeSocket j f rest
  end.

Definition socketAt (i : nat) (c : WebSocketClient) : option Socket :=
  nth_error (sockets c) i.

Definition withReadyState (r : ReadyState) (s : Socket) : Socket :=
  {| readyState := r; timeoutPending := timeoutPending s |}.

Definition withoutTimeout (s : Socket) : Socket :=
  {| readyState := readyState s; timeoutPending := false |}.

(** [socket.close()]: a socket that is not closed yet starts closing; its
    [onclose] comes later, as an event. *)
Definition closing (s : Socket) : Socket :=
  match readyState s with
  | WS_CLOSED => s
  | _ => withReadyState WS_CLOSING s
  end.

(** [clearTimeout(connectionTimeout)] in the handlers of socket [i]. *)
Definition clearConnectionTimeout (i : nat) (c : WebSocketClient)
  : WebSocketClient :=
  setSockets (changeSocket i withoutTimeout (sockets c)) c.

(** [this.ws?.close()] *)
Definition closeCurrent (c : WebSocketClient) : WebSocketClient :=
  match ws c with
  | Some i => setSockets (changeSocket i closing (sockets c)) c
  | None => c
  end.

Definition updateState (newState : ConnectionState) (c : WebSocketClient)
  : WebSocketClient :=
  if stateEqb (connectionState c) newState then c
  else emit (StateChanged newState) (setConnectionState newState c).

Definition handleError (e : fault) (c : WebSocketClient) : WebSocketClient :=
  emit (ErrorReported e) c.

Definition clearReconnectTimer (c : WebSocketClient) : WebSocketClient :=
  match reconnectTimer c with
  | Some _ => setReconnectTimer None c
  | None => c
  end.

Definition stopHeartbeat (c : WebSocketClient) : WebSocketClient :=
  if heartbeatTimer c then setHeartbeatTimer false c else c.

Definition startHeartbeat (c : WebSocketClient) : WebSocketClient :=
  setHeartbeatTimer true (stopHeartbeat c).

Definition isConnected (c : WebSocketClient) : bool :=
  stateEqb (connectionState c) CONNECTED
  && match ws c with
     | Some i =>
         match socketAt i c with
         | Some {| readyState := WS_OPEN |} => true
         | _ => false
         end
     | None => false
     end.

(** The backoff before the jitter, a random amount below one second, is
    added. *)
Definition backoffDelay (attempt : nat) : Z :=
  Z.min (RECONNECT_BASE_DELAY * 2 ^ (Z.of_nat attempt - 1)) RECONNECT_MAX_DELAY.

Definition scheduleReconnect (c : WebSocketClient) : WebSocketClient :=
  let c := clearReconnectTimer c in
  let c := setReconnectAttempts (S (reconnectAttempts c)) c in
  let delay := backoffDelay (reconnectAttempts c) in
  let c := emit (ReconnectScheduled (reconnectAttempts c) delay) c in
  let c := updateState RECONNECTING c in
  setReconnectTimer (Some true) c.

(** [doConnect()], up to the point where the promise is pending: the
    handlers it installs are [onopen], [onmessage], [onerror], [onclose] and
    [onConnectionTimeout] below, for the socket it created. *)
Definition doConnect (c : WebSocketClient) : WebSocketClient :=
  if stateEqb (connectionState c) CONNECTING then c
  else
    let c := updateState CONNECTING c in
    if urlValid c then
      let i := List.length (sockets c) in
      let c := setWs (Some i) c in
      setSockets (sockets c ++ [{| readyState := WS_CONNECTING;
                                   timeoutPending := true |}]) c
    else handleError (NetworkError "Failed to create WebSocket connection") c.

Definition onConnectionTimeout (c : WebSocketClient) : WebSocketClient :=
  if stateEqb (connectionState c) CONNECTING then
    handleError (NetworkError "Connection timeout") (closeCurrent c)
  else c.

Definition onopen (i : nat) (c : WebSocketClient) : WebSocketClient :=
  let c := clearConnectionTimeout i c in
  let c := setReconnectAttempts 0 c in
  let c := updateState CONNECTED c in
  startHeartbeat c.

Definition onmessage (f : Frame) (c : WebSocketClient) : WebSocketClient :=
  match f with
  | Pong => c
  | Envelope m => emit (MessageReceived m) c
  | Malformed => handleError (TransportError "Failed to parse message") c
  end.

Definition onerror (i : nat) (c : WebSocketClient) : WebSocketClient :=
  handleError (NetworkError "WebSocket error") (clearConnectionTimeout i c).

Definition onclose (i : nat) (c : WebSocketClient) : WebSocketClient :=
  let c := clearConnectionTimeout i c in
  let c := stopHeartbeat c in
  if negb (stateEqb (connectionState c) DISCONNECTED) then
    let c := updateState DISCONNECTED c in
    if shouldReconnect c && (reconnectAttempts c <? RECONNECT_MAX_ATTEMPTS)%nat
    then scheduleReconnect c
    else if (RECONNECT_MAX_ATTEMPTS <=? reconnectAttempts c)%nat then
      handleError (NetworkError "Max reconnection attempts exceeded")
                  (updateState FAILED c)
    else c
  else c.

Definition connect (user : string) (c : WebSocketClient) : WebSocketClient :=
  doConnect (setShouldReconnect true (setCurrentUserId (Some user) c)).

Definition disconnect (c : WebSocketClient) : WebSocketClient :=
  let c := setShouldReconnect false c in
  let c := clearReconnectTimer c in
  let c := stopHeartbeat c in
  let c := match ws c with
           | Some _ => setWs None (closeCurrent c)
           | None => c
           end in
  updateState DISCONNECTED c.

Definition reconnect (c : WebSocketClient) : outcome unit * WebSocketClient :=
  let c := setReconnectAttempts 0 c in
  let c := setShouldReconnect true c in
  let c := disconnect c in
  match currentUserId c with
  | Some user =>
      if truthy user then (Returned tt, doConnect c)
      else (Thrown (TransportError "Cannot reconnect: no user ID set"), c)
  | None => (Thrown (TransportError "Cannot reconnect: no user ID set"), c)
  end.

Definition send (m : Message) (c : WebSocketClient)
  : outcome unit * WebSocketClient :=
  match isConnected c, ws c with
  | true, Some i => (Returned tt, emit (MessageSent i m) c)
  | _, _ => (Thrown (NetworkError "WebSocket not connected"), c)
  end.

Definition heartbeat (c : WebSocketClient) : WebSocketClient :=
  match isConnected c, ws c with
  | true, Some i => emit (PingSent i) c
  | _, _ => c
  end.

(** *** The event loop *)

(** What can happen to a client: the sockets and timers it created call
    back, or the application calls a method. *)
Inductive Event : Type :=
| SocketOpened (i : nat)
| SocketMessage (i : nat) (f : Frame)
| SocketErrored (i : nat)
| SocketClosed (i : nat)
| ConnectionTimeoutFired (i : nat)
| ReconnectTimerFired
| HeartbeatFired
| CallConnect (user : string)
| CallDisconnect
| CallReconnect
| CallSend (m : Message).

(** The events the runtime raises on its own. *)
Definition automatic (e : Event) : bool :=
  match e with
  | CallConnect _ | CallDisconnect | CallReconnect | CallSend _ => false
  | _ => true
  end.

Definition readyStateAt (i : nat) (c : WebSocketClient) : option ReadyState :=
  option_map readyState (socketAt i c).

Definition setReadyState (i : nat) (r : ReadyState) (c : WebSocketClient)
  : WebSocketClient :=
  setSockets (changeSocket i (withReadyState r) (sockets c)) c.

(** One turn of the event loop. A callback runs only when the runtime can
    raise it: [onopen] on a connecting socket, [onclose] once per socket,
    a timer only while it is pending. *)
Definition dispatch (e : Event) (c : WebSocketClient) : WebSocketClient :=
  match e with
  | SocketOpened i =>
      match readyStateAt i c with
      | Some WS_CONNECTING => onopen i (setReadyState i WS_OPEN c)
      | _ => c
      end
  | SocketMessage i f =>
      match readyStateAt i c with
      | Some WS_OPEN => onmessage f c
      | _ => c
      end
  | SocketErrored i =>
      match readyStateAt i c with
      | Some WS_CLOSED | None => c
      | Some _ => onerror i c
      end
  | SocketClosed i =>
      match readyStateAt i c with
      | Some WS_CLOSED | None => c
      | Some _ => onclose i (setReadyState i WS_CLOSED c)
      end
  | ConnectionTimeoutFired i =>
      match socketAt i c with
      | Some {| timeoutPending := true |} =>
          onConnectionTimeout (clearConnectionTimeout i c)
      | _ => c
      end
  | ReconnectTimerFired =>
      match reconnectTimer c with
      | Some true => doConnect (setReconnectTimer (Some false) c)
      | _ => c
      end
  | HeartbeatFired => if heartbeatTimer c then heartbeat c else c
  | CallConnect user => connect user c
  | CallDisconnect => disconnect c
  | CallReconnect => snd (reconnect c)
  | CallSend m => snd (send m c)
  end.

Definition run (c : WebSocketClient) (events : list Event) : WebSocketClient :=
  fold_left (fun c e => dispatch e c) events c.

Definition isScheduled (o : Output) : bool :=
  match o with ReconnectScheduled _ _ => true | _ => false end.

(** How often [scheduleReconnect] has run. *)
Definition scheduledReconnects (c : WebSocketClient) : nat :=
  List.length (List.filter isScheduled (outputs c)).

End Transport.

(** ** src/utils/validation.ts *)

Definition MAX_MESSAGE_LENGTH : Z := 10000.

Definition validateMessage (message : string) : outcome unit :=
  if negb (truthy message) then
    Thrown (ValidationError "Message content is required")
  else if Js.length message =? 0 then
    Thrown (ValidationError "Message cannot be empty")
  else if Js.length message >? MAX_MESSAGE_LENGTH then
    Thrown (ValidationError "Message exceeds maximum length of 10000 characters")
  else Returned tt.

(** ** src/index.ts: the orchestrator *)

Module SDK.
Import Chat Queue.
Section WithPlatform.
Context {P : NodePlatform}.

(** [Array.prototype.sort()] with no comparator, on strings: a stable sort
    by the order of the strings. *)
Fixpoint insertSorted (x : string) (l : list string) : list string :=
  match l with
  | [] => [x]
  | y :: rest =>
      if Js.ltb y x then y :: insertSorted x rest else x :: y :: rest
  end.

Definition sortStrings (l : list string) : list string :=
  fold_right insertSorted [] l.

(** The session id of [startSession]: [`${ids[0]}-${ids[1]}`] for
    [ids = [userA.id, userB.id].sort()]. *)
Definition pairwiseSessionId (a b : User) : string :=
  let ids := sortStrings [userId a; userId b] in
  nth 0 ids "undefined" ++ "-" ++ nth 1 ids "undefined".

Inductive SdkEvent : Type :=
| MESSAGE_SENT (m : Message)
| MESSAGE_FAILED (m : Message) (e : fault)
| SESSION_CREATED (s : ChatSession)
| ERROR (e : fault).

(** The transport adapter as one call of the orchestrator sees it. *)
Record TransportPort : Type := {
  portIsConnected : bool;
  portSend : Message -> outcome unit
}.

(** The collaborators handed to the constructor. *)
Record ChatSDKConfig : Type := {
  messageStoreCreate : Message -> outcome unit;
  transport : option TransportPort
}.

Record ChatSDK : Type := {
  config : ChatSDKConfig;
  currentUser : option User;
  messageQueue : MessageQueue;
  emitted : list SdkEvent
}.

Definition emit (e : SdkEvent) : Eff ChatSDK unit :=
  fun sdk =>
    (Returned tt,
     {| config := config sdk; currentUser := currentUser sdk;
        messageQueue := messageQueue sdk; emitted := emitted sdk ++ [e] |}).

Definition updateQueue (f : MessageQueue -> MessageQueue) : Eff ChatSDK unit :=
  fun sdk =>
    (Returned tt,
     {| config := config sdk; currentUser := currentUser sdk;
        messageQueue := f (messageQueue sdk); emitted := emitted sdk |}).

Local Open Scope eff_scope.

Definition startSession (a b : User) : Eff ChatSDK ChatSession :=
  let id := pairwiseSessionId a b in
  tryCatch
    (match initialize (newChatSession id a b) with
     | (Returned _, session) =>
         emit (SESSION_CREATED session) ;;; ret session
     | (Thrown e, _) => throw e
     end)
    (fun _ =>
       let sessionError := SessionError "Failed to create chat session" in
       emit (ERROR sessionError) ;;; throw sessionError).

(** The store of [sendMessage]: the orchestrator, the session it is given
    and the platform. *)
Definition SendStore : Type := (ChatSDK * (ChatSession * world))%type.

(** The transport section of [sendMessage]: send when connected, queue
    when offline, and on a failed send queue and count the failure. *)
Definition handOver (port : TransportPort) (m : Message) : Eff SendStore unit :=
  if portIsConnected port then
    match portSend port m with
    | Returned _ => onFst (emit (MESSAGE_SENT m))
    | Thrown e =>
        onFst (updateQueue (fun q => enqueue q m)) ;;;
        clock <- onSnd (onSnd now) ;;
        onFst (updateQueue (fun q => markFailed q (msgId m) e clock)) ;;;
        onFst (emit (MESSAGE_FAILED m e))
    end
  else onFst (updateQueue (fun q => enqueue q m)).

Definition sendMessage (plaintext : string) : Eff SendStore Message :=
  sdk <- onFst readStore ;;
  match currentUser sdk with
  | None =>
      throw (SessionError "No current user set. Call setCurrentUser() first.")
  | Some user =>
      liftOutcome (validateMessage plaintext) ;;;
      tryCatch
        (m <- onSnd (encrypt plaintext (userId user)) ;;
         liftOutcome (messageStoreCreate (config sdk) m) ;;;
         match transport (config sdk) with
         | Some port => handOver port m
         | None => ret tt
         end ;;;
         ret m)
        (fun sendError => onFst (emit (ERROR sendError)) ;;; throw sendError)
  end.

End WithPlatform.
End SDK.

(** ** src/models/group.ts *)

Record Group : Type := {
  grpId : string;
  grpName : string;
  grpMembers : list User;
  grpCreatedAt : Z
}.

(** ** src/crypto/group.ts *)

Module GroupCrypto.
Section WithPlatform.
Context {P : NodePlatform}.

Record GroupKey : Type := {
  keyGroupId : string;
  key : string
}.

Definition KEY_LENGTH : nat := 32.
Definition PBKDF2_ITERATIONS : N := 100000.

(** The password and the salt of the derivation are both the group id. *)
Definition deriveGroupKey (id : string) : GroupKey :=
  let salt := Buffer.fromUtf8 id in
  let derived :=
    pbkdf2_sha256 (Buffer.fromUtf8 id) salt PBKDF2_ITERATIONS KEY_LENGTH in
  {| keyGroupId := id; key := bufferToBase64 derived |}.

End WithPlatform.
End GroupCrypto.

(** ** src/chat/GroupSession.ts *)

Module GroupChat.
Import E2E GroupCrypto.
Section WithPlatform.
Context {P : NodePlatform}.

Record GroupSession : Type := {
  group : Group;
  groupKey : option Buffer.t
}.

(** [new GroupSession(group)] *)
Definition newGroupSession (g : Group) : GroupSession :=
  {| group := g; groupKey := None |}.

Definition initialize : Eff GroupSession unit :=
  fun this =>
    let groupKeyData := deriveGroupKey (grpId (group this)) in
    (Returned tt,
     {| group := group this;
        groupKey := Some (base64ToBuffer (key groupKeyData)) |}).

Local Open Scope eff_scope.

Definition encrypt (plaintext sender : string)
  : Eff (GroupSession * world) Message :=
  this <- onFst readStore ;;
  match groupKey this with
  | None => onFst initialize
  | Some _ => ret tt
  end ;;;
  this <- onFst readStore ;;
  match groupKey this with
  | None => throw (PlainError "Failed to initialize group session")
  | Some secret =>
      enc <- onSnd (encryptMessage plaintext secret) ;;
      id <- onSnd generateUUID ;;
      ts <- onSnd now ;;
      ret {| msgId := id;
             senderId := sender;
             receiverId := None;
             groupId := Some (grpId (group this));
             ciphertext := encCiphertext enc;
             iv := encIv enc;
             timestamp := ts;
             msgType := TextMessage;
             media := None |}
  end.

Definition encryptMedia (plaintext : string) (attachment : MediaAttachment)
  (sender : string) : Eff (GroupSession * world) Message :=
  this <- onFst readStore ;;
  match groupKey this with
  | None => onFst initialize
  | Some _ => ret tt
  end ;;;
  this <- onFst readStore ;;
  match groupKey this with
  | None => throw (PlainError "Failed to initialize group session")
  | Some secret =>
      enc <- onSnd (encryptMessage plaintext secret) ;;
      encMedia <- onSnd (encryptMessage (mediaData attachment) secret) ;;
      let encryptedMedia := withData attachment (encCiphertext encMedia) in
      id <- onSnd generateUUID ;;
      ts <- onSnd now ;;
      ret {| msgId := id;
             senderId := sender;
             receiverId := None;
             groupId := Some (grpId (group this));
             ciphertext := encCiphertext enc;
             iv := encIv enc;
             timestamp := ts;
             msgType := MediaMessage;
             media := Some encryptedMedia |}
  end.

Definition decrypt (message : Message) : Eff GroupSession string :=
  this <- readStore ;;
  match groupKey this with
  | None => initialize
  | Some _ => ret tt
  end ;;;
  this <- readStore ;;
  match groupKey this with
  | None => throw (PlainError "Failed to initialize group session")
  | Some secret =>
      liftOutcome (decryptMessage (ciphertext message) (iv message) secret)
  end.

Definition decryptMedia (message : Message)
  : Eff GroupSession (string * MediaAttachment) :=
  match media message with
  | None => throw (PlainError "Message does not contain media")
  | Some attachment =>
      this <- readStore ;;
      match groupKey this with
      | None => initialize
      | Some _ => ret tt
      end ;;;
      this <- readStore ;;
      match groupKey this with
      | None => throw (PlainError "Failed to initialize group session")
      | Some secret =>
          text <- liftOutcome
                    (decryptMessage (ciphertext message) (iv message) secret) ;;
          decryptedMediaData <-
            liftOutcome
              (decryptMessage (mediaData attachment) (iv message) secret) ;;
          ret (text, withData attachment decryptedMediaData)
      end
  end.

End WithPlatform.
End GroupChat.

(** ** src/stores/memory *)

Module Stores.
Section WithPlatform.
Context {P : NodePlatform}.

(** A [StoredUser]: the user and the time it was stored. *)
Record StoredUser : Type := {
  storedUser : User;
  createdAt : Z
}.

(** *** userStore.ts *)

Definition InMemoryUserStore : Type := JsMap.t StoredUser.

Definition newUserStore : InMemoryUserStore := [].

Definition userCreate (user : User) : Eff (InMemoryUserStore * world) User :=
  fun st =>
    let '(users, w) := st in
    let '(t, w') := dateNow w in
    let stored := {| storedUser := user; createdAt := t |} in
    (Returned (storedUser stored), (JsMap.set users (userId user) stored, w')).

Definition userFindById (users : InMemoryUserStore) (id : string) : option User :=
  option_map storedUser (JsMap.get users id).

Definition userSave (user : StoredUser) (users : InMemoryUserStore)
  : InMemoryUserStore :=
  JsMap.set users (userId (storedUser user)) user.

Definition userList (users : InMemoryUserStore) : list User :=
  List.map storedUser (JsMap.values users).

(** *** messageStore.ts *)

Definition InMemoryMessageStore : Type := list Message.

Definition messageCreate (m : Message) (messages : InMemoryMessageStore)
  : InMemoryMessageStore :=
  messages ++ [m].

(** [msg.receiverId === userId]: an absent receiver equals no id. *)
Definition sameId (field : option string) (id : string) : bool :=
  match field with
  | Some x => Js.eqb x id
  | None => false
  end.

Definition listByUser (messages : InMemoryMessageStore) (user : string)
  : list Message :=
  List.filter
    (fun msg => Js.eqb (senderId msg) user || sameId (receiverId msg) user)
    messages.

Definition listByGroup (messages : InMemoryMessageStore) (id : string)
  : list Message :=
  List.filter (fun msg => sameId (groupId msg) id) messages.

(** *** groupStore.ts *)

Definition InMemoryGroupStore : Type := JsMap.t Group.

Definition groupCreate (g : Group) (groups : InMemoryGroupStore)
  : InMemoryGroupStore :=
  JsMap.set groups (grpId g) g.

Definition groupFindById (groups : InMemoryGroupStore) (id : string)
  : option Group :=
  JsMap.get groups id.

Definition groupList (groups : InMemoryGroupStore) : list Group :=
  JsMap.values groups.

End WithPlatform.
End Stores.

(** ** src/index.ts: receiving, flushing the queue *)

Module Orchestrator.
Import Chat Queue SDK.
Section WithPlatform.
Context {P : NodePlatform}.

(** What one call of the orchestrator reads from [config.userStore] and
    [config.groupStore]: an adapter answers with a record, with nothing, or
    rejects. *)
Record StoreAdapters : Type := {
  findUserById : string -> outcome (option User);
  findGroupById : string -> outcome (option Group)
}.

(** The adapters of the in-memory stores. *)
Definition inMemoryAdapters (users : Stores.InMemoryUserStore)
  (groups : Stores.InMemoryGroupStore) : StoreAdapters :=
  {| findUserById := fun id => Returned (Stores.userFindById users id);
     findGroupById := fun id => Returned (Stores.groupFindById groups id) |}.

(** An optional string in a condition: absent and empty are falsy. *)
Definition present (field : option string) : option string :=
  match field with
  | Some x => if truthy x then Some x else None
  | None => None
  end.

Local Open Scope eff_scope.

Fixpoint forEach {S A : Type} (items : list A) (body : A -> Eff S unit)
  : Eff S unit :=
  match items with
  | [] => ret tt
  | x :: rest => body x ;;; forEach rest body
  end.

(** The body of the loop of [processMessageQueue]. *)
Definition deliverQueued (port : TransportPort) (queued : QueuedMessage)
  : Eff (ChatSDK * world) unit :=
  tryCatch
    (liftOutcome (portSend port (message queued)) ;;;
     onFst (updateQueue (fun q => markSent q (msgId (message queued)))) ;;;
     onFst (emit (MESSAGE_SENT (message queued))))
    (fun error =>
       clock <- onSnd now ;;
       onFst (updateQueue
                (fun q => markFailed q (msgId (message queued)) error clock)) ;;;
       onFst (emit (MESSAGE_FAILED (message queued) error))).

Definition processMessageQueue (port : TransportPort)
  : Eff (ChatSDK * world) unit :=
  sdk <- onFst readStore ;;
  let pending := getPendingMessages (messageQueue sdk) in
  clock <- onSnd now ;;
  let retryable := getRetryableMessages (messageQueue sdk) clock in
  let toSend := pending ++ retryable in
  forEach toSend (deliverQueued port).

Definition sendMediaMessage (caption : string) (attachment : MediaAttachment)
  : Eff SendStore Message :=
  sdk <- onFst readStore ;;
  match currentUser sdk with
  | None =>
      throw (SessionError "No current user set. Call setCurrentUser() first.")
  | Some user =>
      tryCatch
        (m <- onSnd (Chat.encryptMedia caption attachment (userId user)) ;;
         liftOutcome (messageStoreCreate (config sdk) m) ;;;
         match transport (config sdk) with
         | Some port => handOver port m
         | None => ret tt
         end ;;;
         ret m)
        (fun sendError => onFst (emit (ERROR sendError)) ;;; throw sendError)
  end.

(** The two branches of [decryptMessage], inside its [try]. *)
Definition decryptGroupMessage (stores : StoreAdapters) (message : Message)
  (id : string) : Eff ChatSDK string :=
  found <- liftOutcome (findGroupById stores id) ;;
  match found with
  | None => throw (SessionError ("Group not found: " ++ id))
  | Some g =>
      let session := snd (GroupChat.initialize (GroupChat.newGroupSession g)) in
      liftOutcome (fst (GroupChat.decrypt message session))
  end.

Definition decryptDirectMessage (stores : StoreAdapters) (message : Message)
  (user : User) : Eff ChatSDK string :=
  let otherUserId :=
    if Js.eqb (senderId message) (userId user)
    then receiverId message else Some (senderId message) in
  match present otherUserId with
  | None => throw (SessionError "Invalid message: missing receiver/sender")
  | Some other =>
      found <- liftOutcome (findUserById stores other) ;;
      match found with
      | None => throw (SessionError ("User not found: " ++ other))
      | Some otherUser =>
          let session :=
            newChatSession (pairwiseSessionId user otherUser) user otherUser in
          match initializeForUser user session with
          | (Thrown e, _) => throw e
          | (Returned _, session) =>
              liftOutcome (fst (Chat.decrypt message user session))
          end
      end
  end.

Definition decryptMessage (stores : StoreAdapters) (message : Message)
  (user : User) : Eff ChatSDK string :=
  tryCatch
    (match present (groupId message) with
     | Some id => decryptGroupMessage stores message id
     | None => decryptDirectMessage stores message user
     end)
    (fun decryptError => emit (ERROR decryptError) ;;; throw decryptError).

(** The answer of [getQueueStatus]. *)
Record QueueStatus : Type := {
  statusSize : Z;
  statusPending : nat;
  statusRetryable : nat
}.

Definition getQueueStatus (sdk : ChatSDK) : Eff world QueueStatus :=
  clock <- now ;;
  ret {| statusSize := Queue.size (messageQueue sdk);
         statusPending := List.length (getPendingMessages (messageQueue sdk));
         statusRetryable :=
           List.length (getRetryableMessages (messageQueue sdk) clock) |}.

End WithPlatform.
End Orchestrator.

(** ** src/crypto/uuid.ts: the branch over [crypto.getRandomValues] *)

Module Uuid.

(** The digits of [toString(16)]. *)
Definition hexDigit (n : Z) : Z := nth (Z.to_nat n) "0123456789abcdef" 48.

(** [b.toString(16)] for an element of a [Uint8Array]. *)
Definition toString16 (b : Z) : string :=
  if b <? 16 then [hexDigit b] else [hexDigit (b / 16); hexDigit (b mod 16)].

(** [s.padStart(2, "0")] *)
Definition padStart2 (s : string) : string :=
  match List.length s with
  | 0%nat => "00"
  | 1%nat => "0" ++ s
  | _ => s
  end.

(** [bytes[i] = f(bytes[i])]; a typed array ignores an index out of range. *)
Fixpoint assignAt (i : nat) (f : Z -> Z) (bytes : list Z) : list Z :=
  match bytes, i with
  | [], _ => []
  | b :: rest, O => f b :: rest
  | b :: rest, S j => b :: assignAt j f rest
  end.

(** [hex.slice(a, b)] for [0 <= a <= b]. *)
Definition sliceStr (s : string) (a b : nat) : string :=
  firstn (Nat.min b (List.length s) - a) (skipn a s).

(** [parts.join(separator)] *)
Fixpoint join (separator : string) (parts : list string) : string :=
  match parts with
  | [] => ""
  | [part] => part
  | part :: rest => part ++ separator ++ join separator rest
  end.

(** The identifier made of the sixteen bytes [getRandomValues] filled in. *)
Definition uuidFromRandomValues (bytes : list Z) : string :=
  let bytes := assignAt 6 (fun b => Z.lor (Z.land b 15) 64) bytes in
  let bytes := assignAt 8 (fun b => Z.lor (Z.land b 63) 128) bytes in
  let hex := join "" (List.map (fun b => padStart2 (toString16 b)) bytes) in
  join "-"
    [sliceStr hex 0 8; sliceStr hex 8 12; sliceStr hex 12 16;
     sliceStr hex 16 20; sliceStr hex 20 32].

End Uuid.

(** ** A small platform

    A platform that satisfies every law above, built from elementary
    operations. It shows that the laws are consistent, and it lets the
    definitions of this file run on concrete inputs. *)

Module Small.

Definition byteOfN (n : N) : byte :=
  match Byte.of_N (n mod 256) with
  | Some b => b
  | None => "000"%byte
  end.

Definition xorBits (a b : bool * (bool * (bool * (bool * (bool * (bool * (bool * bool)))))))
  : bool * (bool * (bool * (bool * (bool * (bool * (bool * bool)))))) :=
  let '(a0, (a1, (a2, (a3, (a4, (a5, (a6, a7))))))) := a in
  let '(b0, (b1, (b2, (b3, (b4, (b5, (b6, b7))))))) := b in
  (xorb a0 b0, (xorb a1 b1, (xorb a2 b2, (xorb a3 b3,
   (xorb a4 b4, (xorb a5 b5, (xorb a6 b6, xorb a7 b7))))))).

Definition xorByte (k a : byte) : byte :=
  Byte.of_bits (xorBits (Byte.to_bits k) (Byte.to_bits a)).

(** The one byte the key stream repeats. *)
Definition streamByte (key nonce : Buffer.t) : byte :=
  xorByte (hd "000"%byte key) (hd "000"%byte nonce).

Definition ctr (key nonce data : Buffer.t) : Buffer.t :=
  List.map (xorByte (streamByte key nonce)) data.

Definition tag (key nonce c : Buffer.t) : Buffer.t :=
  firstn 16 (List.map (xorByte (streamByte key nonce)) (rev c)
             ++ key ++ repeat "000"%byte 16).

(** Diffie-Hellman in the additive group of integers modulo 251, with
    generator 7; scalars and points are single bytes. *)
Definition publicOf (x : byte) : byte := byteOfN ((Byte.to_N x * 7) mod 251).

Definition keypair (d q : Buffer.t) : bool :=
  match d, q with
  | [x], [y] => Byte.eqb y (publicOf x)
  | _, _ => false
  end.

Definition computeSecret (d q : Buffer.t) : option Buffer.t :=
  match d, q with
  | [x], [y] => Some [byteOfN ((Byte.to_N x * Byte.to_N y) mod 251)]
  | _, _ => None
  end.

Definition digest (data : Buffer.t) : Buffer.t :=
  firstn 32 (data ++ repeat "000"%byte 32).

Definition stretch (password salt : Buffer.t) (iterations : N) (keylen : nat)
  : Buffer.t :=
  firstn keylen (password ++ salt ++ repeat "000"%byte keylen).

Definition uuidOf (n : nat) : string :=
  (97 + Z.of_nat n mod 26) :: "-0000-4000-8000".

(** Base64 stands for any invertible text form of a buffer: here, one code
    unit per byte. *)
Definition textOf (b : Buffer.t) : string := List.map Buffer.valueOf b.
Definition bytesOf (s : string) : Buffer.t := List.map Buffer.byteOfZ s.

Definition platform : NodePlatform := {|
  world := nat;
  randomBytes := fun n w => (repeat (byteOfN (N.of_nat w)) n, S w);
  randomUUID := fun w => (uuidOf w, S w);
  dateNow := fun w => (1700000000000 + Z.of_nat w, S w);
  base64_encode := textOf;
  base64_decode := bytesOf;
  ecdh_keypair := keypair;
  ecdh_computeSecret := computeSecret;
  sha256 := digest;
  pbkdf2_sha256 := stretch;
  aes256_ctr := ctr;
  gcm_tag := tag
|}.

(** Three identities of the small platform. *)
Definition aliceKeys : KeyPair :=
  {| kpPublicKey := textOf [publicOf "011"%byte];
     kpPrivateKey := textOf ["011"%byte] |}.

Definition bobKeys : KeyPair :=
  {| kpPublicKey := textOf [publicOf "029"%byte];
     kpPrivateKey := textOf ["029"%byte] |}.

Definition carolKeys : KeyPair :=
  {| kpPublicKey := textOf [publicOf "058"%byte];
     kpPrivateKey := textOf ["058"%byte] |}.

Definition userOf (id : string) (kp : KeyPair) : User :=
  {| userId := id; username := id; identityKey := kpPublicKey kp;
     publicKey := kpPublicKey kp; privateKey := kpPrivateKey kp |}.

Definition alice : User := userOf "alice" aliceKeys.
Definition bob : User := userOf "bob" bobKeys.
Definition carol : User := userOf "carol" carolKeys.

(** The session of alice and bob, its key derived. *)
Definition aliceBob : Chat.ChatSession :=
  snd (Chat.initialize (P := platform)
         (Chat.newChatSession "alice-bob" alice bob)).

(** An envelope alice sent to bob in their session. *)
Definition aliceToBob : Message :=
  match Chat.encrypt (P := platform) "hi" "alice" (aliceBob, 0%nat) with
  | (Returned m, _) => m
  | (Thrown _, _) =>
      {| msgId := ""; senderId := ""; receiverId := None; groupId := None;
         ciphertext := ""; iv := ""; timestamp := 0; msgType := TextMessage;
         media := None |}
  end.

(** An envelope with the given id. *)
Definition envelope (id : string) : Message :=
  {| msgId := id; senderId := "alice"; receiverId := Some "bob";
     groupId := None; ciphertext := "Y2lwaGVy"; iv := "bm9uY2U=";
     timestamp := 1700000000000; msgType := TextMessage; media := None |}.

Definition photo : MediaAttachment :=
  {| mediaType := IMAGE;
     mediaData := "cGl4ZWxz";
     mediaMetadata := {| filename := "p.png"; mimeType := "image/png";
                         size := 6; thumbnail := None |} |}.

End Small.

(** ** Vocabulary of the properties

    What the statements below speak of, beyond the code itself. *)

Module CodecTerms.

(** [decryptMessage] on the bytes: the tag is the last 16 bytes, or the
    whole buffer when it is shorter. *)
Definition tagOf (encrypted : Buffer.t) : Buffer.t :=
  skipn (List.length encrypted - 16) encrypted.

Definition bodyOf (encrypted : Buffer.t) : Buffer.t :=
  firstn (List.length encrypted - 16) encrypted.

(** What [createCipheriv] and [createDecipheriv] accept: a 32-byte key
    and a nonce that is not empty. *)
Definition usable (secret nonce : Buffer.t) : bool :=
  Nat.eqb (List.length secret) 32 && negb (Nat.eqb (List.length nonce) 0).

End CodecTerms.

Module KeyTerms.
Import E2E.
Section WithPlatform.
Context {P : NodePlatform}.

(** A well-formed identity: the public key is the point of the private
    scalar, both in their base64 form. *)
Definition validIdentity (kp : KeyPair) : bool :=
  ecdh_keypair (base64ToBuffer (kpPrivateKey kp))
               (base64ToBuffer (kpPublicKey kp)).

(** The salt of [deriveSharedSecret], from the two decoded public keys. *)
Definition saltOf (a b : Buffer.t) : Buffer.t :=
  let '(first, second) := orderedPair a b in
  Buffer.slice
    (NodeCrypto.hashDigest
       (NodeCrypto.hashUpdate
          (NodeCrypto.hashUpdate (NodeCrypto.createHash "sha256") first) second))
    0 (Z.of_nat SALT_LENGTH).

End WithPlatform.
End KeyTerms.

Module SessionTerms.
Import E2E Chat.
Section WithPlatform.
Context {P : NodePlatform}.

(** The key [initializeForUser] derives for [user]: from the key pair of
    [user] and the public key of the other party, which is userA unless
    [user] has userA's id. *)
Definition keyFor (this : ChatSession) (user : User) : outcome Buffer.t :=
  deriveSharedSecret
    {| kpPublicKey := publicKey user; kpPrivateKey := privateKey user |}
    (publicKey (if Js.eqb (userId user) (userId (userA this))
                then userB this else userA this)).

(** One of the two users of the session, by id. *)
Definition participant (this : ChatSession) (user : User) : bool :=
  Js.eqb (userId user) (userId (userA this))
  || Js.eqb (userId user) (userId (userB this)).

(** The session after the guard that opens [decrypt] and [decryptMedia]. *)
Definition afterGuard (this : ChatSession) (user : User) : ChatSession :=
  if needsInitializeFor this user
  then snd (initializeForUser user this) else this.

End WithPlatform.
End SessionTerms.

Module QueueTerms.

(** The invariant of a [Map]: no key twice. *)
Definition mapWf {V : Type} (m : JsMap.t V) : Prop := NoDup (JsMap.keys m).

(** The invariant of a queue: its map is a map. *)
Definition wf (q : Queue.MessageQueue) : Prop := mapWf (Queue.queue q).

End QueueTerms.

Module TransportTerms.
Import Transport.

(** What socket [i] can do while its attempt fails: report an error, or
    let the connect timeout expire. *)
Definition failureNoise (i : nat) (e : Event) : bool :=
  match e with
  | SocketErrored j | ConnectionTimeoutFired j => Nat.eqb i j
  | _ => false
  end.

(** A reconnect attempt on socket [i] that fails: the reconnect timer fires,
    the socket reports errors or the connect timeout expires, in any number
    and order, and the socket closes without having opened. *)
Definition failedAttempt (i : nat) (noise : list Event) : list Event :=
  ReconnectTimerFired :: noise ++ [SocketClosed i].

(** Failed attempts in a row, on the sockets [i], [i + 1], ... that
    [doConnect] creates one after the other. *)
Fixpoint failedAttempts (i : nat) (noises : list (list Event)) : list Event :=
  match noises with
  | [] => []
  | noise :: later => failedAttempt i noise ++ failedAttempts (S i) later
  end.

Fixpoint noisesFrom (i : nat) (noises : list (list Event)) : bool :=
  match noises with
  | [] => true
  | noise :: later => forallb (failureNoise i) noise && noisesFrom (S i) later
  end.

(** A socket that is closed, its connect timeout cleared. *)
Definition settled (s : Socket) : bool :=
  match s with
  | {| readyState := WS_CLOSED; timeoutPending := false |} => true
  | _ => false
  end.

(** A client whose socket [i] has just opened: connected, counter at zero,
    every earlier socket closed. *)
Definition established (i : nat) (c : WebSocketClient) : bool :=
  stateEqb (connectionState c) CONNECTED
  && Nat.eqb (reconnectAttempts c) 0
  && shouldReconnect c
  && urlValid c
  && match ws c with Some j => Nat.eqb i j | None => false end
  && match reconnectTimer c with Some true => false | _ => true end
  && Nat.eqb (S i) (List.length (sockets c))
  && forallb settled (firstn i (sockets c))
  && match socketAt i c with
     | Some {| readyState := WS_OPEN; timeoutPending := false |} => true
     | _ => false
     end.

(** *** The shapes a client takes while reconnecting *)

(** Waiting for the reconnect timer, [n] attempts scheduled so far. *)
Definition Backoff (n : nat) (c : WebSocketClient) : Prop :=
  connectionState c = RECONNECTING /\
  reconnectAttempts c = n /\
  reconnectTimer c = Some true /\
  heartbeatTimer c = false /\
  shouldReconnect c = true /\
  urlValid c = true /\
  forallb settled (sockets c) = true.

(** Attempt [n] under way on socket [i], the last one created; it has not
    closed yet. *)
Definition InFlight (n i : nat) (c : WebSocketClient) : Prop :=
  connectionState c = CONNECTING /\
  reconnectAttempts c = n /\
  reconnectTimer c <> Some true /\
  heartbeatTimer c = false /\
  shouldReconnect c = true /\
  urlValid c = true /\
  ws c = Some i /\
  exists olds s,
    sockets c = olds ++ [s] /\
    List.length olds = i /\
    forallb settled olds = true /\
    readyState s <> WS_CLOSED.

(** Given up: failed, no timer pending, every socket closed. *)
Definition GaveUp (c : WebSocketClient) : Prop :=
  connectionState c = FAILED /\
  reconnectTimer c <> Some true /\
  heartbeatTimer c = false /\
  forallb settled (sockets c) = true.

(** [Backoff] as a test: the client is reconnecting with [n] attempts
    counted, its reconnect timer is pending, no heartbeat runs, reconnection
    is enabled, the URL is well-formed, and every socket created so far is
    closed with its connect timeout cleared. *)
Definition backingOff (n : nat) (c : WebSocketClient) : bool :=
  stateEqb (connectionState c) RECONNECTING
  && Nat.eqb (reconnectAttempts c) n
  && match reconnectTimer c with Some true => true | _ => false end
  && negb (heartbeatTimer c)
  && shouldReconnect c
  && urlValid c
  && forallb settled (sockets c).

End TransportTerms.

(** ** Vocabulary of the further properties *)

Module IdentityTerms.

(** The key pair a [User] record carries. *)
Definition identityOf (u : User) : KeyPair :=
  {| kpPublicKey := publicKey u; kpPrivateKey := privateKey u |}.

End IdentityTerms.

Module GroupTerms.
Import GroupCrypto.
Section WithPlatform.
Context {P : NodePlatform}.

(** The key a [GroupSession] works with: the derived key, through its
    base64 form. *)
Definition keyOf (id : string) : Buffer.t :=
  base64ToBuffer (key (deriveGroupKey id)).

(** The session once its key is there. *)
Definition ready (g : Group) : GroupChat.GroupSession :=
  {| GroupChat.group := g; GroupChat.groupKey := Some (keyOf (grpId g)) |}.

End WithPlatform.
End GroupTerms.

Module QueueOps.
Import Queue.

(** The calls that change a queue. *)
Inductive QueueOp : Type :=
| Enqueue (m : Message)
| MarkSent (id : string)
| MarkFailed (id : string) (err : fault) (clock : Z)
| Remove (id : string)
| Clear.

Definition apply (q : MessageQueue) (op : QueueOp) : MessageQueue :=
  match op with
  | Enqueue m => enqueue q m
  | MarkSent id => markSent q id
  | MarkFailed id err clock => markFailed q id err clock
  | Remove id => remove q id
  | Clear => clear q
  end.

Definition applyAll (q : MessageQueue) (ops : list QueueOp) : MessageQueue :=
  fold_left apply ops q.

(** Every envelope that is enqueued has an id that is not empty. *)
Definition enqueuesNamed (op : QueueOp) : bool :=
  match op with
  | Enqueue m => truthy (msgId m)
  | _ => true
  end.

(** Every entry sits under the id of its envelope, as [enqueue] files it. *)
Definition keyed (q : MessageQueue) : Prop :=
  Forall (fun kv => msgId (message (snd kv)) = fst kv) (queue q).

(** What the operations keep: capacity, distinct keys, ids that are not
    empty. *)
Definition bounded (cap : Z) (q : MessageQueue) : Prop :=
  QueueTerms.wf q /\ maxSize q = cap /\ size q <= cap /\
  Forall (fun k => truthy k = true) (JsMap.keys (queue q)).

End QueueOps.

Module FlushTerms.
Import Queue.

(** The test of [getRetryableMessages]. *)
Definition retryable (q : MessageQueue) (clock : Z) (queued : QueuedMessage)
  : bool :=
  statusEqb (status queued) FAILED
  && (Z.of_nat (attempts queued) <? maxRetries q)
  && retryDue q queued clock.

(** What one pass of [processMessageQueue] picks up: the pending entries
    and the failed ones whose retry is due. *)
Definition due (q : MessageQueue) (clock : Z) (queued : QueuedMessage) : bool :=
  statusEqb (status queued) PENDING || retryable q clock queued.

(** The entries of a pass, in the order it sends them. *)
Definition toSend (q : MessageQueue) (clock : Z) : list QueuedMessage :=
  getPendingMessages q ++ getRetryableMessages q clock.

Definition idOf (queued : QueuedMessage) : string := msgId (message queued).

(** The orchestrator after a pass that sent [sent]: each is marked sent
    and announced. *)
Definition withSent (sdk : SDK.ChatSDK) (sent : list QueuedMessage) : SDK.ChatSDK :=
  {| SDK.config := SDK.config sdk;
     SDK.currentUser := SDK.currentUser sdk;
     SDK.messageQueue :=
       fold_left (fun q queued => markSent q (idOf queued)) sent
                 (SDK.messageQueue sdk);
     SDK.emitted :=
       SDK.emitted sdk
       ++ List.map (fun queued => SDK.MESSAGE_SENT (message queued)) sent |}.

End FlushTerms.

Module TraceTerms.
Import Transport.

Definition isErrorReport (o : Output) : bool :=
  match o with ErrorReported _ => true | _ => false end.

Definition isCallConnect (e : Event) : bool :=
  match e with CallConnect _ => true | _ => false end.

(** [disconnect()] and [reconnect()], the calls that take a client out of
    whatever it is doing. *)
Definition isManualReset (e : Event) : bool :=
  match e with CallDisconnect | CallReconnect => true | _ => false end.

(** A socket that is closing or closed: it will not open and delivers
    nothing any more. *)
Definition dying (s : Socket) : bool :=
  match readyState s with
  | WS_CLOSING | WS_CLOSED => true
  | _ => false
  end.

(** Every socket from number [i] on is dying, the current one excepted. *)
Fixpoint othersDying (current : option nat) (i : nat) (l : list Socket) : bool :=
  match l with
  | [] => true
  | s :: rest =>
      (match current with Some j => Nat.eqb i j | None => false end || dying s)
      && othersDying current (S i) rest
  end.

(** The client holds no live socket besides the one in [ws]. *)
Definition onlyCurrentAlive (c : WebSocketClient) : bool :=
  othersDying (ws c) 0 (sockets c).

(** A client that was disconnected by hand. *)
Definition Dormant (c : WebSocketClient) : Prop :=
  connectionState c = DISCONNECTED /\
  ws c = None /\
  shouldReconnect c = false /\
  reconnectTimer c = None /\
  heartbeatTimer c = false /\
  forallb dying (sockets c) = true.

(** The trace of [c'] is the trace of [c] followed by outputs that pass
    [ok]. *)
Definition extendsBy (ok : Output -> bool) (c c' : WebSocketClient) : Prop :=
  exists l, outputs c' = outputs c ++ l /\ forallb ok l = true.

(** A scheduled reconnect numbered 1 to 5 whose delay, before the jitter,
    is the base delay doubled for every earlier attempt. *)
Definition wellTimed (o : Output) : bool :=
  match o with
  | ReconnectScheduled attempt delay =>
      (1 <=? attempt)%nat && (attempt <=? RECONNECT_MAX_ATTEMPTS)%nat
      && (delay =? RECONNECT_BASE_DELAY * 2 ^ (Z.of_nat attempt - 1))
  | _ => true
  end.

(** A client whose URL is malformed and that has never had a socket. *)
Definition Socketless (c : WebSocketClient) : Prop :=
  sockets c = [] /\
  urlValid c = false /\
  ws c = None /\
  reconnectTimer c = None /\
  heartbeatTimer c = false /\
  (connectionState c = DISCONNECTED \/ connectionState c = CONNECTING) /\
  scheduledReconnects c = 0%nat.

End TraceTerms.

Module UuidTerms.

Definition isHexDigit (c : Z) : bool := existsb (Z.eqb c) "0123456789abcdef".

(** What stands at one position of a version-4 identifier. *)
Inductive Slot : Type := Hex | Dash | Version4 | Variant.

Definition fits (slot : Slot) (c : Z) : bool :=
  match slot with
  | Hex => isHexDigit c
  | Dash => Js.eqb [c] "-"
  | Version4 => Js.eqb [c] "4"
  | Variant => existsb (Z.eqb c) "89ab"
  end.

Fixpoint matches (pattern : list Slot) (s : string) : bool :=
  match pattern, s with
  | [], [] => true
  | slot :: pattern', c :: s' => fits slot c && matches pattern' s'
  | _, _ => false
  end.

(** [xxxxxxxx-xxxx-4xxx-yxxx-xxxxxxxxxxxx], [y] one of 8, 9, a, b. *)
Definition uuidV4 : list Slot :=
  repeat Hex 8 ++ [Dash] ++ repeat Hex 4 ++ [Dash]
  ++ [Version4] ++ repeat Hex 3 ++ [Dash]
  ++ [Variant] ++ repeat Hex 3 ++ [Dash] ++ repeat Hex 12.

(** An element of a [Uint8Array]. *)
Definition isByte (b : Z) : bool := (0 <=? b) && (b <? 256).

(** The checks on one byte that the format rests on: its two digits, and
    the digits of the version and variant bytes made of it. *)
Definition twoDigits (s : string) (first : Z -> bool) : bool :=
  match s with
  | [h; l] => first h && isHexDigit l
  | _ => false
  end.

Definition byteChecks (b : Z) : bool :=
  twoDigits (Uuid.padStart2 (Uuid.toString16 b)) isHexDigit
  && twoDigits (Uuid.padStart2 (Uuid.toString16 (Z.lor (Z.land b 15) 64))) (fits Version4)
  && twoDigits (Uuid.padStart2 (Uuid.toString16 (Z.lor (Z.land b 63) 128))) (fits Variant).

End UuidTerms.

Module Examples.
Import SDK.

Definition team : Group :=
  {| grpId := "g1"; grpName := "team";
     grpMembers := [Small.alice; Small.bob]; grpCreatedAt := 1700000000000 |}.

(** A transport that is offline, and one that delivers. *)
Definition offlinePort : TransportPort :=
  {| portIsConnected := false;
     portSend := fun _ => Thrown (NetworkError "WebSocket not connected") |}.

Definition deliveringPort : TransportPort :=
  {| portIsConnected := true; portSend := fun _ => Returned tt |}.

(** The orchestrator of alice, offline, nothing queued. *)
Definition aliceOffline : ChatSDK :=
  {| config := {| messageStoreCreate := fun _ => Returned tt;
                  transport := Some offlinePort |};
     currentUser := Some Small.alice;
     messageQueue := Queue.defaultMessageQueue;
     emitted := [] |}.

(** The orchestrator of bob, and the user store it reads, in which alice
    and bob were created. *)
Definition bobSdk : ChatSDK :=
  {| config := {| messageStoreCreate := fun _ => Returned tt;
                  transport := None |};
     currentUser := Some Small.bob;
     messageQueue := Queue.defaultMessageQueue;
     emitted := [] |}.

Definition directory : Stores.InMemoryUserStore :=
  fst (snd (Stores.userCreate (P := Small.platform) Small.bob
              (snd (Stores.userCreate (P := Small.platform) Small.alice
                      (Stores.newUserStore, 0%nat))))).

(** A 32-byte key, a 12-byte nonce, and the text "hi" sealed under them on
    the small platform. *)
Definition demoKey : Buffer.t := repeat "001"%byte 32.
Definition demoNonce : Buffer.t := repeat "002"%byte 12.



(** The session of alice and bob under that key, and an envelope whose
    caption and media payload are both sealed under that nonce. *)
Definition aliceBobDemo : Chat.ChatSession :=
  Chat.setSharedSecret
    (Chat.newChatSession "alice-bob" Small.alice Small.bob) demoKey.

Definition sealedLook : E2E.Encrypted :=
  match E2E.encryptWithNonce (P := Small.platform) demoNonce "look" demoKey with
  | Returned enc => enc
  | Thrown _ => {| E2E.encCiphertext := ""; E2E.encIv := "" |}
  end.

Definition sealedPhoto : E2E.Encrypted :=
  match E2E.encryptWithNonce (P := Small.platform) demoNonce
          (mediaData Small.photo) demoKey with
  | Returned enc => enc
  | Thrown _ => {| E2E.encCiphertext := ""; E2E.encIv := "" |}
  end.

Definition sealedTwice : Message :=
  {| msgId := "m-1"; senderId := "alice"; receiverId := Some "bob";
     groupId := None;
     ciphertext := E2E.encCiphertext sealedLook; iv := E2E.encIv sealedLook;
     timestamp := 1700000000000; msgType := MediaMessage;
     media := Some (withData Small.photo (E2E.encCiphertext sealedPhoto)) |}.

(** The orchestrator of alice with no transport. *)
Definition aliceLocal : SDK.ChatSDK :=
  {| SDK.config := {| SDK.messageStoreCreate := fun _ => Returned tt;
                      SDK.transport := None |};
     SDK.currentUser := Some Small.alice;
     SDK.messageQueue := Queue.defaultMessageQueue;
     SDK.emitted := [] |}.

End Examples.

(** * Properties *)

Unset Implicit Arguments.

(** ** Strings and their UTF-8 form *)

Module JsFacts.
Import Js.

Lemma string_eqb_eq a : forall b, eqb a b = true <-> a = b.
Proof.
  induction a as [|x a IH]; intros [|y b]; cbn [eqb]; split;
    try discriminate; try reflexivity.
  - intros H. apply andb_true_iff in H as [Hx Hab].
    apply Z.eqb_eq in Hx. apply IH in Hab. now subst.
  - intros H. injection H as -> ->. rewrite Z.eqb_refl. now apply IH.
Qed.

Lemma string_eqb_refl a : eqb a a = true.
Proof. now apply string_eqb_eq. Qed.

Lemma string_eqb_neq a b : eqb a b = false <-> a <> b.
Proof.
  split.
  - intros H E. apply string_eqb_eq in E. congruence.
  - intros H. destruct (eqb a b) eqn:E; [|reflexivity].
    apply string_eqb_eq in E. contradiction.
Qed.

Lemma string_eqb_sym a b : eqb a b = eqb b a.
Proof.
  destruct (eqb a b) eqn:E.
  - apply string_eqb_eq in E. subst. symmetry. apply string_eqb_refl.
  - apply string_eqb_neq in E. symmetry. apply string_eqb_neq. congruence.
Qed.

Lemma string_compare_eq_iff a : forall b, compare a b = Eq <-> a = b.
Proof.
  induction a as [|x a IH]; intros [|y b]; cbn [compare]; split;
    try discriminate; try reflexivity.
  - destruct (Z.compare_spec x y) as [Hxy|Hxy|Hxy]; try discriminate.
    intros H. apply IH in H. now subst.
  - intros H. injection H as -> ->. rewrite Z.compare_refl. now apply IH.
Qed.

Lemma string_compare_antisym a : forall b, compare a b = CompOpp (compare b a).
Proof.
  induction a as [|x a IH]; intros [|y b]; cbn [compare]; try reflexivity.
  rewrite (Z.compare_antisym y x).
  destruct (y ?= x); cbn [CompOpp]; auto.
Qed.

Lemma truthy_nonempty (s : string) : truthy s = true <-> s <> "".
Proof. unfold truthy. rewrite negb_true_iff. apply string_eqb_neq. Qed.

Lemma isUnit_range u : isUnit u = true <-> 0 <= u < 65536.
Proof. unfold isUnit. rewrite andb_true_iff. lia. Qed.

Lemma isSurrogate_range cp : isSurrogate cp = true <-> 0xD800 <= cp <= 0xDFFF.
Proof. unfold isSurrogate. rewrite andb_true_iff. lia. Qed.

(** Induction over a string by the steps of [codePoints]. *)
Lemma codePoints_ind (Q : string -> Prop) :
  Q [] ->
  (forall u, Q [u]) ->
  (forall u l rest,
      isHighSurrogate u && isLowSurrogate l = true -> Q rest -> Q (u :: l :: rest)) ->
  (forall u l rest,
      isHighSurrogate u && isLowSurrogate l = false -> Q (l :: rest) ->
      Q (u :: l :: rest)) ->
  forall s, Q s.
Proof.
  intros Hnil Hone Hpair Hsingle.
  assert (H : forall n s, (List.length s <= n)%nat -> Q s).
  { induction n as [|n IH]; intros s Hlen.
    - destruct s; [exact Hnil|cbn in Hlen; lia].
    - destruct s as [|u [|l rest]]; [exact Hnil|apply Hone|].
      cbn [List.length] in Hlen.
      destruct (isHighSurrogate u && isLowSurrogate l) eqn:E.
      + apply Hpair; [exact E|]. apply IH. lia.
      + apply Hsingle; [exact E|]. apply IH. cbn [List.length]. lia. }
  intros s. now apply (H (List.length s)).
Qed.

Lemma isScalarValue_range cp :
  isScalarValue cp = true <-> 0 <= cp <= 0x10FFFF /\ ~ (0xD800 <= cp <= 0xDFFF).
Proof.
  unfold isScalarValue, isSurrogate.
  rewrite !andb_true_iff, negb_true_iff, andb_false_iff. lia.
Qed.

Lemma scalar_isScalarValue cp :
  0 <= cp <= 0x10FFFF -> isScalarValue (scalar cp) = true.
Proof.
  intros H. apply isScalarValue_range. unfold scalar.
  destruct (isSurrogate cp) eqn:E.
  - lia.
  - split; [exact H|]. intros H'. apply isSurrogate_range in H'. congruence.
Qed.

Lemma codePoints_range s :
  valid s = true -> Forall (fun cp => 0 <= cp <= 0x10FFFF) (codePoints s).
Proof.
  unfold valid. pattern s. apply codePoints_ind; clear s.
  - constructor.
  - intros u H. cbn in H. rewrite andb_true_r in H. apply isUnit_range in H.
    cbn. constructor; [lia|constructor].
  - intros u l rest E IH H. cbn [forallb] in H.
    apply andb_true_iff in H as [Hu H]. apply andb_true_iff in H as [Hl H].
    cbn [codePoints]. rewrite E. constructor; [|now apply IH].
    apply andb_true_iff in E as [E1 E2].
    unfold isHighSurrogate in E1. unfold isLowSurrogate in E2. lia.
  - intros u l rest E IH H. cbn [forallb] in H.
    apply andb_true_iff in H as [Hu H].
    change (codePoints (u :: l :: rest))
      with (if isHighSurrogate u && isLowSurrogate l
            then (0x10000 + (u - 0xD800) * 0x400 + (l - 0xDC00)) :: codePoints rest
            else u :: codePoints (l :: rest)).
    rewrite E. apply isUnit_range in Hu. constructor; [lia|]. now apply IH.
Qed.

(** The valid of the code points of a string are the string. *)
Lemma utf16_codePoints s :
  valid s = true -> flat_map utf16 (codePoints s) = s.
Proof.
  unfold valid. pattern s. apply codePoints_ind; clear s.
  - reflexivity.
  - intros u H. cbn in H. rewrite andb_true_r in H. apply isUnit_range in H.
    cbn. unfold utf16. destruct (Z.ltb_spec u 0x10000); [reflexivity|lia].
  - intros u l rest E IH H. cbn [forallb] in H.
    apply andb_true_iff in H as [Hu H]. apply andb_true_iff in H as [Hl H].
    cbn [codePoints]. rewrite E. cbn [flat_map]. rewrite (IH H).
    apply andb_true_iff in E as [E1 E2].
    unfold isHighSurrogate in E1. unfold isLowSurrogate in E2.
    unfold utf16.
    destruct (Z.ltb_spec (0x10000 + (u - 0xD800) * 0x400 + (l - 0xDC00)) 0x10000);
      [lia|].
    cbn [app]. f_equal; [|f_equal]; Z.div_mod_to_equations; lia.
  - intros u l rest E IH H. cbn [forallb] in H.
    apply andb_true_iff in H as [Hu H].
    change (codePoints (u :: l :: rest))
      with (if isHighSurrogate u && isLowSurrogate l
            then (0x10000 + (u - 0xD800) * 0x400 + (l - 0xDC00)) :: codePoints rest
            else u :: codePoints (l :: rest)).
    rewrite E. cbn [flat_map]. rewrite (IH H).
    apply isUnit_range in Hu. unfold utf16.
    destruct (Z.ltb_spec u 0x10000); [reflexivity|lia].
Qed.

(** A well-formed string is its own well-formed form. *)
Lemma toWellFormed_id s :
  valid s = true -> isWellFormed s = true -> toWellFormed s = s.
Proof.
  intros Hu Hw. unfold toWellFormed, isWellFormed in *.
  rewrite <- (utf16_codePoints s Hu) at 2.
  induction (codePoints s) as [|cp cps IH]; [reflexivity|].
  cbn [forallb] in Hw. apply andb_true_iff in Hw as [Hcp Hw].
  cbn [flat_map]. rewrite (IH Hw). unfold scalar.
  apply negb_true_iff in Hcp. now rewrite Hcp.
Qed.

End JsFacts.

Module Utf8Facts.
Import Js Utf8 JsFacts.

Ltac decide_tests :=
  repeat match goal with
         | |- context [?a <=? ?b] =>
             destruct (Z.leb_spec a b); try (exfalso; Z.div_mod_to_equations; lia)
         | |- context [?a <? ?b] =>
             destruct (Z.ltb_spec a b); try (exfalso; Z.div_mod_to_equations; lia)
         | |- context [?a =? ?b] =>
             destruct (Z.eqb_spec a b); try (exfalso; Z.div_mod_to_equations; lia)
         end;
  cbn [andb orb negb].

Lemma bytesOf_range cp :
  isScalarValue cp = true -> Forall (fun b => 0 <= b < 256) (bytesOf cp).
Proof.
  intros H. apply isScalarValue_range in H as [Hr Hs]. unfold bytesOf.
  destruct (Z.ltb_spec cp 0x80); [|destruct (Z.ltb_spec cp 0x800);
    [|destruct (Z.ltb_spec cp 0x10000)]];
    repeat constructor; Z.div_mod_to_equations; lia.
Qed.

(** The decoder reads the bytes of a scalar value back as that value. *)
Lemma decodeFrom_bytesOf cp rest :
  isScalarValue cp = true ->
  decodeFrom Idle (bytesOf cp ++ rest) = cp :: decodeFrom Idle rest.
Proof.
  intros H. apply isScalarValue_range in H as [Hr Hs]. unfold bytesOf.
  destruct (Z.ltb_spec cp 0x80); [|destruct (Z.ltb_spec cp 0x800);
    [|destruct (Z.ltb_spec cp 0x10000)]].
  - cbn [app decodeFrom step]. unfold start.
    destruct (Z.leb_spec cp 0x7F); [reflexivity|lia].
  - cbn [app decodeFrom step]. unfold start. decide_tests.
    cbn [app decodeFrom step]. decide_tests.
    cbn [app]. f_equal. Z.div_mod_to_equations; lia.
  - cbn [app decodeFrom step]. unfold start. decide_tests;
      cbn [app decodeFrom step]; decide_tests;
      cbn [app decodeFrom step]; decide_tests;
      cbn [app]; f_equal; Z.div_mod_to_equations; lia.
  - cbn [app decodeFrom step]. unfold start. decide_tests;
      cbn [app decodeFrom step]; decide_tests;
      cbn [app decodeFrom step]; decide_tests;
      cbn [app decodeFrom step]; decide_tests;
      cbn [app]; f_equal; Z.div_mod_to_equations; lia.
Qed.

Lemma decodeFrom_scalars cps :
  Forall (fun cp => isScalarValue cp = true) cps -> decodeFrom Idle (flat_map bytesOf cps) = cps.
Proof.
  induction 1 as [|cp cps Hcp _ IH]; [reflexivity|].
  cbn [flat_map]. rewrite decodeFrom_bytesOf by exact Hcp. now rewrite IH.
Qed.

Lemma encode_range s :
  valid s = true -> Forall (fun b => 0 <= b < 256) (encode s).
Proof.
  intros Hu. unfold encode. pose proof (codePoints_range s Hu) as Hr.
  induction Hr as [|cp cps Hcp _ IH]; [constructor|].
  cbn [flat_map]. apply Forall_app. split; [|exact IH].
  apply bytesOf_range. now apply scalar_isScalarValue.
Qed.

Lemma flat_map_map {A B C : Type} (f : A -> B) (g : B -> list C) (l : list A) :
  flat_map g (map f l) = flat_map (fun x => g (f x)) l.
Proof. induction l as [|x l IH]; cbn; [reflexivity|now rewrite IH]. Qed.

(** Decoding what was encoded gives the well-formed form of the string. *)
Lemma decode_encode s : valid s = true -> decode (encode s) = toWellFormed s.
Proof.
  intros Hu. unfold decode, encode, toWellFormed.
  rewrite <- (flat_map_map scalar bytesOf), decodeFrom_scalars.
  - apply flat_map_map.
  - pose proof (codePoints_range s Hu) as Hr.
    induction Hr as [|cp cps Hcp _ IH]; constructor; [|exact IH].
    now apply scalar_isScalarValue.
Qed.

(** A surrogate on its own comes back as U+FFFD. *)
Lemma decode_encode_lone_surrogate : decode (encode [0xD800]) = [0xFFFD].
Proof. reflexivity. Qed.

End Utf8Facts.

(** ** Buffers *)

Module BufferFacts.

Lemma eqb_refl (b : Buffer.t) : Buffer.eqb b b = true.
Proof.
  induction b as [|x b IH]; simpl; [reflexivity|].
  rewrite IH, andb_true_r. apply Byte.byte_dec_lb. reflexivity.
Qed.

Lemma eqb_eq (a b : Buffer.t) : Buffer.eqb a b = true <-> a = b.
Proof.
  split; [|intros ->; apply eqb_refl].
  revert b; induction a as [|x a IH]; intros [|y b]; simpl; try discriminate; auto.
  intros H. apply andb_true_iff in H as [Hxy Hab].
  apply Byte.byte_dec_bl in Hxy. f_equal; auto.
Qed.

(** The last [n] bytes and what precedes them. *)
Lemma sliceFrom_neg (b : Buffer.t) (n : nat) :
  (0 < n)%nat ->
  Buffer.sliceFrom b (- Z.of_nat n) = skipn (List.length b - n) b.
Proof.
  intros Hn. unfold Buffer.sliceFrom, Buffer.slice, Buffer.clampIndex.
  set (len := List.length b).
  destruct (Z.ltb_spec (- Z.of_nat n) 0); [|lia].
  destruct (Z.ltb_spec (Z.of_nat len) 0); [lia|].
  replace (Z.to_nat (Z.max (Z.of_nat len + - Z.of_nat n) 0)) with (len - n)%nat by lia.
  rewrite Z.min_id.
  apply firstn_all2. rewrite length_skipn. fold len. lia.
Qed.

Lemma slice_0_neg (b : Buffer.t) (n : nat) :
  (0 < n)%nat ->
  Buffer.slice b 0 (- Z.of_nat n) = firstn (List.length b - n) b.
Proof.
  intros Hn. unfold Buffer.slice, Buffer.clampIndex.
  set (len := List.length b).
  destruct (Z.ltb_spec (- Z.of_nat n) 0); [|lia].
  change (0 <? 0) with false. cbv iota.
  rewrite Z.min_l by lia. change (Z.to_nat 0) with 0%nat. simpl skipn.
  f_equal. lia.
Qed.

Lemma compare_eq (a b : Buffer.t) : Buffer.compare a b = 0 -> a = b.
Proof.
  revert b; induction a as [|x a IH]; intros [|y b]; simpl; try discriminate; auto.
  destruct (N.compare_spec (Byte.to_N x) (Byte.to_N y)) as [E|L|G];
    try discriminate.
  intros H. f_equal; [|auto].
  apply (f_equal Byte.of_N) in E. rewrite !Byte.of_to_N in E. congruence.
Qed.

Lemma compare_antisym (a b : Buffer.t) :
  Buffer.compare b a = - Buffer.compare a b.
Proof.
  revert b; induction a as [|x a IH]; intros [|y b]; simpl; try reflexivity.
  rewrite (N.compare_antisym (Byte.to_N x) (Byte.to_N y)).
  destruct (N.compare (Byte.to_N x) (Byte.to_N y)); simpl; auto.
Qed.

Lemma byteOfZ_valueOf (b : byte) : Buffer.byteOfZ (Buffer.valueOf b) = b.
Proof.
  unfold Buffer.byteOfZ, Buffer.valueOf.
  pose proof (Byte.to_N_bounded b) as Hb.
  rewrite Z.mod_small by lia. rewrite N2Z.id, Byte.of_to_N. reflexivity.
Qed.

Lemma valueOf_byteOfZ (z : Z) : 0 <= z < 256 -> Buffer.valueOf (Buffer.byteOfZ z) = z.
Proof.
  intros Hz. unfold Buffer.byteOfZ, Buffer.valueOf. rewrite Z.mod_small by lia.
  destruct (Byte.of_N (Z.to_N z)) as [b|] eqn:E.
  - apply Byte.to_of_N in E. rewrite E. lia.
  - apply Byte.of_N_None_iff in E. lia.
Qed.

(** A text turned into bytes and back is its well-formed form: each
    surrogate that stands outside a pair has become U+FFFD. *)
Lemma toUtf8_fromUtf8 (s : string) :
  Js.valid s = true -> Buffer.toUtf8 (Buffer.fromUtf8 s) = Js.toWellFormed s.
Proof.
  intros Hs. unfold Buffer.toUtf8, Buffer.fromUtf8. rewrite map_map.
  rewrite (map_ext_Forall _ (fun z => z)).
  - rewrite map_id. now apply Utf8Facts.decode_encode.
  - eapply Forall_impl; [|apply (Utf8Facts.encode_range s Hs)].
    intros z Hz. now apply valueOf_byteOfZ.
Qed.

(** A well-formed text comes back as it was. *)
Lemma toUtf8_fromUtf8_wellFormed (s : string) :
  Js.valid s = true -> Js.isWellFormed s = true ->
  Buffer.toUtf8 (Buffer.fromUtf8 s) = s.
Proof.
  intros Hs Hw. rewrite toUtf8_fromUtf8 by exact Hs.
  now apply JsFacts.toWellFormed_id.
Qed.

End BufferFacts.

(** ** The small platform satisfies the laws *)

Module SmallFacts.
Import Small.

Lemma xorBits_involutive k a : xorBits k (xorBits k a) = a.
Proof.
  destruct k as (k0 & k1 & k2 & k3 & k4 & k5 & k6 & k7).
  destruct a as (a0 & a1 & a2 & a3 & a4 & a5 & a6 & a7).
  unfold xorBits.
  repeat rewrite <- xorb_assoc. repeat rewrite xorb_nilpotent.
  repeat rewrite xorb_false_l. reflexivity.
Qed.

Lemma xorByte_involutive k a : xorByte k (xorByte k a) = a.
Proof.
  unfold xorByte. rewrite Byte.to_bits_of_bits, xorBits_involutive.
  apply Byte.of_bits_to_bits.
Qed.

Lemma to_N_byteOfN n : Byte.to_N (byteOfN n) = (n mod 256)%N.
Proof.
  unfold byteOfN. destruct (Byte.of_N (n mod 256)) as [b|] eqn:E.
  - apply Byte.to_of_N. exact E.
  - apply Byte.of_N_None_iff in E.
    pose proof (N.mod_upper_bound n 256). lia.
Qed.

Lemma to_N_publicOf x : Byte.to_N (publicOf x) = ((Byte.to_N x * 7) mod 251)%N.
Proof.
  unfold publicOf. rewrite to_N_byteOfN. apply N.mod_small.
  pose proof (N.mod_upper_bound (Byte.to_N x * 7) 251). lia.
Qed.

Lemma base64 : Base64Laws platform.
Proof.
  constructor. intros b. cbn. unfold bytesOf, textOf. rewrite map_map.
  rewrite <- (map_id b) at 2. apply map_ext. apply BufferFacts.byteOfZ_valueOf.
Qed.

Lemma gcm : GcmLaws platform.
Proof.
  constructor; simpl.
  - intros k iv x. unfold ctr. rewrite map_map.
    rewrite <- (map_id x) at 2. apply map_ext. intros a. apply xorByte_involutive.
  - intros k iv x. apply length_map.
  - intros k iv c. unfold tag. rewrite length_firstn, !length_app, repeat_length. lia.
Qed.

Lemma entropy : EntropyLaws platform.
Proof. constructor. intros n w. simpl. apply repeat_length. Qed.

Lemma kdf : KdfLaws platform.
Proof.
  constructor. intros pw salt it n. simpl. unfold stretch.
  rewrite length_firstn, !length_app, repeat_length. lia.
Qed.

Lemma ecdh : EcdhLaws platform.
Proof.
  constructor; simpl; intros a A b B HA HB;
    destruct a as [|x [|? ?]]; destruct A as [|X [|? ?]]; try discriminate;
    destruct b as [|y [|? ?]]; destruct B as [|Y [|? ?]]; try discriminate;
    simpl in *; try discriminate.
  apply Byte.byte_dec_bl in HA, HB. subst X Y.
  rewrite !to_N_publicOf. do 3 f_equal.
  rewrite !N.Div0.mul_mod_idemp_r. f_equal. lia.
Qed.

End SmallFacts.

(** ** Authenticated encryption: [encryptMessage] and [decryptMessage] *)

Module CodecFacts.
Import NodeCrypto E2E CodecTerms.
Section WithPlatform.
Context {P : NodePlatform}.

Lemma encryptWithNonce_eq nonce plaintext secret :
  usable secret nonce = true ->
  encryptWithNonce nonce plaintext secret =
  Returned
    {| encCiphertext :=
         bufferToBase64
           (aes256_ctr secret nonce (Buffer.fromUtf8 plaintext)
            ++ gcm_tag secret nonce
                 (aes256_ctr secret nonce (Buffer.fromUtf8 plaintext)));
       encIv := bufferToBase64 nonce |}.
Proof.
  intros H. apply andb_true_iff in H as [Hk Hn].
  unfold encryptWithNonce, createCipheriv, ALGORITHM.
  simpl Js.eqb. cbv iota. simpl negb at 1. cbv iota.
  rewrite Hk. simpl negb. cbv iota.
  apply negb_true_iff in Hn. rewrite Hn.
  unfold cipherUpdate, getAuthTag, cipherFinal, Buffer.concat. simpl.
  rewrite !app_nil_r. reflexivity.
Qed.

Lemma decryptMessage_eq c nonce secret :
  usable secret (base64ToBuffer nonce) = true ->
  decryptMessage c nonce secret =
  let encrypted := base64ToBuffer c in
  let t := tagOf encrypted in
  let body := bodyOf encrypted in
  if isValidGcmTagLength (List.length t) then
    if Buffer.eqb t (firstn (List.length t)
                            (gcm_tag secret (base64ToBuffer nonce) body))
    then Returned (Buffer.toUtf8 (aes256_ctr secret (base64ToBuffer nonce) body))
    else Thrown (CryptoError "Unsupported state or unable to authenticate data")
  else Thrown (CryptoError "Invalid authentication tag length").
Proof.
  intros H. apply andb_true_iff in H as [Hk Hn].
  unfold decryptMessage, createDecipheriv, ALGORITHM, TAG_LENGTH.
  simpl Js.eqb. cbv iota. simpl negb at 1. cbv iota.
  rewrite Hk. simpl negb. cbv iota.
  apply negb_true_iff in Hn. rewrite Hn.
  rewrite BufferFacts.sliceFrom_neg, BufferFacts.slice_0_neg by lia.
  cbv zeta. fold (tagOf (base64ToBuffer c)). fold (bodyOf (base64ToBuffer c)).
  unfold setAuthTag.
  destruct (isValidGcmTagLength (List.length (tagOf (base64ToBuffer c)))); [|reflexivity].
  unfold decipherUpdate, decipherFinal. simpl.
  destruct (Buffer.eqb _ _); [|reflexivity].
  unfold Buffer.concat. simpl. rewrite !app_nil_r. reflexivity.
Qed.

End WithPlatform.
End CodecFacts.

Module CodecProps.
Import NodeCrypto E2E CodecTerms CodecFacts.
Section WithPlatform.
Context {P : NodePlatform} {HB : Base64Laws P} {HG : GcmLaws P}.

Lemma tagOf_app (c t : Buffer.t) :
  List.length t = 16%nat -> tagOf (c ++ t) = t.
Proof.
  intros Ht. unfold tagOf. rewrite length_app, Ht.
  replace (List.length c + 16 - 16)%nat with (List.length c + 0)%nat by lia.
  rewrite skipn_app, Nat.add_0_r, skipn_all, Nat.sub_diag. reflexivity.
Qed.

Lemma bodyOf_app (c t : Buffer.t) :
  List.length t = 16%nat -> bodyOf (c ++ t) = c.
Proof.
  intros Ht. unfold bodyOf. rewrite length_app, Ht.
  replace (List.length c + 16 - 16)%nat with (List.length c + 0)%nat by lia.
  rewrite firstn_app_2. simpl. apply app_nil_r.
Qed.

Lemma body_tag (b : Buffer.t) : bodyOf b ++ tagOf b = b.
Proof. apply firstn_skipn. Qed.

Lemma tagOf_length (b : Buffer.t) :
  List.length (tagOf b) = Nat.min 16 (List.length b).
Proof. unfold tagOf. rewrite length_skipn. lia. Qed.

Lemma decryptMessage_unusable c nonce secret :
  usable secret (base64ToBuffer nonce) = false ->
  exists e, decryptMessage c nonce secret = Thrown e.
Proof.
  intros H. unfold decryptMessage, createDecipheriv, ALGORITHM.
  simpl Js.eqb. cbv iota. simpl negb at 1. cbv iota.
  unfold usable in H.
  destruct (Nat.eqb (List.length secret) 32); simpl in *.
  - apply negb_false_iff in H. rewrite H. eauto.
  - eauto.
Qed.

(** A full-length tag is accepted only on the ciphertext and tag of the
    bytes whose text is returned. *)
Lemma decryptMessage_sound c nonce secret text :
  decryptMessage c nonce secret = Returned text ->
  (16 <= List.length (base64ToBuffer c))%nat ->
  exists plain,
    text = Buffer.toUtf8 plain /\
    base64ToBuffer c
    = aes256_ctr secret (base64ToBuffer nonce) plain
      ++ gcm_tag secret (base64ToBuffer nonce)
           (aes256_ctr secret (base64ToBuffer nonce) plain).
Proof.
  intros Hdec Hlen.
  destruct (usable secret (base64ToBuffer nonce)) eqn:Hu.
  2:{ destruct (decryptMessage_unusable c _ _ Hu) as [e He]. congruence. }
  rewrite decryptMessage_eq in Hdec by exact Hu. cbv zeta in Hdec.
  set (b := base64ToBuffer c) in *.
  assert (Ht : List.length (tagOf b) = 16%nat) by (rewrite tagOf_length; lia).
  rewrite Ht in Hdec. simpl isValidGcmTagLength in Hdec. cbv iota in Hdec.
  destruct (Buffer.eqb _ _) eqn:Heq in Hdec; [|discriminate].
  apply BufferFacts.eqb_eq in Heq.
  rewrite firstn_all2 in Heq by (rewrite gcm_tag_length; lia).
  injection Hdec as <-.
  exists (aes256_ctr secret (base64ToBuffer nonce) (bodyOf b)).
  split; [reflexivity|].
  rewrite aes256_ctr_involutive, <- Heq. symmetry. apply body_tag.
Qed.

(** Decrypting what [encryptWithNonce] made, under the same key: the text
    comes back through its UTF-8 form. *)
Lemma decrypt_encryptWithNonce nonce text secret enc :
  usable secret nonce = true ->
  encryptWithNonce nonce text secret = Returned enc ->
  decryptMessage (encCiphertext enc) (encIv enc) secret
  = Returned (Buffer.toUtf8 (Buffer.fromUtf8 text)).
Proof.
  intros Hu Henc. rewrite (encryptWithNonce_eq _ _ _ Hu) in Henc.
  injection Henc as <-. cbn [encCiphertext encIv].
  assert (Hiv : base64ToBuffer (bufferToBase64 nonce) = nonce)
    by apply base64_decode_encode.
  rewrite decryptMessage_eq by (rewrite Hiv; exact Hu).
  cbv zeta. rewrite Hiv.
  unfold base64ToBuffer, bufferToBase64. rewrite base64_decode_encode.
  rewrite tagOf_app, bodyOf_app by apply gcm_tag_length.
  rewrite gcm_tag_length. simpl isValidGcmTagLength. cbv iota.
  rewrite firstn_all2 by (rewrite gcm_tag_length; lia).
  rewrite BufferFacts.eqb_refl, aes256_ctr_involutive. reflexivity.
Qed.

End WithPlatform.
End CodecProps.

(** C1, as amended. Decrypting what one call of [encryptMessage] returned,
    under the 32-byte key it was given and with the nonce that call drew,
    returns the well-formed form of the plaintext, [P.toWellFormed()]: the
    plaintext with every surrogate that stands outside a pair replaced by
    U+FFFD. For a well-formed plaintext that is the plaintext itself. *)
Theorem encrypt_decrypt_roundtrip
  (P : NodePlatform) (HB : Base64Laws P) (HG : GcmLaws P) (HE : EntropyLaws P)
  (plaintext : string) (K : Buffer.t) (w : world) :
  List.length K = 32%nat ->
  Js.valid plaintext = true ->
  exists enc w',
    E2E.encryptMessage plaintext K w = (Returned enc, w') /\
    E2E.decryptMessage (E2E.encCiphertext enc) (E2E.encIv enc) K
    = Returned (Js.toWellFormed plaintext) /\
    (Js.isWellFormed plaintext = true ->
     E2E.decryptMessage (E2E.encCiphertext enc) (E2E.encIv enc) K
     = Returned plaintext).
Proof.
  intros HK Hvalid. unfold E2E.encryptMessage.
  pose proof (randomBytes_length E2E.IV_LENGTH w) as Hn.
  destruct (randomBytes E2E.IV_LENGTH w) as [nonce w']. simpl in Hn.
  assert (Hu : CodecTerms.usable K nonce = true).
  { unfold CodecTerms.usable. rewrite HK, Hn. reflexivity. }
  rewrite (CodecFacts.encryptWithNonce_eq _ _ _ Hu).
  eexists; eexists; split; [reflexivity|]. cbn [E2E.encCiphertext E2E.encIv].
  assert (Hiv : base64ToBuffer (bufferToBase64 nonce) = nonce)
    by apply base64_decode_encode.
  rewrite CodecFacts.decryptMessage_eq by (rewrite Hiv; exact Hu).
  cbv zeta. rewrite Hiv.
  unfold base64ToBuffer, bufferToBase64. rewrite base64_decode_encode.
  rewrite CodecProps.tagOf_app, CodecProps.bodyOf_app by apply gcm_tag_length.
  rewrite gcm_tag_length. simpl NodeCrypto.isValidGcmTagLength. cbv iota.
  rewrite firstn_all2 by (rewrite gcm_tag_length; lia).
  rewrite BufferFacts.eqb_refl, aes256_ctr_involutive.
  rewrite BufferFacts.toUtf8_fromUtf8 by exact Hvalid.
  split; [reflexivity|].
  intros Hwf. now rewrite JsFacts.toWellFormed_id.
Qed.

Lemma encrypt_decrypt_roundtrip_witness :
  List.length (repeat "001"%byte 32) = 32%nat /\
  exists enc w',
    E2E.encryptMessage (P := Small.platform) "hi" (repeat "001"%byte 32) 0%nat
    = (Returned enc, w') /\
    E2E.decryptMessage (P := Small.platform)
      (E2E.encCiphertext enc) (E2E.encIv enc) (repeat "001"%byte 32)
    = Returned "hi".
Proof.
  split; [reflexivity|].
  destruct (encrypt_decrypt_roundtrip Small.platform
              SmallFacts.base64 SmallFacts.gcm SmallFacts.entropy
              "hi" (repeat "001"%byte 32) 0%nat eq_refl eq_refl)
    as (enc & w' & Henc & _ & Hdec).
  exists enc, w'. split; [exact Henc|]. apply Hdec. reflexivity.
Defined.

(** C1, as stated, fails on a plaintext that is one surrogate: the string of
    the single code unit U+D800 is encrypted as the bytes of U+FFFD, and
    decrypting returns the string of U+FFFD. *)
Lemma roundtrip_loses_unpaired_surrogate :
  exists enc w',
    E2E.encryptMessage (P := Small.platform) [0xD800] (repeat "001"%byte 32) 0%nat
    = (Returned enc, w') /\
    E2E.decryptMessage (P := Small.platform)
      (E2E.encCiphertext enc) (E2E.encIv enc) (repeat "001"%byte 32)
    = Returned [0xFFFD] /\
    [0xFFFD] <> [0xD800].
Proof.
  eexists; eexists. split; [reflexivity|]. split; [reflexivity|]. discriminate.
Qed.

(** C3. The claim: [decryptMessage(C, iv, K)] raises a fault for every [C]
    that [encryptMessage] did not produce under [K] and [iv]. The code
    does not check that [C] holds a whole 16-byte tag: on a buffer of 4
    bytes [slice(-16)] returns all 4, [setAuthTag] accepts a 4-byte tag, and
    [final()] compares 4 bytes only. The first 4 bytes of the tag of the
    empty message are therefore accepted, and the empty text is returned,
    although no call of [encryptMessage] produces that ciphertext. *)
Theorem decryptMessage_accepts_truncated_tag
  (P : NodePlatform) (HB : Base64Laws P) (HG : GcmLaws P)
  (K nonce : Buffer.t) :
  List.length K = 32%nat ->
  nonce <> [] ->
  let forged := bufferToBase64 (firstn 4 (gcm_tag K nonce [])) in
  E2E.decryptMessage forged (bufferToBase64 nonce) K = Returned "" /\
  (forall n plaintext enc,
      E2E.encryptWithNonce n plaintext K = Returned enc ->
      E2E.encCiphertext enc <> forged).
Proof.
  intros HK Hn forged.
  assert (Hiv : base64ToBuffer (bufferToBase64 nonce) = nonce)
    by apply base64_decode_encode.
  assert (Hu : CodecTerms.usable K nonce = true).
  { unfold CodecTerms.usable. rewrite HK. destruct nonce; [contradiction|reflexivity]. }
  assert (H4 : List.length (firstn 4 (gcm_tag K nonce [])) = 4%nat).
  { rewrite length_firstn, gcm_tag_length. reflexivity. }
  assert (Hf : base64ToBuffer forged = firstn 4 (gcm_tag K nonce []))
    by apply base64_decode_encode.
  split.
  - rewrite CodecFacts.decryptMessage_eq by (rewrite Hiv; exact Hu).
    cbv zeta. rewrite Hiv, Hf.
    unfold CodecTerms.tagOf, CodecTerms.bodyOf. rewrite H4.
    change (4 - 16)%nat with 0%nat. cbn [skipn].
    change (firstn 0 (firstn 4 (gcm_tag K nonce []))) with (@nil byte).
    rewrite H4. simpl NodeCrypto.isValidGcmTagLength. cbv iota.
    rewrite BufferFacts.eqb_refl.
    pose proof (aes256_ctr_length K nonce []) as Hl.
    destruct (aes256_ctr K nonce []); [reflexivity|discriminate].
  - intros n plaintext enc Henc Heq.
    destruct (CodecTerms.usable K n) eqn:Hun.
    + rewrite CodecFacts.encryptWithNonce_eq in Henc by exact Hun.
      injection Henc as <-. simpl in Heq.
      apply (f_equal base64ToBuffer) in Heq. rewrite Hf in Heq.
      unfold base64ToBuffer, bufferToBase64 in Heq.
      rewrite base64_decode_encode in Heq.
      apply (f_equal (@List.length byte)) in Heq.
      rewrite length_app, gcm_tag_length, H4 in Heq. lia.
    + unfold E2E.encryptWithNonce, NodeCrypto.createCipheriv, E2E.ALGORITHM in Henc.
      simpl Js.eqb in Henc. cbv iota in Henc. simpl negb at 1 in Henc.
      cbv iota in Henc. unfold CodecTerms.usable in Hun. rewrite HK in Hun.
      simpl in Hun. apply negb_false_iff in Hun. rewrite HK, Hun in Henc.
      discriminate.
Qed.

Lemma decryptMessage_accepts_truncated_tag_witness :
  List.length (repeat "001"%byte 32) = 32%nat /\
  repeat "002"%byte 12 <> [] /\
  E2E.decryptMessage (P := Small.platform)
    (bufferToBase64 (P := Small.platform)
       (firstn 4 (Small.tag (repeat "001"%byte 32) (repeat "002"%byte 12) [])))
    (bufferToBase64 (P := Small.platform) (repeat "002"%byte 12))
    (repeat "001"%byte 32)
  = Returned "".
Proof.
  split; [reflexivity|]. split; [discriminate|].
  apply (decryptMessage_accepts_truncated_tag Small.platform
           SmallFacts.base64 SmallFacts.gcm
           (repeat "001"%byte 32) (repeat "002"%byte 12)).
  - reflexivity.
  - discriminate.
Defined.

(** ** Key agreement: [deriveSharedSecret] *)

Module KeyFacts.
Import E2E KeyTerms.
Section WithPlatform.
Context {P : NodePlatform}.

(** Whoever is local, the salt hashes the same two buffers in the same
    order. *)
Lemma orderedPair_sym (a b : Buffer.t) : orderedPair a b = orderedPair b a.
Proof.
  unfold orderedPair.
  rewrite (BufferFacts.compare_antisym a b).
  destruct (Z.leb_spec (Buffer.compare a b) 0) as [Hab|Hab];
    destruct (Z.leb_spec (- Buffer.compare a b) 0) as [Hba|Hba];
    try reflexivity; try lia.
  assert (E : Buffer.compare a b = 0) by lia.
  apply BufferFacts.compare_eq in E. subst b. reflexivity.
Qed.

Lemma deriveSharedSecret_eq (local : KeyPair) (remote : string) :
  deriveSharedSecret local remote =
  match ecdh_computeSecret (base64ToBuffer (kpPrivateKey local))
                           (base64ToBuffer remote) with
  | None => Thrown (CryptoError "ECDH failed")
  | Some shared =>
      Returned (pbkdf2_sha256 shared
                  (saltOf (base64ToBuffer (kpPublicKey local))
                          (base64ToBuffer remote))
                  PBKDF2_ITERATIONS KEY_LENGTH)
  end.
Proof.
  unfold deriveSharedSecret, saltOf.
  destruct (ecdh_computeSecret _ _); [|reflexivity].
  destruct (orderedPair _ _). reflexivity.
Qed.

End WithPlatform.
End KeyFacts.

(** C4. For two well-formed identities A and B, [deriveSharedSecret] with
    A's key pair and B's public key returns the same 32-byte key as with B's
    key pair and A's public key. *)
Theorem deriveSharedSecret_symmetric
  (P : NodePlatform) (HE : EcdhLaws P) (HK : KdfLaws P) (A B : KeyPair) :
  KeyTerms.validIdentity A = true ->
  KeyTerms.validIdentity B = true ->
  exists key,
    E2E.deriveSharedSecret A (kpPublicKey B) = Returned key /\
    E2E.deriveSharedSecret B (kpPublicKey A) = Returned key /\
    List.length key = 32%nat.
Proof.
  intros HA HB. unfold KeyTerms.validIdentity in *.
  rewrite !KeyFacts.deriveSharedSecret_eq.
  rewrite (ecdh_commutes _ _ _ _ HA HB).
  pose proof (ecdh_total _ _ _ _ HB HA) as Htot.
  destruct (ecdh_computeSecret _ _) as [shared|]; [|contradiction].
  unfold KeyTerms.saltOf.
  rewrite (KeyFacts.orderedPair_sym (base64ToBuffer (kpPublicKey B))).
  eexists. split; [reflexivity|]. split; [reflexivity|].
  apply pbkdf2_length.
Qed.

Lemma deriveSharedSecret_symmetric_witness :
  KeyTerms.validIdentity (P := Small.platform) Small.aliceKeys = true /\
  KeyTerms.validIdentity (P := Small.platform) Small.bobKeys = true /\
  exists key,
    E2E.deriveSharedSecret (P := Small.platform) Small.aliceKeys (kpPublicKey Small.bobKeys)
    = Returned key /\
    E2E.deriveSharedSecret (P := Small.platform) Small.bobKeys (kpPublicKey Small.aliceKeys)
    = Returned key /\
    List.length key = 32%nat.
Proof.
  split; [reflexivity|]. split; [reflexivity|].
  apply (deriveSharedSecret_symmetric Small.platform
           SmallFacts.ecdh SmallFacts.kdf Small.aliceKeys Small.bobKeys);
    reflexivity.
Defined.

(** ** The pairwise session *)

Module SessionFacts.
Import E2E Chat SessionTerms.
Section WithPlatform.
Context {P : NodePlatform}.

Lemma encryptWithNonce_iv nonce text secret enc :
  encryptWithNonce nonce text secret = Returned enc ->
  encIv enc = bufferToBase64 nonce.
Proof.
  unfold encryptWithNonce.
  destruct (NodeCrypto.createCipheriv _ _ _) as [c|e]; [|discriminate].
  destruct (NodeCrypto.cipherUpdate _ _). intros H. injection H as <-. reflexivity.
Qed.

Lemma initializeForUser_eq (this : ChatSession) (user : User) :
  initializeForUser user this =
  match keyFor this user with
  | Returned k => (Returned tt, setSharedSecret this k)
  | Thrown e => (Thrown e, this)
  end.
Proof. reflexivity. Qed.

Lemma needsInitializeFor_participant this user k :
  sharedSecret this = Some k ->
  needsInitializeFor this user = negb (participant this user).
Proof.
  intros H. unfold needsInitializeFor, participant. rewrite H.
  rewrite negb_orb. reflexivity.
Qed.

End WithPlatform.
End SessionFacts.

(** C2. [encryptMedia] draws two nonces: the caption is encrypted under the
    first, which becomes the [iv] of the envelope, and the media payload
    under the second, which the envelope does not carry; with a 32-byte key
    in place [encryptMedia] does return. [decryptMedia] decrypts the caption
    and the media payload alike with the [iv] field of the envelope: on a
    session that holds a key, for a participant, its outcome is that of the
    two calls of [decryptMessage] with that [iv], whether they return or
    throw; so it returns the caption and the payload of an envelope whose
    payload was sealed under the nonce of its caption. *)
Theorem media_payload_nonce_not_kept
  (P : NodePlatform) (s : Chat.ChatSession) (caption : string)
  (attachment : MediaAttachment) (sender : string) (w : world) :
  (forall m s' w',
      Chat.encryptMedia caption attachment sender (s, w)
      = (Returned m, (s', w')) ->
      exists secret n1 w1 n2 w2 e1 e2,
        Chat.sharedSecret s' = Some secret /\
        randomBytes E2E.IV_LENGTH w = (n1, w1) /\
        randomBytes E2E.IV_LENGTH w1 = (n2, w2) /\
        E2E.encryptWithNonce n1 caption secret = Returned e1 /\
        E2E.encryptWithNonce n2 (mediaData attachment) secret = Returned e2 /\
        ciphertext m = E2E.encCiphertext e1 /\
        iv m = bufferToBase64 n1 /\
        media m = Some (withData attachment (E2E.encCiphertext e2)))
  /\
  (forall secret,
      EntropyLaws P ->
      Chat.sharedSecret s = Some secret ->
      List.length secret = 32%nat ->
      exists m w',
        Chat.encryptMedia caption attachment sender (s, w)
        = (Returned m, (s, w')))
  /\
  (forall m user text out s',
      Chat.decryptMedia m user s = (Returned (text, out), s') ->
      exists secret payload data,
        Chat.sharedSecret s' = Some secret /\
        media m = Some payload /\
        E2E.decryptMessage (ciphertext m) (iv m) secret = Returned text /\
        E2E.decryptMessage (mediaData payload) (iv m) secret = Returned data /\
        out = withData payload data)
  /\
  (forall m user secret payload,
      Chat.sharedSecret s = Some secret ->
      SessionTerms.participant s user = true ->
      media m = Some payload ->
      Chat.decryptMedia m user s
      = (match E2E.decryptMessage (ciphertext m) (iv m) secret with
         | Thrown e => Thrown e
         | Returned text =>
             match E2E.decryptMessage (mediaData payload) (iv m) secret with
             | Thrown e => Thrown e
             | Returned data => Returned (text, withData payload data)
             end
         end, s))
  /\
  (forall m user secret nonce e1 e2,
      Base64Laws P -> GcmLaws P ->
      Chat.sharedSecret s = Some secret ->
      SessionTerms.participant s user = true ->
      CodecTerms.usable secret nonce = true ->
      E2E.encryptWithNonce nonce caption secret = Returned e1 ->
      E2E.encryptWithNonce nonce (mediaData attachment) secret = Returned e2 ->
      ciphertext m = E2E.encCiphertext e1 ->
      iv m = E2E.encIv e1 ->
      media m = Some (withData attachment (E2E.encCiphertext e2)) ->
      Chat.decryptMedia m user s
      = (Returned (Buffer.toUtf8 (Buffer.fromUtf8 caption),
                   withData attachment
                     (Buffer.toUtf8 (Buffer.fromUtf8 (mediaData attachment)))),
         s)).
Proof.
  assert (Hkeyed : forall m user secret payload,
             Chat.sharedSecret s = Some secret ->
             SessionTerms.participant s user = true ->
             media m = Some payload ->
             Chat.decryptMedia m user s
             = (match E2E.decryptMessage (ciphertext m) (iv m) secret with
                | Thrown e => Thrown e
                | Returned text =>
                    match E2E.decryptMessage (mediaData payload) (iv m) secret with
                    | Thrown e => Thrown e
                    | Returned data => Returned (text, withData payload data)
                    end
                end, s)).
  { intros m user secret payload Hk Hp Hm. unfold Chat.decryptMedia. rewrite Hm.
    unfold bind, readStore, liftOutcome, ret.
    rewrite (SessionFacts.needsInitializeFor_participant s user secret Hk), Hp.
    cbn [negb]. rewrite Hk.
    destruct (E2E.decryptMessage (ciphertext m) (iv m) secret); [|reflexivity].
    destruct (E2E.decryptMessage (mediaData payload) (iv m) secret); reflexivity. }
  split; [|split; [|split; [|split]]].
  2:{ intros secret HE Hk Hlen.
      unfold Chat.encryptMedia, bind, onFst, onSnd, readStore.
      cbn [fst snd]. rewrite Hk. unfold ret. cbn [fst snd]. rewrite Hk.
      unfold E2E.encryptMessage, generateUUID, now. cbn [fst snd].
      pose proof (randomBytes_length E2E.IV_LENGTH w) as H1.
      destruct (randomBytes E2E.IV_LENGTH w) as [n1 w1]. cbn [fst] in H1.
      rewrite CodecFacts.encryptWithNonce_eq
        by (unfold CodecTerms.usable; rewrite Hlen, H1; reflexivity).
      cbn [fst snd].
      pose proof (randomBytes_length E2E.IV_LENGTH w1) as H2.
      destruct (randomBytes E2E.IV_LENGTH w1) as [n2 w2]. cbn [fst] in H2.
      rewrite CodecFacts.encryptWithNonce_eq
        by (unfold CodecTerms.usable; rewrite Hlen, H2; reflexivity).
      cbn [fst snd].
      destruct (randomUUID w2) as [u w3]. cbn [fst snd].
      destruct (dateNow w3) as [t w4]. cbn [fst snd].
      eexists; eexists; reflexivity. }
  - intros m s' w'. unfold Chat.encryptMedia, bind, onFst, onSnd, readStore.
    cbn [fst snd].
    assert (Hinit :
      exists o s1,
        match Chat.sharedSecret s with
        | Some _ => ret tt
        | None => fun sw : Chat.ChatSession * world =>
                    let '(o, s'0) := Chat.initialize (fst sw) in (o, (s'0, snd sw))
        end (s, w) = (o, (s1, w))).
    { destruct (Chat.sharedSecret s); cbn; [unfold ret; eauto|].
      destruct (Chat.initialize s); eauto. }
    destruct Hinit as (o & s1 & ->).
    destruct o as [[]|e]; [|discriminate].
    cbn [fst snd].
    destruct (Chat.sharedSecret s1) as [secret|] eqn:Hk; [|discriminate].
    unfold E2E.encryptMessage, generateUUID, now, ret. cbn [fst snd].
    destruct (randomBytes E2E.IV_LENGTH w) as [n1 w1] eqn:H1.
    destruct (E2E.encryptWithNonce n1 caption secret) as [e1|] eqn:He1;
      [|discriminate].
    cbn [fst snd].
    destruct (randomBytes E2E.IV_LENGTH w1) as [n2 w2] eqn:H2.
    destruct (E2E.encryptWithNonce n2 (mediaData attachment) secret) as [e2|] eqn:He2;
      [|discriminate].
    cbn [fst snd].
    destruct (randomUUID w2) as [u w3]. cbn [fst snd].
    destruct (dateNow w3) as [t w4]. cbn [fst snd].
    intros H. injection H as <- <- <-.
    exists secret, n1, w1, n2, w2, e1, e2. cbn.
    repeat split; auto.
    eapply SessionFacts.encryptWithNonce_iv; eauto.
  - intros m user text out s'. unfold Chat.decryptMedia.
    destruct (media m) as [payload|]; [|discriminate].
    unfold bind, readStore, liftOutcome, ret.
    destruct ((if Chat.needsInitializeFor s user
               then Chat.initializeForUser user
               else fun s0 => (Returned tt, s0)) s) as [[[]|e] s1]; [|discriminate].
    destruct (Chat.sharedSecret s1) as [secret|] eqn:Hk; [|discriminate].
    destruct (E2E.decryptMessage (ciphertext m) (iv m) secret) as [t|] eqn:Ht;
      [|discriminate].
    destruct (E2E.decryptMessage (mediaData payload) (iv m) secret) as [d|] eqn:Hd;
      [|discriminate].
    intros H. injection H as <- <- <-.
    exists secret, payload, d. repeat split; auto.
  - exact Hkeyed.
  - intros m user secret nonce e1 e2 HB HG Hk Hp Hu He1 He2 Hc Hiv Hm.
    rewrite (Hkeyed m user secret _ Hk Hp Hm). cbn [mediaData withData].
    rewrite Hc, Hiv.
    rewrite (CodecProps.decrypt_encryptWithNonce _ _ _ _ Hu He1).
    rewrite (SessionFacts.encryptWithNonce_iv _ _ _ _ He1).
    rewrite <- (SessionFacts.encryptWithNonce_iv _ _ _ _ He2).
    rewrite (CodecProps.decrypt_encryptWithNonce _ _ _ _ Hu He2).
    reflexivity.
Qed.

Lemma media_payload_nonce_not_kept_witness :
  (exists m s' w',
      Chat.encryptMedia (P := Small.platform) "look" Small.photo "alice"
        (Small.aliceBob, 0%nat) = (Returned m, (s', w')) /\
      iv m = bufferToBase64 (P := Small.platform)
               (fst (randomBytes (NodePlatform := Small.platform) E2E.IV_LENGTH 0%nat)) /\
      exists e, Chat.decryptMedia (P := Small.platform) m Small.bob s'
                = (Thrown e, s')) /\
  Chat.decryptMedia (P := Small.platform) Examples.sealedTwice Small.bob
    Examples.aliceBobDemo
  = (Returned ("look", Small.photo), Examples.aliceBobDemo).
Proof.
  split.
  - eexists; eexists; eexists.
    split; [vm_compute; reflexivity|].
    split.
    + destruct (proj1 (media_payload_nonce_not_kept Small.platform Small.aliceBob
                         "look" Small.photo "alice" 0%nat) _ _ _ eq_refl)
        as (secret & n1 & w1 & n2 & w2 & e1 & e2 & _ & H1 & _ & _ & _ & _ & Hiv & _).
      cbn [fst]. rewrite H1 in *. exact Hiv.
    + eexists. vm_compute. reflexivity.
  - destruct (media_payload_nonce_not_kept Small.platform Examples.aliceBobDemo
                "look" Small.photo "alice" 0%nat)
      as (_ & _ & _ & _ & Hsame).
    apply (Hsame Examples.sealedTwice Small.bob Examples.demoKey Examples.demoNonce
                 Examples.sealedLook Examples.sealedPhoto
                 SmallFacts.base64 SmallFacts.gcm);
      reflexivity.
Defined.

Module SessionKey.
Import E2E Chat SessionTerms SessionFacts.
Section WithPlatform.
Context {P : NodePlatform}.

(** With a key in place, [encrypt] and [encryptMedia] never write to the
    session. *)
Lemma encrypt_keeps_session this k text sender w :
  sharedSecret this = Some k ->
  fst (snd (encrypt text sender (this, w))) = this.
Proof.
  intros Hk. unfold encrypt, bind, onFst, onSnd, readStore.
  cbn [fst snd]. rewrite Hk. unfold ret. cbn [fst snd]. rewrite Hk.
  unfold encryptMessage, generateUUID, now. cbn [fst snd].
  destruct (randomBytes IV_LENGTH w) as [n1 w1].
  destruct (encryptWithNonce n1 text k); [|reflexivity]. cbn [fst snd].
  destruct (randomUUID w1) as [u w2]. cbn [fst snd].
  destruct (dateNow w2) as [t w3]. reflexivity.
Qed.

Lemma encryptMedia_keeps_session this k text attachment sender w :
  sharedSecret this = Some k ->
  fst (snd (encryptMedia text attachment sender (this, w))) = this.
Proof.
  intros Hk. unfold encryptMedia, bind, onFst, onSnd, readStore.
  cbn [fst snd]. rewrite Hk. unfold ret. cbn [fst snd]. rewrite Hk.
  unfold encryptMessage, generateUUID, now. cbn [fst snd].
  destruct (randomBytes IV_LENGTH w) as [n1 w1].
  destruct (encryptWithNonce n1 text k); [|reflexivity]. cbn [fst snd].
  destruct (randomBytes IV_LENGTH w1) as [n2 w2].
  destruct (encryptWithNonce n2 (mediaData attachment) k); [|reflexivity].
  cbn [fst snd].
  destruct (randomUUID w2) as [u w3]. cbn [fst snd].
  destruct (dateNow w3) as [t w4]. reflexivity.
Qed.

Lemma decrypt_session this m user :
  snd (decrypt m user this) = afterGuard this user.
Proof.
  unfold decrypt, bind, readStore, afterGuard, liftOutcome, ret, throw.
  destruct (needsInitializeFor this user).
  - destruct (initializeForUser user this) as [[[]|e] s1]; [|reflexivity].
    cbn [snd]. destruct (sharedSecret s1); reflexivity.
  - destruct (sharedSecret this); reflexivity.
Qed.

Lemma decryptMedia_session this m user payload :
  media m = Some payload ->
  snd (decryptMedia m user this) = afterGuard this user.
Proof.
  intros Hm.
  unfold decryptMedia, bind, readStore, afterGuard, liftOutcome, ret, throw.
  rewrite Hm.
  assert (Hrest : forall s1 : ChatSession,
    snd (match sharedSecret s1 with
         | Some secret =>
             fun s : ChatSession =>
               match
                 (let o := decryptMessage (ciphertext m) (iv m) secret in
                  fun s0 : ChatSession => (o, s0)) s
               with
               | (Returned a, s') =>
                   match
                     (let o := decryptMessage (mediaData payload) (iv m) secret in
                      fun s0 : ChatSession => (o, s0)) s'
                   with
                   | (Returned a0, s'0) =>
                       (Returned (a, withData payload a0), s'0)
                   | (Thrown e, s'0) => (Thrown e, s'0)
                   end
               | (Thrown e, s') => (Thrown e, s')
               end
         | None =>
             fun s : ChatSession =>
               (Thrown (PlainError "Failed to initialize session"), s)
         end s1) = s1).
  { intros s1. destruct (sharedSecret s1); [|reflexivity]. cbn.
    destruct (decryptMessage (ciphertext m) (iv m) _); [|reflexivity].
    destruct (decryptMessage (mediaData payload) (iv m) _); reflexivity. }
  destruct (needsInitializeFor this user).
  - destruct (initializeForUser user this) as [[[]|e] s1]; [|reflexivity].
    cbn [snd]. apply Hrest.
  - apply Hrest.
Qed.

Lemma decryptMedia_without_media this m user :
  media m = None -> snd (decryptMedia m user this) = this.
Proof. intros Hm. unfold decryptMedia. rewrite Hm. reflexivity. Qed.

Lemma afterGuard_participant this user k :
  sharedSecret this = Some k ->
  participant this user = true ->
  afterGuard this user = this.
Proof.
  intros Hk Hp. unfold afterGuard.
  rewrite (needsInitializeFor_participant this user k Hk), Hp. reflexivity.
Qed.

Lemma afterGuard_outsider this user k :
  sharedSecret this = Some k ->
  participant this user = false ->
  sharedSecret (afterGuard this user) =
  Some (match keyFor this user with Returned k' => k' | Thrown _ => k end).
Proof.
  intros Hk Hp. unfold afterGuard.
  rewrite (needsInitializeFor_participant this user k Hk), Hp. cbn [negb].
  rewrite initializeForUser_eq.
  destruct (keyFor this user); [reflexivity|exact Hk].
Qed.

End WithPlatform.
End SessionKey.

(** C5, as the code has it. Once a pairwise session holds a derived key,
    [encrypt] and [encryptMedia] leave it unchanged, and so do [decrypt] and
    [decryptMedia] when the user argument is one of the two participants.
    For a user that is neither participant the guard of [decrypt] and
    [decryptMedia] derives the key anew, from that user's key pair and
    userA's public key, and the session keeps the new key (or the old one,
    when the derivation throws). *)
Theorem session_key_stable_for_participants
  (P : NodePlatform) (s : Chat.ChatSession) (k : Buffer.t) :
  Chat.sharedSecret s = Some k ->
  (forall text sender w,
      Chat.sharedSecret (fst (snd (Chat.encrypt text sender (s, w)))) = Some k) /\
  (forall text attachment sender w,
      Chat.sharedSecret
        (fst (snd (Chat.encryptMedia text attachment sender (s, w)))) = Some k) /\
  (forall m user,
      SessionTerms.participant s user = true ->
      Chat.sharedSecret (snd (Chat.decrypt m user s)) = Some k /\
      Chat.sharedSecret (snd (Chat.decryptMedia m user s)) = Some k) /\
  (forall m user,
      SessionTerms.participant s user = false ->
      let k' := match SessionTerms.keyFor s user with
                | Returned k' => k'
                | Thrown _ => k
                end in
      Chat.sharedSecret (snd (Chat.decrypt m user s)) = Some k' /\
      Chat.sharedSecret (snd (Chat.decryptMedia m user s))
      = Some (match media m with Some _ => k' | None => k end)).
Proof.
  intros Hk. repeat split.
  - intros. rewrite (SessionKey.encrypt_keeps_session s k); auto.
  - intros. rewrite (SessionKey.encryptMedia_keeps_session s k); auto.
  - rewrite SessionKey.decrypt_session.
    rewrite (SessionKey.afterGuard_participant s user k); auto.
  - destruct (media m) as [payload|] eqn:Hm.
    + rewrite (SessionKey.decryptMedia_session s m user payload Hm).
      rewrite (SessionKey.afterGuard_participant s user k); auto.
    + rewrite SessionKey.decryptMedia_without_media; auto.
  - rewrite SessionKey.decrypt_session.
    apply SessionKey.afterGuard_outsider; auto.
  - destruct (media m) as [payload|] eqn:Hm.
    + rewrite (SessionKey.decryptMedia_session s m user payload Hm).
      apply SessionKey.afterGuard_outsider; auto.
    + rewrite SessionKey.decryptMedia_without_media; auto.
Qed.

Lemma session_key_stable_for_participants_witness :
  exists k,
    Chat.sharedSecret Small.aliceBob = Some k /\
    Chat.sharedSecret
      (snd (Chat.decrypt (P := Small.platform)
              Small.aliceToBob Small.bob Small.aliceBob))
    = Some k.
Proof.
  assert (H : exists k, Chat.sharedSecret Small.aliceBob = Some k)
    by (eexists; vm_compute; reflexivity).
  destruct H as [k Hk]. exists k. split; [exact Hk|].
  apply (session_key_stable_for_participants Small.platform Small.aliceBob k Hk).
  reflexivity.
Defined.

(** C5 as stated fails: when carol, who is not in the session of alice and
    bob, is passed to [decrypt], the session's key is replaced. *)
Lemma session_key_replaced_for_outsider :
  exists k,
    Chat.sharedSecret Small.aliceBob = Some k /\
    Chat.sharedSecret
      (snd (Chat.decrypt (P := Small.platform)
              Small.aliceToBob Small.carol Small.aliceBob))
    <> Some k.
Proof.
  eexists. split; [vm_compute; reflexivity|].
  vm_compute. intros H. discriminate H.
Qed.

(** ** The insertion-ordered map *)

Module JsMapFacts.
Section WithValues.
Context {V : Type}.
Implicit Types (m : JsMap.t V) (k : string) (v : V).

Lemma get_set_same m k v : JsMap.get (JsMap.set m k v) k = Some v.
Proof.
  induction m as [|[k' v'] m IH]; simpl.
  - rewrite JsFacts.string_eqb_refl. reflexivity.
  - destruct (Js.eqb k' k) eqn:E; simpl.
    + rewrite JsFacts.string_eqb_refl. reflexivity.
    + rewrite E. exact IH.
Qed.

Lemma get_set_other m k k' v :
  k <> k' -> JsMap.get (JsMap.set m k v) k' = JsMap.get m k'.
Proof.
  intros Hne. induction m as [|[k0 v0] m IH]; simpl.
  - apply JsFacts.string_eqb_neq in Hne. rewrite Hne. reflexivity.
  - destruct (Js.eqb k0 k) eqn:E; simpl.
    + apply JsFacts.string_eqb_eq in E. subst k0.
      apply JsFacts.string_eqb_neq in Hne. rewrite Hne. reflexivity.
    + rewrite IH. reflexivity.
Qed.

Lemma get_None_keys m k : JsMap.get m k = None <-> ~ In k (JsMap.keys m).
Proof.
  induction m as [|[k0 v0] m IH]; simpl.
  - tauto.
  - destruct (Js.eqb k0 k) eqn:E.
    + apply JsFacts.string_eqb_eq in E. split; [discriminate|]. intros H. exfalso; auto.
    + apply JsFacts.string_eqb_neq in E. rewrite IH. tauto.
Qed.

Lemma get_delete_same m k : QueueTerms.mapWf m -> JsMap.get (JsMap.delete m k) k = None.
Proof.
  unfold QueueTerms.mapWf. induction m as [|[k0 v0] m IH]; simpl; intros Hwf.
  - reflexivity.
  - inversion Hwf as [|? ? Hnotin Hrest]; subst.
    destruct (Js.eqb k0 k) eqn:E.
    + apply JsFacts.string_eqb_eq in E. subst k0. apply get_None_keys. exact Hnotin.
    + simpl. rewrite E. auto.
Qed.

Lemma get_delete_other m k k' :
  k <> k' -> JsMap.get (JsMap.delete m k) k' = JsMap.get m k'.
Proof.
  intros Hne. induction m as [|[k0 v0] m IH]; simpl.
  - reflexivity.
  - destruct (Js.eqb k0 k) eqn:E; simpl.
    + apply JsFacts.string_eqb_eq in E. subst k0.
      apply JsFacts.string_eqb_neq in Hne. rewrite Hne. reflexivity.
    + rewrite IH. reflexivity.
Qed.

(** A new key goes to the end. *)
Lemma set_absent m k v :
  JsMap.get m k = None -> JsMap.set m k v = m ++ [(k, v)].
Proof.
  induction m as [|[k0 v0] m IH]; simpl; [reflexivity|].
  destruct (Js.eqb k0 k); [discriminate|].
  intros H. rewrite IH by exact H. reflexivity.
Qed.

(** A present key keeps its place. *)
Lemma keys_set_present m k v v0 :
  JsMap.get m k = Some v0 -> JsMap.keys (JsMap.set m k v) = JsMap.keys m.
Proof.
  induction m as [|[k1 v1] m IH]; simpl; [discriminate|].
  destruct (Js.eqb k1 k) eqn:E; simpl.
  - apply JsFacts.string_eqb_eq in E. subst k1. reflexivity.
  - intros H. rewrite IH by exact H. reflexivity.
Qed.

Lemma keys_delete_subset m k x :
  In x (JsMap.keys (JsMap.delete m k)) -> In x (JsMap.keys m).
Proof.
  induction m as [|[k0 v0] m IH]; simpl; [tauto|].
  destruct (Js.eqb k0 k); simpl; tauto.
Qed.

Lemma wf_delete m k : QueueTerms.mapWf m -> QueueTerms.mapWf (JsMap.delete m k).
Proof.
  unfold QueueTerms.mapWf. induction m as [|[k0 v0] m IH]; simpl; intros Hwf; [constructor|].
  inversion Hwf as [|? ? Hnotin Hrest]; subst.
  destruct (Js.eqb k0 k); [exact Hrest|].
  simpl. constructor; [|auto].
  intros Hin. apply Hnotin. eapply keys_delete_subset; eauto.
Qed.

Lemma keys_set_subset m k v x :
  In x (JsMap.keys (JsMap.set m k v)) -> x = k \/ In x (JsMap.keys m).
Proof.
  induction m as [|[k0 v0] m IH]; simpl.
  - intros [H|[]]; auto.
  - destruct (Js.eqb k0 k) eqn:E; simpl.
    + apply JsFacts.string_eqb_eq in E. subst k0. tauto.
    + intros [H|H]; auto. apply IH in H. tauto.
Qed.

Lemma wf_set m k v : QueueTerms.mapWf m -> QueueTerms.mapWf (JsMap.set m k v).
Proof.
  unfold QueueTerms.mapWf. induction m as [|[k0 v0] m IH]; simpl; intros Hwf.
  - constructor; [simpl; tauto|constructor].
  - inversion Hwf as [|? ? Hnotin Hrest]; subst.
    destruct (Js.eqb k0 k) eqn:E; simpl.
    + apply JsFacts.string_eqb_eq in E. subst k0. constructor; assumption.
    + constructor; [|auto]. intros Hin.
      apply keys_set_subset in Hin as [->|Hin]; [|auto].
      rewrite JsFacts.string_eqb_refl in E. discriminate.
Qed.

End WithValues.
End JsMapFacts.

(** ** The message queue *)

Module QueueFacts.
Import Queue QueueTerms.

Lemma wf_new a b c : wf (newMessageQueue a b c).
Proof. constructor. Qed.

Lemma wf_evictIfFull q : wf q -> QueueTerms.mapWf (evictIfFull q).
Proof.
  intros Hwf. unfold evictIfFull.
  destruct (JsMap.size (queue q) >=? maxSize q); [|exact Hwf].
  destruct (JsMap.firstKey (queue q)) as [k|]; [|exact Hwf].
  destruct (truthy k); [|exact Hwf].
  apply JsMapFacts.wf_delete. exact Hwf.
Qed.

Lemma wf_enqueue q m : wf q -> wf (enqueue q m).
Proof.
  intros Hwf. unfold wf, enqueue. simpl.
  apply JsMapFacts.wf_set, wf_evictIfFull, Hwf.
Qed.

Lemma wf_markFailed q id err clock : wf q -> wf (markFailed q id err clock).
Proof.
  intros Hwf. unfold markFailed.
  destruct (JsMap.get (queue q) id); [|exact Hwf].
  destruct (_ >=? _); unfold wf; simpl.
  - apply JsMapFacts.wf_delete, JsMapFacts.wf_set, Hwf.
  - apply JsMapFacts.wf_set, Hwf.
Qed.

Lemma wf_markSent q id : wf q -> wf (markSent q id).
Proof.
  intros Hwf. unfold markSent.
  destruct (JsMap.get (queue q) id); [|exact Hwf].
  unfold wf; simpl. apply JsMapFacts.wf_delete, Hwf.
Qed.

Lemma maxRetries_markFailed q id err clock :
  maxRetries (markFailed q id err clock) = maxRetries q.
Proof.
  unfold markFailed. destruct (JsMap.get (queue q) id); [|reflexivity].
  destruct (_ >=? _); reflexivity.
Qed.

(** One call on a queued id, below the ceiling: the entry is updated. *)
Lemma markFailed_below q id entry err clock :
  get q id = Some entry ->
  Z.of_nat (S (attempts entry)) < maxRetries q ->
  get (markFailed q id err clock) id = Some (failedEntry entry err clock).
Proof.
  unfold get, markFailed. intros -> Hlt.
  destruct (Z.geb_spec (Z.of_nat (attempts (failedEntry entry err clock)))
                       (maxRetries q)) as [H|H]; simpl in H; [lia|].
  simpl. apply JsMapFacts.get_set_same.
Qed.

(** One call on a queued id that reaches the ceiling: the entry goes. *)
Lemma markFailed_ceiling q id entry err clock :
  wf q ->
  get q id = Some entry ->
  maxRetries q <= Z.of_nat (S (attempts entry)) ->
  get (markFailed q id err clock) id = None.
Proof.
  unfold get, markFailed. intros Hwf -> Hge.
  destruct (Z.geb_spec (Z.of_nat (attempts (failedEntry entry err clock)))
                       (maxRetries q)) as [H|H]; simpl in H; [|lia].
  simpl. apply JsMapFacts.get_delete_same, JsMapFacts.wf_set, Hwf.
Qed.

(** The entries of the other ids are not touched. *)
Lemma markFailed_other q id other err clock :
  id <> other ->
  get (markFailed q id err clock) other = get q other.
Proof.
  intros Hne. unfold get, markFailed.
  destruct (JsMap.get (queue q) id); [|reflexivity].
  destruct (_ >=? _); simpl.
  - rewrite JsMapFacts.get_delete_other, JsMapFacts.get_set_other by exact Hne.
    reflexivity.
  - apply JsMapFacts.get_set_other. exact Hne.
Qed.

(** A call on an id that is not queued changes nothing. *)
Lemma markFailed_absent q id err clock :
  get q id = None -> markFailed q id err clock = q.
Proof. unfold get, markFailed. intros ->. reflexivity. Qed.

Lemma markFailedTimes_absent q id err clocks :
  get q id = None -> markFailedTimes q id err clocks = q.
Proof.
  revert q. induction clocks as [|c clocks IH]; intros q H; simpl; [reflexivity|].
  rewrite markFailed_absent by exact H. apply IH. exact H.
Qed.

(** Enough calls in a row remove the entry. *)
Lemma markFailedTimes_removes clocks :
  forall q id entry err,
    wf q ->
    get q id = Some entry ->
    maxRetries q <= Z.of_nat (attempts entry + List.length clocks) ->
    (0 < List.length clocks)%nat ->
    get (markFailedTimes q id err clocks) id = None.
Proof.
  induction clocks as [|c clocks IH]; intros q id entry err Hwf Hget Hn Hpos;
    simpl in *; [lia|].
  destruct (Z.le_gt_cases (maxRetries q) (Z.of_nat (S (attempts entry)))) as [Hc|Hc].
  - pose proof (markFailed_ceiling q id entry err c Hwf Hget Hc) as Hgone.
    rewrite markFailedTimes_absent by exact Hgone. exact Hgone.
  - pose proof (markFailed_below q id entry err c Hget Hc) as Hnext.
    apply (IH _ _ _ _ (wf_markFailed q id err c Hwf) Hnext).
    + rewrite maxRetries_markFailed. simpl. lia.
    + destruct clocks; simpl in *; lia.
Qed.

End QueueFacts.

(** Eviction where the oldest id is not empty. Below capacity [enqueue]
    evicts nothing: it only sets the entry of the new envelope. At capacity,
    when the oldest entry has a non-empty id, [enqueue] removes exactly that
    entry, the first in insertion order, and then sets the entry of the new
    envelope, which goes last when its id is new. *)
Theorem enqueue_evicts_oldest (q : Queue.MessageQueue) (m : Message) :
  (Queue.size q < Queue.maxSize q ->
   Queue.queue (Queue.enqueue q m)
   = JsMap.set (Queue.queue q) (msgId m) (Queue.freshEntry m)) /\
  (forall k v rest,
      Queue.queue q = (k, v) :: rest ->
      Queue.maxSize q <= Queue.size q ->
      k <> "" ->
      Queue.queue (Queue.enqueue q m)
      = JsMap.set rest (msgId m) (Queue.freshEntry m) /\
      (JsMap.get rest (msgId m) = None ->
       Queue.queue (Queue.enqueue q m)
       = rest ++ [(msgId m, Queue.freshEntry m)])).
Proof.
  split.
  - intros Hlt. unfold Queue.enqueue, Queue.evictIfFull, Queue.size in *. simpl.
    destruct (Z.geb_spec (JsMap.size (Queue.queue q)) (Queue.maxSize q)); [lia|].
    reflexivity.
  - intros k v rest Hq Hfull Hk.
    assert (E : Queue.queue (Queue.enqueue q m)
                = JsMap.set rest (msgId m) (Queue.freshEntry m)).
    { unfold Queue.enqueue, Queue.evictIfFull, Queue.size in *. simpl.
      destruct (Z.geb_spec (JsMap.size (Queue.queue q)) (Queue.maxSize q)); [|lia].
      rewrite Hq. simpl. unfold truthy.
      apply JsFacts.string_eqb_neq in Hk. rewrite Hk. simpl.
      rewrite JsFacts.string_eqb_refl. reflexivity. }
    split; [exact E|].
    intros Hnew. rewrite E. apply JsMapFacts.set_absent. exact Hnew.
Qed.

Lemma enqueue_evicts_oldest_witness :
  let q := Queue.enqueue
             (Queue.enqueue (Queue.newMessageQueue 2 3 2000) (Small.envelope "a"))
             (Small.envelope "b") in
  Queue.maxSize q <= Queue.size q /\
  Queue.queue (Queue.enqueue q (Small.envelope "c"))
  = [("b", Queue.freshEntry (Small.envelope "b"));
     ("c", Queue.freshEntry (Small.envelope "c"))].
Proof.
  split; [vm_compute; discriminate|].
  apply (proj2 (enqueue_evicts_oldest _ (Small.envelope "c"))
           "a" (Queue.freshEntry (Small.envelope "a"))
           [("b", Queue.freshEntry (Small.envelope "b"))]).
  - reflexivity.
  - vm_compute; discriminate.
  - discriminate.
  - reflexivity.
Defined.



(** C8. On a queued id, [markFailed] counts the attempt and records its
    time and error; when the count reaches [maxRetries] (3 by default) the
    entry is removed instead, and stays removed. So [maxRetries] calls on
    one id remove its entry. *)
Theorem markFailed_retry_ceiling
  (q : Queue.MessageQueue) (id : string) (entry : Queue.QueuedMessage)
  (err : fault) :
  QueueTerms.wf q ->
  Queue.get q id = Some entry ->
  0 < Queue.maxRetries q ->
  (forall clock,
      Z.of_nat (S (Queue.attempts entry)) < Queue.maxRetries q ->
      Queue.get (Queue.markFailed q id err clock) id
      = Some {| Queue.message := Queue.message entry;
                Queue.status := Queue.FAILED;
                Queue.attempts := S (Queue.attempts entry);
                Queue.lastAttempt := Some clock;
                Queue.error := Some err |}) /\
  (forall clock,
      Queue.maxRetries q <= Z.of_nat (S (Queue.attempts entry)) ->
      Queue.get (Queue.markFailed q id err clock) id = None) /\
  (forall clock other,
      other <> id ->
      Queue.get (Queue.markFailed q id err clock) other = Queue.get q other) /\
  (forall clocks,
      Z.of_nat (List.length clocks) = Queue.maxRetries q ->
      let q' := Queue.markFailedTimes q id err clocks in
      Queue.get q' id = None /\
      forall clock, Queue.markFailed q' id err clock = q') /\
  Queue.maxRetries Queue.defaultMessageQueue = 3.
Proof.
  intros Hwf Hget Hpos. repeat split.
  - intros clock Hlt. apply QueueFacts.markFailed_below; assumption.
  - intros clock Hge. eapply QueueFacts.markFailed_ceiling; eassumption.
  - intros clock other Hne. apply QueueFacts.markFailed_other. congruence.
  - eapply QueueFacts.markFailedTimes_removes; try eassumption; lia.
  - intros clock. apply QueueFacts.markFailed_absent.
    eapply QueueFacts.markFailedTimes_removes; try eassumption; lia.
Qed.

Lemma markFailed_retry_ceiling_witness :
  let q := Queue.enqueue Queue.defaultMessageQueue (Small.envelope "a") in
  Queue.get (Queue.markFailedTimes q "a" (NetworkError "down") [10; 20]) "a"
  = Some {| Queue.message := Small.envelope "a";
            Queue.status := Queue.FAILED;
            Queue.attempts := 2;
            Queue.lastAttempt := Some 20;
            Queue.error := Some (NetworkError "down") |} /\
  Queue.get (Queue.markFailedTimes q "a" (NetworkError "down") [10; 20; 30]) "a"
  = None.
Proof.
  split; [reflexivity|].
  apply (markFailed_retry_ceiling
           (Queue.enqueue Queue.defaultMessageQueue (Small.envelope "a"))
           "a" (Queue.freshEntry (Small.envelope "a")) (NetworkError "down")).
  - apply QueueFacts.wf_enqueue, QueueFacts.wf_new.
  - reflexivity.
  - reflexivity.
  - reflexivity.
Defined.

(** ** The orchestrator *)

Module SDKFacts.
Import Queue SDK.
Section WithPlatform.
Context {P : NodePlatform}.

(** The transport section of [sendMessage] when the transport is connected
    and its [send] throws [e]: the envelope is enqueued, and then marked
    failed at the current time. *)
Lemma handOver_failed_send port m sdk session w e :
  portIsConnected port = true ->
  portSend port m = Thrown e ->
  exists sdk',
    handOver port m (sdk, (session, w))
    = (Returned tt, (sdk', (session, snd (dateNow w)))) /\
    messageQueue sdk'
    = markFailed (enqueue (messageQueue sdk) m) (msgId m) e (fst (dateNow w)) /\
    emitted sdk' = emitted sdk ++ [MESSAGE_FAILED m e].
Proof.
  intros Hc Hs. unfold handOver. rewrite Hc, Hs.
  unfold bind, onFst, onSnd, updateQueue, emit, now. cbn [fst snd].
  destruct (dateNow w) as [clock w']. cbn [fst snd].
  eexists. split; [reflexivity|]. split; reflexivity.
Qed.

(** [sendMessage], when it returns: the envelope comes from the session's
    [encrypt], and the orchestrator is what the transport section made of
    it. *)
Lemma sendMessage_returned text sdk session w m st' :
  sendMessage text (sdk, (session, w)) = (Returned m, st') ->
  exists user sw1,
    currentUser sdk = Some user /\
    Chat.encrypt text (userId user) (session, w) = (Returned m, sw1) /\
    match transport (config sdk) with
    | Some port => handOver port m (sdk, sw1) = (Returned tt, st')
    | None => st' = (sdk, sw1)
    end.
Proof.
  unfold sendMessage, bind, onFst, readStore. cbn [fst snd].
  destruct (currentUser sdk) as [user|]; [|discriminate].
  unfold liftOutcome. destruct (validateMessage text); [|discriminate].
  unfold tryCatch, bind, onSnd. cbn [fst snd].
  destruct (Chat.encrypt text (userId user) (session, w)) as [[m0|e0] sw1] eqn:Henc.
  2:{ unfold onFst, emit, throw. cbn. discriminate. }
  cbn [fst snd].
  destruct (messageStoreCreate (config sdk) m0).
  2:{ unfold onFst, emit, throw. cbn. discriminate. }
  intros H. exists user, sw1. split; [reflexivity|].
  destruct (transport (config sdk)) as [port|].
  - destruct (handOver port m0 (sdk, sw1)) as [[[]|e1] st1] eqn:Hhand.
    + unfold ret in H. injection H as <- <-. auto.
    + unfold onFst, emit, throw in H. cbn in H. discriminate.
  - unfold ret in H. injection H as <- <-. auto.
Qed.

Lemma sortStrings_pair (x y : string) :
  sortStrings [x; y] = if Js.ltb y x then [y; x] else [x; y].
Proof. reflexivity. Qed.

Lemma ltb_asym (x y : string) : Js.ltb x y = true -> Js.ltb y x = false.
Proof.
  unfold Js.ltb. rewrite (JsFacts.string_compare_antisym x y).
  destruct (Js.compare y x); simpl; congruence.
Qed.

Lemma ltb_total (x y : string) :
  Js.ltb x y = false -> Js.ltb y x = false -> x = y.
Proof.
  unfold Js.ltb. rewrite (JsFacts.string_compare_antisym x y).
  destruct (Js.compare y x) eqn:E; simpl; try discriminate.
  intros _ _. symmetry. apply JsFacts.string_compare_eq_iff. exact E.
Qed.

Lemma sortStrings_pair_sym (x y : string) :
  sortStrings [x; y] = sortStrings [y; x].
Proof.
  rewrite !sortStrings_pair.
  destruct (Js.ltb y x) eqn:Eyx; destruct (Js.ltb x y) eqn:Exy;
    try reflexivity.
  - rewrite (ltb_asym _ _ Eyx) in Exy. discriminate.
  - rewrite (ltb_total _ _ Exy Eyx). reflexivity.
Qed.

End WithPlatform.
End SDKFacts.

(** C10. When the id of [m] is already queued, [enqueue(m)] replaces its
    entry by a fresh one: status pending, no attempt counted, no time and no
    error recorded, whatever the old entry held; below capacity the entry
    keeps its place in the queue. The orchestrator enqueues in this way
    when a send fails: whenever [sendMessage] returns an
    envelope that the connected transport refused, the queue holds for it an
    entry with exactly one attempt counted, whatever the queue held
    before. *)
Theorem enqueue_resets_bookkeeping
  (P : NodePlatform) (q : Queue.MessageQueue) (m : Message)
  (old : Queue.QueuedMessage) :
  Queue.get q (msgId m) = Some old ->
  Queue.get (Queue.enqueue q m) (msgId m)
  = Some {| Queue.message := m;
            Queue.status := Queue.PENDING;
            Queue.attempts := 0;
            Queue.lastAttempt := None;
            Queue.error := None |} /\
  (Queue.size q < Queue.maxSize q ->
   JsMap.keys (Queue.queue (Queue.enqueue q m)) = JsMap.keys (Queue.queue q)) /\
  (forall text sdk session w sdk' sw' port e,
      SDK.messageQueue sdk = q ->
      SDK.sendMessage text (sdk, (session, w)) = (Returned m, (sdk', sw')) ->
      SDK.transport (SDK.config sdk) = Some port ->
      SDK.portIsConnected port = true ->
      SDK.portSend port m = Thrown e ->
      1 < Queue.maxRetries q ->
      exists clock,
        Queue.get (SDK.messageQueue sdk') (msgId m)
        = Some {| Queue.message := m;
                  Queue.status := Queue.FAILED;
                  Queue.attempts := 1;
                  Queue.lastAttempt := Some clock;
                  Queue.error := Some e |}).
Proof.
  intros Hold.
  assert (Hfresh : Queue.get (Queue.enqueue q m) (msgId m)
                   = Some (Queue.freshEntry m)).
  { unfold Queue.get, Queue.enqueue. simpl. apply JsMapFacts.get_set_same. }
  split; [exact Hfresh|]. split.
  { intros Hroom. unfold Queue.enqueue, Queue.evictIfFull, Queue.size in *. simpl.
    destruct (Z.geb_spec (JsMap.size (Queue.queue q)) (Queue.maxSize q)); [lia|].
    eapply JsMapFacts.keys_set_present. exact Hold. }
  intros text sdk session w sdk' sw' port e Hq Hsend Hport Hc Hs Hmax.
  apply SDKFacts.sendMessage_returned in Hsend
    as (user & [session1 w1] & _ & _ & Hhand).
  rewrite Hport in Hhand.
  destruct (SDKFacts.handOver_failed_send port m sdk session1 w1 e Hc Hs)
    as (sdk1 & Hrun & Hqueue & _).
  rewrite Hrun in Hhand. injection Hhand as <- _.
  exists (fst (dateNow w1)).
  rewrite Hqueue, Hq.
  apply (QueueFacts.markFailed_below _ _ _ _ _ Hfresh).
  simpl. exact Hmax.
Qed.

Lemma enqueue_resets_bookkeeping_witness :
  let q := Queue.markFailed
             (Queue.enqueue Queue.defaultMessageQueue (Small.envelope "a"))
             "a" (NetworkError "down") 10 in
  Queue.get q "a"
  = Some {| Queue.message := Small.envelope "a";
            Queue.status := Queue.FAILED;
            Queue.attempts := 1;
            Queue.lastAttempt := Some 10;
            Queue.error := Some (NetworkError "down") |} /\
  Queue.get (Queue.enqueue q (Small.envelope "a")) "a"
  = Some {| Queue.message := Small.envelope "a";
            Queue.status := Queue.PENDING;
            Queue.attempts := 0;
            Queue.lastAttempt := None;
            Queue.error := None |}.
Proof.
  split; [reflexivity|].
  eapply (proj1 (enqueue_resets_bookkeeping Small.platform _ (Small.envelope "a") _ _)).
  Unshelve. 2: reflexivity.
Defined.

(** ** The connection manager *)

Module TransportFacts.
Import Transport TransportTerms.

#[local] Opaque backoffDelay.

Lemma changeSocket_last (f : Socket -> Socket) (olds : list Socket) (s : Socket) :
  changeSocket (List.length olds) f (olds ++ [s]) = olds ++ [f s].
Proof. induction olds as [|o olds IH]; simpl; [reflexivity|]. rewrite IH. reflexivity. Qed.

Lemma nth_error_last (olds : list Socket) (s : Socket) :
  nth_error (olds ++ [s]) (List.length olds) = Some s.
Proof. induction olds as [|o olds IH]; simpl; auto. Qed.

Lemma settled_spec (s : Socket) :
  settled s = true <-> s = {| readyState := WS_CLOSED; timeoutPending := false |}.
Proof.
  destruct s as [[] []]; simpl; split; intros H; try discriminate; try reflexivity;
    inversion H.
Qed.

Lemma settled_at (l : list Socket) (i : nat) (s : Socket) :
  forallb settled l = true -> nth_error l i = Some s ->
  s = {| readyState := WS_CLOSED; timeoutPending := false |}.
Proof.
  intros Hall Hnth. apply settled_spec.
  rewrite forallb_forall in Hall. apply Hall. eapply nth_error_In; eauto.
Qed.

Lemma timer_fires (n : nat) (c : WebSocketClient) :
  Backoff n c ->
  InFlight n (List.length (sockets c)) (dispatch ReconnectTimerFired c) /\
  scheduledReconnects (dispatch ReconnectTimerFired c) = scheduledReconnects c.
Proof.
  intros (Hs & Hn & Ht & Hh & Hr & Hu & Hall).
  destruct c as [w u st a t h uid r socks outs]. simpl in *. subst.
  unfold scheduledReconnects. cbn. rewrite filter_app, length_app. cbn.
  split; [|lia].
  unfold InFlight. cbn. repeat split; try congruence.
  exists socks, {| readyState := WS_CONNECTING; timeoutPending := true |}.
  cbn. repeat split; auto. discriminate.
Qed.

Lemma noise_event (n i : nat) (c : WebSocketClient) (e : Event) :
  InFlight n i c ->
  failureNoise i e = true ->
  InFlight n i (dispatch e c) /\
  scheduledReconnects (dispatch e c) = scheduledReconnects c.
Proof.
  intros (Hs & Hn & Ht & Hh & Hr & Hu & Hw & olds & s & Hsock & Hlen & Hall & Hopen) He.
  destruct c as [w u st a t h uid r socks outs]. simpl in *. subst.
  destruct e as [j|j f|j|j|j| | |user| | |m]; simpl in He; try discriminate;
    apply Nat.eqb_eq in He; subst j.
  - (* onerror *)
    unfold dispatch, readyStateAt, socketAt. cbn.
    rewrite nth_error_last. cbn.
    destruct s as [rs tp]. cbn in *.
    destruct rs; try contradiction;
      unfold onerror, handleError, clearConnectionTimeout, scheduledReconnects;
      cbn; rewrite changeSocket_last, filter_app, length_app; cbn;
      (split; [|lia]);
      unfold InFlight; cbn; repeat split; auto;
      eexists; eexists; (split; [reflexivity|]); cbn; repeat split; auto;
      discriminate.
  - (* the connect timeout *)
    unfold dispatch, socketAt. cbn. rewrite nth_error_last.
    destruct s as [rs tp]. cbn in *.
    destruct tp.
    + unfold onConnectionTimeout, clearConnectionTimeout, closeCurrent, handleError,
        scheduledReconnects.
      cbn. rewrite changeSocket_last. cbn. rewrite changeSocket_last.
      rewrite filter_app, length_app. cbn.
      split; [|lia].
      unfold InFlight; cbn; repeat split; auto.
      eexists; eexists; (split; [reflexivity|]); cbn; repeat split; auto.
      destruct rs; cbn; try discriminate. contradiction.
    + split; [|reflexivity].
      unfold InFlight; cbn; repeat split; auto.
      eexists; eexists; (split; [reflexivity|]); cbn; repeat split; auto.
Qed.

Lemma noise_run (n i : nat) (noise : list Event) :
  forall c,
    InFlight n i c ->
    forallb (failureNoise i) noise = true ->
    InFlight n i (run c noise) /\
    scheduledReconnects (run c noise) = scheduledReconnects c.
Proof.
  induction noise as [|e noise IH]; intros c Hc Hnoise; simpl in *.
  - auto.
  - apply andb_true_iff in Hnoise as [He Hrest].
    destruct (noise_event n i c e Hc He) as [Hc' Hcount].
    destruct (IH _ Hc' Hrest) as [Hc'' Hcount'].
    split; [exact Hc''|]. unfold run in *. simpl. congruence.
Qed.

Lemma attempt_closes_retry (n i : nat) (c : WebSocketClient) :
  InFlight n i c ->
  (n < RECONNECT_MAX_ATTEMPTS)%nat ->
  Backoff (S n) (dispatch (SocketClosed i) c) /\
  List.length (sockets (dispatch (SocketClosed i) c)) = S i /\
  scheduledReconnects (dispatch (SocketClosed i) c) = S (scheduledReconnects c).
Proof.
  intros (Hs & Hn & Ht & Hh & Hr & Hu & Hw & olds & s & Hsock & Hlen & Hall & Hopen) Hlt.
  destruct c as [w u st a t h uid r socks outs]. simpl in *. subst.
  unfold RECONNECT_MAX_ATTEMPTS in Hlt.
  assert (Hle : (n <=? 4)%nat = true) by (apply Nat.leb_le; lia).
  destruct s as [rs tp]. cbn in Hopen.
  destruct t as [[|]|]; try congruence;
    (destruct rs; try contradiction);
    unfold dispatch, readyStateAt, socketAt; cbn;
    rewrite nth_error_last; cbn;
    unfold onclose, setReadyState, clearConnectionTimeout, scheduledReconnects;
    cbn; rewrite !changeSocket_last; cbn; rewrite Hle; cbn;
    rewrite !filter_app, !length_app; cbn;
    (split; [|split; [rewrite ?length_app; cbn; lia|lia]]);
    unfold Backoff; cbn; repeat split; auto;
    rewrite forallb_app, Hall; reflexivity.
Qed.

Lemma attempt_closes_final (n i : nat) (c : WebSocketClient) :
  InFlight n i c ->
  (RECONNECT_MAX_ATTEMPTS <= n)%nat ->
  GaveUp (dispatch (SocketClosed i) c) /\
  reconnectAttempts (dispatch (SocketClosed i) c) = n /\
  scheduledReconnects (dispatch (SocketClosed i) c) = scheduledReconnects c.
Proof.
  intros (Hs & Hn & Ht & Hh & Hr & Hu & Hw & olds & s & Hsock & Hlen & Hall & Hopen) Hge.
  destruct c as [w u st a t h uid r socks outs]. simpl in *. subst.
  assert (Hlt : (n <? 5)%nat = false) by (apply Nat.ltb_ge; exact Hge).
  assert (Hle : (5 <=? n)%nat = true) by (apply Nat.leb_le; exact Hge).
  unfold dispatch, readyStateAt, socketAt. cbn. rewrite nth_error_last. cbn.
  destruct s as [rs tp]. cbn in *.
  destruct rs; try contradiction;
    unfold onclose, setReadyState, clearConnectionTimeout, scheduledReconnects;
    cbn; rewrite !changeSocket_last; cbn;
    unfold RECONNECT_MAX_ATTEMPTS in *; rewrite Hlt, Hle; cbn;
    rewrite !filter_app, !length_app; cbn;
    (split; [|split; [reflexivity|lia]]);
    unfold GaveUp; cbn; repeat split; auto;
    rewrite forallb_app, Hall; reflexivity.
Qed.

(** An established client is its fields: connected on its last socket. *)
Lemma established_shape (i : nat) (c : WebSocketClient) :
  established i c = true ->
  connectionState c = CONNECTED /\
  reconnectAttempts c = 0%nat /\
  shouldReconnect c = true /\
  urlValid c = true /\
  ws c = Some i /\
  reconnectTimer c <> Some true /\
  exists olds,
    sockets c = olds ++ [{| readyState := WS_OPEN; timeoutPending := false |}] /\
    List.length olds = i /\
    forallb settled olds = true.
Proof.
  unfold established. intros H.
  repeat (apply andb_true_iff in H as [H ?]).
  destruct (connectionState c); try discriminate.
  destruct (ws c) as [j|]; try discriminate.
  match goal with E : Nat.eqb i j = true |- _ => apply Nat.eqb_eq in E; subst j end.
  match goal with E : Nat.eqb (reconnectAttempts c) 0 = true |- _ =>
    apply Nat.eqb_eq in E end.
  match goal with E : Nat.eqb (S i) _ = true |- _ => apply Nat.eqb_eq in E;
    rename E into Hlen end.
  repeat split; auto.
  - destruct (reconnectTimer c) as [[|]|]; congruence.
  - unfold socketAt in *.
    destruct (nth_error (sockets c) i) as [[[] []]|] eqn:Hnth; try discriminate.
    exists (firstn i (sockets c)). repeat split; auto.
    + rewrite <- (firstn_skipn i (sockets c)) at 1. f_equal.
      pose proof (nth_error_split (sockets c) i Hnth) as (l1 & l2 & Hs & Hl1).
      rewrite Hs in *. rewrite length_app in Hlen. simpl in Hlen.
      destruct l2; [|simpl in Hlen; lia].
      rewrite <- Hl1, skipn_app, Nat.sub_diag, skipn_all. reflexivity.
    + rewrite length_firstn. lia.
Qed.

Lemma established_closes (i : nat) (c : WebSocketClient) :
  established i c = true ->
  Backoff 1 (dispatch (SocketClosed i) c) /\
  List.length (sockets (dispatch (SocketClosed i) c)) = S i /\
  scheduledReconnects (dispatch (SocketClosed i) c) = S (scheduledReconnects c).
Proof.
  intros H. apply established_shape in H
    as (Hs & Hn & Hr & Hu & Hw & Ht & olds & Hsock & Hlen & Hall).
  destruct c as [w u st a t h uid r socks outs]. simpl in *. subst.
  unfold dispatch, readyStateAt, socketAt. cbn. rewrite nth_error_last. cbn.
  unfold onclose, setReadyState, clearConnectionTimeout, scheduledReconnects.
  cbn. rewrite !changeSocket_last. cbn.
  unfold stopHeartbeat, scheduleReconnect, clearReconnectTimer.
  destruct h; cbn; (destruct t as [[|]|]; try congruence);
    cbn; rewrite !filter_app, !length_app; cbn;
    (split; [|split; [rewrite ?length_app; cbn; lia|lia]]);
    unfold Backoff; cbn; repeat split; auto;
    rewrite forallb_app, Hall; reflexivity.
Qed.

(** After giving up nothing is pending: no event of the runtime changes
    the client. *)
Lemma gaveUp_quiescent (c : WebSocketClient) (e : Event) :
  GaveUp c -> automatic e = true -> dispatch e c = c.
Proof.
  intros (Hs & Ht & Hh & Hall) He.
  destruct e as [j|j f|j|j|j| | |user| | |m]; simpl in He; try discriminate;
    unfold dispatch, readyStateAt, socketAt.
  - destruct (nth_error (sockets c) j) as [s|] eqn:E; [|reflexivity].
    rewrite (settled_at _ _ _ Hall E). reflexivity.
  - destruct (nth_error (sockets c) j) as [s|] eqn:E; [|reflexivity].
    rewrite (settled_at _ _ _ Hall E). reflexivity.
  - destruct (nth_error (sockets c) j) as [s|] eqn:E; [|reflexivity].
    rewrite (settled_at _ _ _ Hall E). reflexivity.
  - destruct (nth_error (sockets c) j) as [s|] eqn:E; [|reflexivity].
    rewrite (settled_at _ _ _ Hall E). reflexivity.
  - destruct (nth_error (sockets c) j) as [s|] eqn:E; [|reflexivity].
    rewrite (settled_at _ _ _ Hall E). reflexivity.
  - destruct (reconnectTimer c) as [[|]|]; congruence.
  - rewrite Hh. reflexivity.
Qed.

Lemma gaveUp_run (c : WebSocketClient) (events : list Event) :
  GaveUp c -> forallb automatic events = true -> run c events = c.
Proof.
  intros Hc. induction events as [|e events IH]; simpl; intros H; [reflexivity|].
  apply andb_true_iff in H as [He Hrest].
  unfold run in *. simpl. rewrite (gaveUp_quiescent c e Hc He). auto.
Qed.

(** *** Which methods schedule a reconnect *)

Lemma sched_emit (o : Output) (c : WebSocketClient) :
  scheduledReconnects (emit o c)
  = (scheduledReconnects c + if isScheduled o then 1 else 0)%nat.
Proof.
  unfold scheduledReconnects, emit. cbn. rewrite filter_app, length_app.
  destruct o; reflexivity.
Qed.

Lemma sched_setSockets v c :
  scheduledReconnects (setSockets v c) = scheduledReconnects c.
Proof. reflexivity. Qed.

Lemma sched_setWs v c :
  scheduledReconnects (setWs v c) = scheduledReconnects c.
Proof. reflexivity. Qed.

Lemma sched_setHeartbeatTimer v c :
  scheduledReconnects (setHeartbeatTimer v c) = scheduledReconnects c.
Proof. reflexivity. Qed.

Lemma sched_updateState s c :
  scheduledReconnects (updateState s c) = scheduledReconnects c.
Proof.
  unfold updateState. destruct (stateEqb _ _); [reflexivity|].
  rewrite sched_emit. cbn. apply Nat.add_0_r.
Qed.

Lemma sched_handleError e c :
  scheduledReconnects (handleError e c) = scheduledReconnects c.
Proof. unfold handleError. rewrite sched_emit. cbn. apply Nat.add_0_r. Qed.

Lemma sched_clearReconnectTimer c :
  scheduledReconnects (clearReconnectTimer c) = scheduledReconnects c.
Proof. unfold clearReconnectTimer. destruct (reconnectTimer c); reflexivity. Qed.

Lemma sched_stopHeartbeat c :
  scheduledReconnects (stopHeartbeat c) = scheduledReconnects c.
Proof. unfold stopHeartbeat. destruct (heartbeatTimer c); reflexivity. Qed.

Lemma sched_closeCurrent c :
  scheduledReconnects (closeCurrent c) = scheduledReconnects c.
Proof. unfold closeCurrent. destruct (ws c); reflexivity. Qed.

Lemma sched_doConnect c :
  scheduledReconnects (doConnect c) = scheduledReconnects c.
Proof.
  unfold doConnect. destruct (stateEqb _ _); [reflexivity|].
  destruct (urlValid (updateState CONNECTING c)).
  - rewrite sched_setSockets, sched_setWs. apply sched_updateState.
  - rewrite sched_handleError. apply sched_updateState.
Qed.

Lemma sched_disconnect c :
  scheduledReconnects (disconnect c) = scheduledReconnects c.
Proof.
  unfold disconnect. rewrite sched_updateState.
  destruct (ws _).
  - rewrite sched_setWs, sched_closeCurrent, sched_stopHeartbeat,
      sched_clearReconnectTimer.
    reflexivity.
  - rewrite sched_stopHeartbeat, sched_clearReconnectTimer. reflexivity.
Qed.

Lemma sched_onopen i c :
  scheduledReconnects (onopen i c) = scheduledReconnects c.
Proof.
  unfold onopen, startHeartbeat.
  rewrite sched_setHeartbeatTimer, sched_stopHeartbeat, sched_updateState.
  reflexivity.
Qed.

Lemma sched_onConnectionTimeout c :
  scheduledReconnects (onConnectionTimeout c) = scheduledReconnects c.
Proof.
  unfold onConnectionTimeout. destruct (stateEqb _ _); [|reflexivity].
  rewrite sched_handleError. apply sched_closeCurrent.
Qed.

Lemma attempts_stopHeartbeat c :
  reconnectAttempts (stopHeartbeat c) = reconnectAttempts c.
Proof. unfold stopHeartbeat. destruct (heartbeatTimer c); reflexivity. Qed.

Lemma attempts_updateState s c :
  reconnectAttempts (updateState s c) = reconnectAttempts c.
Proof. unfold updateState. destruct (stateEqb _ _); reflexivity. Qed.

(** [onclose] is the one caller of [scheduleReconnect], and calls it only
    below the ceiling. *)
Lemma sched_onclose i c :
  scheduledReconnects (onclose i c) <> scheduledReconnects c ->
  (reconnectAttempts c < RECONNECT_MAX_ATTEMPTS)%nat.
Proof.
  unfold onclose.
  set (c1 := stopHeartbeat (clearConnectionTimeout i c)).
  assert (H1 : scheduledReconnects c1 = scheduledReconnects c)
    by (unfold c1; rewrite sched_stopHeartbeat; reflexivity).
  assert (A1 : reconnectAttempts c1 = reconnectAttempts c)
    by (unfold c1; rewrite attempts_stopHeartbeat; reflexivity).
  destruct (negb (stateEqb (connectionState c1) DISCONNECTED)); [|congruence].
  set (c2 := updateState DISCONNECTED c1).
  assert (H2 : scheduledReconnects c2 = scheduledReconnects c)
    by (unfold c2; rewrite sched_updateState; exact H1).
  assert (A2 : reconnectAttempts c2 = reconnectAttempts c)
    by (unfold c2; rewrite attempts_updateState; exact A1).
  destruct (shouldReconnect c2 && (reconnectAttempts c2 <? RECONNECT_MAX_ATTEMPTS)%nat)
    eqn:Hguard.
  - intros _. apply andb_true_iff in Hguard as [_ Hlt].
    apply Nat.ltb_lt in Hlt. rewrite A2 in Hlt. exact Hlt.
  - destruct (RECONNECT_MAX_ATTEMPTS <=? reconnectAttempts c2)%nat; [|congruence].
    rewrite sched_handleError, sched_updateState. congruence.
Qed.

(** [scheduleReconnect] runs only from [onclose], behind its guard. *)
Lemma schedule_guarded (c : WebSocketClient) (e : Event) :
  scheduledReconnects (dispatch e c) <> scheduledReconnects c ->
  (reconnectAttempts c < RECONNECT_MAX_ATTEMPTS)%nat.
Proof.
  assert (quiet : forall c' : WebSocketClient,
             scheduledReconnects c' = scheduledReconnects c ->
             scheduledReconnects c' <> scheduledReconnects c ->
             (reconnectAttempts c < RECONNECT_MAX_ATTEMPTS)%nat)
    by (intros c' Heq Hne; contradiction).
  destruct e as [j|j f|j|j|j| | |user| | |m]; unfold dispatch.
  - destruct (readyStateAt j c) as [[]|]; try (apply quiet; reflexivity).
    apply quiet. rewrite sched_onopen. reflexivity.
  - destruct (readyStateAt j c) as [[]|]; try (apply quiet; reflexivity).
    apply quiet. unfold onmessage. destruct f; try reflexivity.
    + rewrite sched_emit. apply Nat.add_0_r.
    + apply sched_handleError.
  - unfold onerror.
    destruct (readyStateAt j c) as [[]|]; try (apply quiet; reflexivity);
      apply quiet; rewrite sched_handleError; reflexivity.
  - destruct (readyStateAt j c) as [[]|]; try (apply quiet; reflexivity);
      intros H; exact (sched_onclose j (setReadyState j WS_CLOSED c) H).
  - destruct (socketAt j c) as [[? []]|]; try (apply quiet; reflexivity).
    apply quiet. rewrite sched_onConnectionTimeout. reflexivity.
  - destruct (reconnectTimer c) as [[]|]; try (apply quiet; reflexivity).
    apply quiet. rewrite sched_doConnect. reflexivity.
  - apply quiet. unfold heartbeat. destruct (heartbeatTimer c); try reflexivity.
    destruct (isConnected c); try reflexivity.
    destruct (ws c); try reflexivity.
    rewrite sched_emit. apply Nat.add_0_r.
  - apply quiet. unfold connect. rewrite sched_doConnect. reflexivity.
  - apply quiet. apply sched_disconnect.
  - apply quiet. unfold reconnect.
    destruct (currentUserId _) as [user|]; [destruct (truthy user)|]; cbn [snd];
      rewrite ?sched_doConnect, sched_disconnect; reflexivity.
  - apply quiet. unfold send. destruct (isConnected c); try reflexivity.
    destruct (ws c); cbn [snd]; try reflexivity.
    rewrite sched_emit. apply Nat.add_0_r.
Qed.

End TransportFacts.

Module ReconnectFacts.
Import Transport TransportTerms TransportFacts.

Lemma run_app (c : WebSocketClient) (a b : list Event) :
  run c (a ++ b) = run (run c a) b.
Proof. unfold run. apply fold_left_app. Qed.

Lemma run_failedAttempt (c : WebSocketClient) (j : nat) (noise : list Event) :
  run c (failedAttempt j noise)
  = dispatch (SocketClosed j) (run (dispatch ReconnectTimerFired c) noise).
Proof. unfold failedAttempt. cbn [run fold_left]. fold (run (dispatch ReconnectTimerFired c) (noise ++ [SocketClosed j])). rewrite run_app. reflexivity. Qed.

(** A failed attempt below the ceiling leads to the next backoff. *)
Lemma failed_attempt_retry (n j : nat) (c : WebSocketClient) (noise : list Event) :
  Backoff n c ->
  List.length (sockets c) = j ->
  forallb (failureNoise j) noise = true ->
  (n < RECONNECT_MAX_ATTEMPTS)%nat ->
  Backoff (S n) (run c (failedAttempt j noise)) /\
  List.length (sockets (run c (failedAttempt j noise))) = S j /\
  scheduledReconnects (run c (failedAttempt j noise)) = S (scheduledReconnects c).
Proof.
  intros Hc <- Hnoise Hlt. rewrite run_failedAttempt.
  destruct (timer_fires n c Hc) as [Hfly Hcount1].
  destruct (noise_run n _ noise _ Hfly Hnoise) as [Hfly' Hcount2].
  destruct (attempt_closes_retry n _ _ Hfly' Hlt) as (Hback & Hlen & Hcount3).
  split; [exact Hback|]. split; [exact Hlen|congruence].
Qed.

(** A failed attempt at the ceiling is the last. *)
Lemma failed_attempt_final (n j : nat) (c : WebSocketClient) (noise : list Event) :
  Backoff n c ->
  List.length (sockets c) = j ->
  forallb (failureNoise j) noise = true ->
  (RECONNECT_MAX_ATTEMPTS <= n)%nat ->
  GaveUp (run c (failedAttempt j noise)) /\
  reconnectAttempts (run c (failedAttempt j noise)) = n /\
  scheduledReconnects (run c (failedAttempt j noise)) = scheduledReconnects c.
Proof.
  intros Hc <- Hnoise Hge. rewrite run_failedAttempt.
  destruct (timer_fires n c Hc) as [Hfly Hcount1].
  destruct (noise_run n _ noise _ Hfly Hnoise) as [Hfly' Hcount2].
  destruct (attempt_closes_final n _ _ Hfly' Hge) as (Hgave & Hatt & Hcount3).
  split; [exact Hgave|]. split; [exact Hatt|congruence].
Qed.

Lemma backingOff_spec (n : nat) (c : WebSocketClient) :
  backingOff n c = true <-> Backoff n c.
Proof.
  unfold backingOff, Backoff. rewrite !andb_true_iff, Nat.eqb_eq, negb_true_iff.
  destruct (connectionState c); simpl;
    destruct (reconnectTimer c) as [[|]|]; simpl; intuition congruence.
Qed.

(** The first [connect] of a new client is an attempt under way, with no
    reconnect counted yet. *)
Lemma first_connect_in_flight (user : string) :
  InFlight 0 0 (dispatch (CallConnect user) (newWebSocketClient true)).
Proof.
  unfold InFlight. cbn. repeat split; try congruence.
  exists [], {| readyState := WS_CONNECTING; timeoutPending := true |}.
  cbn. repeat split; congruence.
Qed.

End ReconnectFacts.

(** C9, as amended. Take a client for which the first automatic reconnect
    has been scheduled and every socket it created before has closed:
    reconnecting, one attempt counted, timer pending, earlier sockets
    closed. This is where a client stands after an established
    connection has dropped, and also after its first [connect] has failed.
    Let each of the five reconnect attempts that follow fail: its socket
    closes without opening, after any errors and with or without the connect
    timeout. Then the state is [FAILED], the attempt counter is 5, four more
    reconnects were scheduled and none is pending, and no event the runtime
    can still raise changes the client: no further reconnect is ever
    scheduled. In any state and on any event, [scheduleReconnect] runs only
    while the attempt counter is below 5. *)
Theorem five_failed_reconnects_are_final
  (c : Transport.WebSocketClient) (noises : list (list Transport.Event)) :
  TransportTerms.backingOff 1 c = true ->
  List.length noises = 5%nat ->
  TransportTerms.noisesFrom (List.length (Transport.sockets c)) noises = true ->
  let c' :=
    Transport.run c
      (TransportTerms.failedAttempts (List.length (Transport.sockets c)) noises) in
  (Transport.connectionState c' = Transport.FAILED /\
   Transport.reconnectAttempts c' = 5%nat /\
   Transport.reconnectTimer c' <> Some true /\
   Transport.scheduledReconnects c' = (Transport.scheduledReconnects c + 4)%nat /\
   forall events,
     forallb Transport.automatic events = true ->
     Transport.run c' events = c') /\
  (forall c0 e,
      Transport.scheduledReconnects (Transport.dispatch e c0)
      <> Transport.scheduledReconnects c0 ->
      (Transport.reconnectAttempts c0 < 5)%nat) /\
  (forall c0 i,
      TransportTerms.established i c0 = true ->
      TransportTerms.backingOff 1
        (Transport.dispatch (Transport.SocketClosed i) c0) = true) /\
  (forall user noise,
      forallb (TransportTerms.failureNoise 0) noise = true ->
      TransportTerms.backingOff 1
        (Transport.run (Transport.newWebSocketClient true)
           (Transport.CallConnect user :: noise ++ [Transport.SocketClosed 0]))
      = true).
Proof.
  intros Hback Hlen Hnoise c'.
  split; [|split; [|split]].
  - apply ReconnectFacts.backingOff_spec in Hback. rename Hback into B1.
    destruct noises as [|n1 [|n2 [|n3 [|n4 [|n5 [|]]]]]]; try discriminate.
    cbn [TransportTerms.noisesFrom] in Hnoise.
    repeat (apply andb_true_iff in Hnoise as [? Hnoise]).
    remember (List.length (Transport.sockets c)) as j eqn:L1. symmetry in L1.
    assert (E : c' = Transport.run
                       (Transport.run
                          (Transport.run
                             (Transport.run
                                (Transport.run c (TransportTerms.failedAttempt j n1))
                                (TransportTerms.failedAttempt (S j) n2))
                             (TransportTerms.failedAttempt (S (S j)) n3))
                          (TransportTerms.failedAttempt (S (S (S j))) n4))
                       (TransportTerms.failedAttempt (S (S (S (S j)))) n5)).
    { unfold c'. cbn [TransportTerms.failedAttempts].
      rewrite app_nil_r, !ReconnectFacts.run_app. reflexivity. }
    assert (Hlt : forall n, (n < 5)%nat ->
                            (n < Transport.RECONNECT_MAX_ATTEMPTS)%nat)
      by (intros; assumption).
    destruct (ReconnectFacts.failed_attempt_retry 1 j c n1 B1 L1)
      as (B2 & L2 & S2); [assumption|apply Hlt; lia|].
    destruct (ReconnectFacts.failed_attempt_retry 2 (S j) _ n2 B2 L2)
      as (B3 & L3 & S3); [assumption|apply Hlt; lia|].
    destruct (ReconnectFacts.failed_attempt_retry 3 (S (S j)) _ n3 B3 L3)
      as (B4 & L4 & S4); [assumption|apply Hlt; lia|].
    destruct (ReconnectFacts.failed_attempt_retry 4 (S (S (S j))) _ n4 B4 L4)
      as (B5 & L5 & S5); [assumption|apply Hlt; lia|].
    destruct (ReconnectFacts.failed_attempt_final 5 (S (S (S (S j)))) _ n5 B5 L5)
      as (G & A & S6); [assumption|apply Nat.le_refl|].
    rewrite <- E in *.
    split; [apply G|]. split; [exact A|]. split; [apply G|].
    split; [lia|].
    intros events Hev. apply TransportFacts.gaveUp_run; assumption.
  - intros c0 e. apply TransportFacts.schedule_guarded.
  - intros c0 i Hest. apply ReconnectFacts.backingOff_spec.
    apply (TransportFacts.established_closes i c0 Hest).
  - intros user noise Hn. apply ReconnectFacts.backingOff_spec.
    change (Transport.run (Transport.newWebSocketClient true)
              (Transport.CallConnect user :: noise ++ [Transport.SocketClosed 0]))
      with (Transport.run
              (Transport.dispatch (Transport.CallConnect user)
                 (Transport.newWebSocketClient true))
              (noise ++ [Transport.SocketClosed 0])).
    rewrite ReconnectFacts.run_app.
    destruct (TransportFacts.noise_run 0 0 noise _
                (ReconnectFacts.first_connect_in_flight user) Hn) as [Hfly _].
    apply (TransportFacts.attempt_closes_retry 0 0 _ Hfly).
    unfold Transport.RECONNECT_MAX_ATTEMPTS. lia.
Qed.

Lemma five_failed_reconnects_are_final_witness :
  let c := Transport.run (Transport.newWebSocketClient true)
             [Transport.CallConnect "alice"; Transport.SocketOpened 0;
              Transport.SocketClosed 0] in
  let noises :=
    [[Transport.SocketErrored 1]; [];
     [Transport.ConnectionTimeoutFired 3];
     [Transport.SocketErrored 4; Transport.SocketErrored 4];
     [Transport.ConnectionTimeoutFired 5; Transport.SocketErrored 5]] in
  TransportTerms.backingOff 1 c = true /\
  Transport.connectionState (Transport.run c (TransportTerms.failedAttempts 1 noises))
  = Transport.FAILED.
Proof.
  split; [reflexivity|].
  apply (five_failed_reconnects_are_final
           (Transport.run (Transport.newWebSocketClient true)
              [Transport.CallConnect "alice"; Transport.SocketOpened 0;
               Transport.SocketClosed 0])
           [[Transport.SocketErrored 1]; [];
            [Transport.ConnectionTimeoutFired 3];
            [Transport.SocketErrored 4; Transport.SocketErrored 4];
            [Transport.ConnectionTimeoutFired 5; Transport.SocketErrored 5]]);
    reflexivity.
Defined.

(** C9, as stated, fails when a socket of an earlier [connect()] is still
    alive: the handlers of a socket change the client whether or not it is
    the current socket. After [connect(); disconnect(); connect()] the close
    of the first socket schedules a reconnect while the second socket is
    still connecting; five reconnect attempts then fail (the connect timeout
    of the second socket expires in between, and closes nothing of its own),
    and the client is FAILED with five reconnects scheduled. When the second
    socket now opens and later closes, events the runtime raises on its
    own, the client is reconnecting again and a sixth reconnect is
    scheduled. *)
Lemma stale_socket_reschedules_after_failed :
  let c :=
    Transport.run (Transport.newWebSocketClient true)
      [Transport.CallConnect "alice"; Transport.CallDisconnect;
       Transport.CallConnect "alice"; Transport.SocketClosed 0;
       Transport.ReconnectTimerFired; Transport.SocketClosed 2;
       Transport.ReconnectTimerFired; Transport.SocketClosed 3;
       Transport.ReconnectTimerFired; Transport.SocketClosed 4;
       Transport.ConnectionTimeoutFired 1;
       Transport.ReconnectTimerFired; Transport.SocketClosed 5;
       Transport.ReconnectTimerFired; Transport.SocketClosed 6] in
  let later := [Transport.SocketOpened 1; Transport.SocketClosed 1] in
  Transport.connectionState c = Transport.FAILED /\
  Transport.reconnectAttempts c = 5%nat /\
  Transport.scheduledReconnects c = 5%nat /\
  forallb Transport.automatic later = true /\
  Transport.connectionState (Transport.run c later) = Transport.RECONNECTING /\
  Transport.reconnectTimer (Transport.run c later) = Some true /\
  Transport.scheduledReconnects (Transport.run c later) = 6%nat.
Proof. vm_compute. repeat split; reflexivity. Qed.

(** ** Further properties: the codec and the sessions *)

Module CodecMore.
Import NodeCrypto E2E CodecTerms CodecFacts CodecProps.
Section WithPlatform.
Context {P : NodePlatform} {HB : Base64Laws P} {HG : GcmLaws P}.

Lemma usable_drawn {HE : EntropyLaws P} (secret : Buffer.t) (w : world) :
  List.length secret = 32%nat ->
  usable secret (fst (randomBytes IV_LENGTH w)) = true.
Proof.
  intros HK. unfold usable. rewrite HK, randomBytes_length. reflexivity.
Qed.

(** [encryptMessage] under a 32-byte key: it returns, and what it returns. *)
Lemma encryptMessage_eq {HE : EntropyLaws P} text (secret : Buffer.t) (w : world) :
  List.length secret = 32%nat ->
  exists enc,
    encryptMessage text secret w = (Returned enc, snd (randomBytes IV_LENGTH w)) /\
    encryptWithNonce (fst (randomBytes IV_LENGTH w)) text secret = Returned enc /\
    decryptMessage (encCiphertext enc) (encIv enc) secret = Returned (Buffer.toUtf8 (Buffer.fromUtf8 text)).
Proof.
  intros HK. pose proof (usable_drawn secret w HK) as Hu.
  unfold encryptMessage.
  destruct (randomBytes IV_LENGTH w) as [nonce w'] eqn:E. cbn [fst snd] in *.
  destruct (encryptWithNonce nonce text secret) as [enc|e] eqn:Henc.
  - exists enc. split; [reflexivity|]. split; [reflexivity|].
    exact (decrypt_encryptWithNonce _ _ _ _ Hu Henc).
  - rewrite (encryptWithNonce_eq _ _ _ Hu) in Henc. discriminate.
Qed.

End WithPlatform.
End CodecMore.

(** X1. Under a 32-byte key [encryptMessage] returns; the nonce it reports
    decodes to 12 bytes, and its ciphertext decodes to as many bytes as the
    UTF-8 text has, plus the 16 bytes of the tag. *)
Theorem encryptMessage_output_lengths
  (P : NodePlatform) (HB : Base64Laws P) (HG : GcmLaws P) (HE : EntropyLaws P)
  (plaintext : string) (K : Buffer.t) (w : world) :
  List.length K = 32%nat ->
  exists enc w',
    E2E.encryptMessage plaintext K w = (Returned enc, w') /\
    List.length (base64ToBuffer (E2E.encIv enc)) = 12%nat /\
    List.length (base64ToBuffer (E2E.encCiphertext enc))
    = (List.length (Buffer.fromUtf8 plaintext) + 16)%nat.
Proof.
  intros HK.
  destruct (CodecMore.encryptMessage_eq plaintext K w HK) as (enc & Hrun & Henc & _).
  exists enc, (snd (randomBytes E2E.IV_LENGTH w)). split; [exact Hrun|].
  rewrite (CodecFacts.encryptWithNonce_eq _ _ _ (CodecMore.usable_drawn K w HK)) in Henc.
  injection Henc as <-. cbn [E2E.encCiphertext E2E.encIv].
  unfold base64ToBuffer, bufferToBase64. rewrite !base64_decode_encode.
  split; [apply randomBytes_length|].
  rewrite length_app, gcm_tag_length, aes256_ctr_length. reflexivity.
Qed.

Lemma encryptMessage_output_lengths_witness :
  exists enc w',
    E2E.encryptMessage (P := Small.platform) "hi" (repeat "001"%byte 32) 0%nat
    = (Returned enc, w') /\
    List.length (base64ToBuffer (P := Small.platform) (E2E.encIv enc)) = 12%nat /\
    List.length (base64ToBuffer (P := Small.platform) (E2E.encCiphertext enc))
    = (List.length (Buffer.fromUtf8 "hi") + 16)%nat.
Proof.
  apply (encryptMessage_output_lengths Small.platform SmallFacts.base64
           SmallFacts.gcm SmallFacts.entropy "hi" (repeat "001"%byte 32) 0%nat).
  reflexivity.
Defined.



Module KeyMore.
Import E2E KeyTerms.
Section WithPlatform.
Context {P : NodePlatform} {HD : EcdhLaws P} {HK : KdfLaws P}.

Lemma derive_agree (A B : KeyPair) :
  validIdentity A = true ->
  validIdentity B = true ->
  exists k,
    deriveSharedSecret A (kpPublicKey B) = Returned k /\
    deriveSharedSecret B (kpPublicKey A) = Returned k /\
    List.length k = 32%nat.
Proof.
  intros HA HB. unfold validIdentity in *.
  rewrite !KeyFacts.deriveSharedSecret_eq.
  rewrite (ecdh_commutes _ _ _ _ HA HB).
  pose proof (ecdh_total _ _ _ _ HB HA) as Htot.
  destruct (ecdh_computeSecret _ _) as [shared|]; [|contradiction].
  unfold saltOf.
  rewrite (KeyFacts.orderedPair_sym (base64ToBuffer (kpPublicKey B))).
  eexists. split; [reflexivity|]. split; [reflexivity|].
  apply pbkdf2_length.
Qed.

End WithPlatform.
End KeyMore.

Module SessionMore.
Import E2E Chat SessionTerms IdentityTerms.
Section WithPlatform.
Context {P : NodePlatform} {HB : Base64Laws P} {HG : GcmLaws P}
        {HE : EntropyLaws P}.

Lemma initialize_eq (this : ChatSession) :
  initialize this =
  match deriveSharedSecret (identityOf (userA this)) (publicKey (userB this)) with
  | Returned k => (Returned tt, setSharedSecret this k)
  | Thrown e => (Thrown e, this)
  end.
Proof. reflexivity. Qed.

(** [encrypt] on a session that holds a 32-byte key. *)
Lemma encrypt_with_key this k text sender w :
  sharedSecret this = Some k ->
  List.length k = 32%nat ->
  exists m w',
    encrypt text sender (this, w) = (Returned m, (this, w')) /\
    decryptMessage (ciphertext m) (iv m) k = Returned (Buffer.toUtf8 (Buffer.fromUtf8 text)) /\
    senderId m = sender /\
    receiverId m = Some (counterpart this sender) /\
    groupId m = None /\
    media m = None.
Proof.
  intros Hk Hlen.
  destruct (CodecMore.encryptMessage_eq text k w Hlen) as (enc & Hrun & _ & Hdec).
  unfold encrypt, bind, onFst, onSnd, readStore, ret. cbn [fst snd].
  rewrite Hk. cbn [fst snd]. rewrite Hk. cbn [fst snd]. rewrite Hrun.
  unfold generateUUID, now. cbn [fst snd].
  destruct (randomUUID _) as [id w1]. cbn [fst snd].
  destruct (dateNow w1) as [ts w2]. cbn [fst snd].
  eexists; eexists; split; [reflexivity|]. cbn. auto.
Qed.

(** [encrypt] derives the key of a session that has none, and goes on. *)
Lemma encrypt_initializes this s' k text sender w :
  sharedSecret this = None ->
  initialize this = (Returned tt, s') ->
  sharedSecret s' = Some k ->
  encrypt text sender (this, w) = encrypt text sender (s', w).
Proof.
  intros Hnone Hinit Hsome.
  unfold encrypt, bind, onFst, readStore, ret. cbn [fst snd].
  rewrite Hnone. cbn [fst snd]. rewrite Hinit.
  repeat (progress (cbn [fst snd]; try rewrite Hsome)). reflexivity.
Qed.

(** [encrypt] on a new session whose key derivation succeeds. *)
Lemma encrypt_new sid a b k text sender w :
  deriveSharedSecret (identityOf a) (publicKey b) = Returned k ->
  List.length k = 32%nat ->
  let s' := setSharedSecret (newChatSession sid a b) k in
  exists m w',
    encrypt text sender (newChatSession sid a b, w) = (Returned m, (s', w')) /\
    decryptMessage (ciphertext m) (iv m) k = Returned (Buffer.toUtf8 (Buffer.fromUtf8 text)) /\
    senderId m = sender /\
    receiverId m = Some (counterpart s' sender) /\
    groupId m = None /\
    media m = None.
Proof.
  intros Hd Hlen s'.
  destruct (encrypt_with_key s' k text sender w eq_refl Hlen)
    as (m & w' & Hrun & Hrest).
  exists m, w'. split; [|exact Hrest].
  rewrite (encrypt_initializes (newChatSession sid a b) s' k); try reflexivity.
  - exact Hrun.
  - rewrite initialize_eq. cbn [userA userB newChatSession]. rewrite Hd.
    reflexivity.
Qed.

Lemma decrypt_with_key this k m user :
  sharedSecret this = Some k ->
  participant this user = true ->
  decrypt m user this = (decryptMessage (ciphertext m) (iv m) k, this).
Proof.
  intros Hk Hp. unfold decrypt, bind, readStore, ret, liftOutcome.
  rewrite (SessionFacts.needsInitializeFor_participant this user k Hk), Hp.
  cbn. rewrite Hk. reflexivity.
Qed.

Lemma decrypt_new sid a b k m user :
  keyFor (newChatSession sid a b) user = Returned k ->
  decrypt m user (newChatSession sid a b)
  = (decryptMessage (ciphertext m) (iv m) k,
     setSharedSecret (newChatSession sid a b) k).
Proof.
  intros Hk. unfold decrypt, bind, readStore, ret, liftOutcome.
  cbn [needsInitializeFor sharedSecret newChatSession].
  rewrite SessionFacts.initializeForUser_eq, Hk. reflexivity.
Qed.

End WithPlatform.
End SessionMore.

(** X3. What one participant encrypts in a new session, the other one
    decrypts: with a session object of their own, built as the orchestrator
    builds it (the reader first) or, when the two ids differ, in the order
    of the sender; and either participant reads it on the session object
    that encrypted it. What is read is the well-formed form of the text
    (a surrogate outside a pair has become U+FFFD), so a well-formed text
    is read as it was written. The envelope names the sender and the other
    participant as receiver. *)
Theorem session_roundtrip_between_participants
  (P : NodePlatform) (HB : Base64Laws P) (HG : GcmLaws P) (HE : EntropyLaws P)
  (HD : EcdhLaws P) (HK : KdfLaws P)
  (A B : User) (sid text : string) (w : world) :
  KeyTerms.validIdentity (IdentityTerms.identityOf A) = true ->
  KeyTerms.validIdentity (IdentityTerms.identityOf B) = true ->
  Js.valid text = true ->
  exists m s' w',
    Chat.encrypt text (userId A) (Chat.newChatSession sid A B, w)
    = (Returned m, (s', w')) /\
    senderId m = userId A /\
    receiverId m = Some (userId B) /\
    (forall sid',
        fst (Chat.decrypt m B (Chat.newChatSession sid' B A)) = Returned (Js.toWellFormed text)) /\
    (userId A <> userId B ->
     forall sid',
       fst (Chat.decrypt m B (Chat.newChatSession sid' A B)) = Returned (Js.toWellFormed text)) /\
    fst (Chat.decrypt m B s') = Returned (Js.toWellFormed text) /\
    fst (Chat.decrypt m A s') = Returned (Js.toWellFormed text) /\
    (Js.isWellFormed text = true -> Js.toWellFormed text = text).
Proof.
  intros HA HB' Hvalid.
  destruct (KeyMore.derive_agree _ _ HA HB') as (k & Hab & Hba & Hlen).
  cbn [IdentityTerms.identityOf kpPublicKey] in Hab, Hba.
  destruct (SessionMore.encrypt_new sid A B k text (userId A) w Hab Hlen)
    as (m & w' & Hrun & Hdec & Hs & Hr & _).
  rewrite (BufferFacts.toUtf8_fromUtf8 text Hvalid) in Hdec.
  exists m, (Chat.setSharedSecret (Chat.newChatSession sid A B) k), w'.
  split; [exact Hrun|]. split; [exact Hs|].
  split.
  { rewrite Hr. unfold Chat.counterpart. cbn. rewrite JsFacts.string_eqb_refl. reflexivity. }
  split.
  { intros sid'. rewrite (SessionMore.decrypt_new sid' B A k m B); [exact Hdec|].
    unfold SessionTerms.keyFor. cbn. rewrite JsFacts.string_eqb_refl. exact Hba. }
  split.
  { intros Hne sid'. rewrite (SessionMore.decrypt_new sid' A B k m B); [exact Hdec|].
    unfold SessionTerms.keyFor. cbn.
    destruct (Js.eqb (userId B) (userId A)) eqn:E.
    - apply JsFacts.string_eqb_eq in E. congruence.
    - exact Hba. }
  split; [|split].
  - rewrite (SessionMore.decrypt_with_key (Chat.setSharedSecret (Chat.newChatSession sid A B) k) k m B eq_refl); [exact Hdec|].
    unfold SessionTerms.participant. cbn. rewrite JsFacts.string_eqb_refl.
    apply orb_true_r.
  - rewrite (SessionMore.decrypt_with_key (Chat.setSharedSecret (Chat.newChatSession sid A B) k) k m A eq_refl); [exact Hdec|].
    unfold SessionTerms.participant. cbn. rewrite JsFacts.string_eqb_refl. reflexivity.
  - intros Hw. now apply JsFacts.toWellFormed_id.
Qed.

Lemma session_roundtrip_between_participants_witness :
  exists m s' w',
    Chat.encrypt (P := Small.platform) "hi" "alice"
      (Chat.newChatSession "alice-bob" Small.alice Small.bob, 0%nat)
    = (Returned m, (s', w')) /\
    fst (Chat.decrypt (P := Small.platform) m Small.bob
           (Chat.newChatSession "alice-bob" Small.bob Small.alice))
    = Returned "hi".
Proof.
  destruct (session_roundtrip_between_participants Small.platform
              SmallFacts.base64 SmallFacts.gcm SmallFacts.entropy
              SmallFacts.ecdh SmallFacts.kdf
              Small.alice Small.bob "alice-bob" "hi" 0%nat
              eq_refl eq_refl eq_refl)
    as (m & s' & w' & Hrun & _ & _ & Hdec & _).
  exists m, s', w'. split; [exact Hrun|]. apply Hdec.
Defined.

Module GroupFacts.
Import E2E GroupCrypto GroupChat GroupTerms.
Section WithPlatform.
Context {P : NodePlatform} {HB : Base64Laws P} {HG : GcmLaws P}
        {HE : EntropyLaws P} {HK : KdfLaws P}.

Lemma keyOf_length (id : string) : List.length (keyOf id) = 32%nat.
Proof.
  unfold keyOf, deriveGroupKey. cbn [key].
  unfold base64ToBuffer, bufferToBase64. rewrite base64_decode_encode.
  apply pbkdf2_length.
Qed.

Lemma group_initialize_new (g : Group) :
  initialize (newGroupSession g) = (Returned tt, ready g).
Proof. reflexivity. Qed.

Lemma group_encrypt_new g text sender w :
  exists enc,
    encryptMessage text (keyOf (grpId g)) w
    = (Returned enc, snd (randomBytes IV_LENGTH w)) /\
    encrypt text sender (newGroupSession g, w)
    = (Returned
         {| msgId := fst (randomUUID (snd (randomBytes IV_LENGTH w)));
            senderId := sender;
            receiverId := None;
            groupId := Some (grpId g);
            ciphertext := encCiphertext enc;
            iv := encIv enc;
            timestamp :=
              fst (dateNow (snd (randomUUID (snd (randomBytes IV_LENGTH w)))));
            msgType := TextMessage;
            media := None |},
       (ready g,
        snd (dateNow (snd (randomUUID (snd (randomBytes IV_LENGTH w))))))) /\
    decryptMessage (encCiphertext enc) (encIv enc) (keyOf (grpId g))
    = Returned (Buffer.toUtf8 (Buffer.fromUtf8 text)).
Proof.
  destruct (CodecMore.encryptMessage_eq text (keyOf (grpId g)) w
              (keyOf_length _)) as (enc & Hrun & _ & Hdec).
  exists enc. split; [exact Hrun|]. split; [|exact Hdec].
  unfold encrypt, bind, onFst, onSnd, readStore, ret. cbn [fst snd].
  unfold initialize. cbn [fst snd groupKey newGroupSession group].
  fold (keyOf (grpId g)). rewrite Hrun. cbn [fst snd].
  unfold generateUUID, now.
  destruct (randomUUID _) as [id w1]. cbn [fst snd].
  destruct (dateNow w1) as [ts w2]. reflexivity.
Qed.

Lemma group_decrypt_new g m :
  decrypt m (newGroupSession g)
  = (decryptMessage (ciphertext m) (iv m) (keyOf (grpId g)), ready g).
Proof. reflexivity. Qed.

Lemma decryptMedia_ready g m :
  fst (decryptMedia m (ready g))
  = match media m with
    | None => Thrown (PlainError "Message does not contain media")
    | Some attachment =>
        match decryptMessage (ciphertext m) (iv m) (keyOf (grpId g)) with
        | Returned text =>
            match decryptMessage (mediaData attachment) (iv m)
                    (keyOf (grpId g)) with
            | Returned data => Returned (text, withData attachment data)
            | Thrown e => Thrown e
            end
        | Thrown e => Thrown e
        end
    end.
Proof.
  unfold decryptMedia. destruct (media m) as [attachment|]; [|reflexivity].
  unfold bind, readStore, ret, liftOutcome. cbn [groupKey ready fst snd].
  destruct (decryptMessage (ciphertext m) _ _); [|reflexivity].
  destruct (decryptMessage (mediaData attachment) _ _); reflexivity.
Qed.

Lemma encryptMedia_new g caption attachment sender w :
  let K := keyOf (grpId g) in
  let w1 := snd (randomBytes IV_LENGTH w) in
  let w2 := snd (randomBytes IV_LENGTH w1) in
  exists enc encMedia,
    encryptWithNonce (fst (randomBytes IV_LENGTH w)) caption K = Returned enc /\
    encryptWithNonce (fst (randomBytes IV_LENGTH w1)) (mediaData attachment) K
    = Returned encMedia /\
    encryptMedia caption attachment sender (newGroupSession g, w)
    = (Returned
         {| msgId := fst (randomUUID w2);
            senderId := sender;
            receiverId := None;
            groupId := Some (grpId g);
            ciphertext := encCiphertext enc;
            iv := encIv enc;
            timestamp := fst (dateNow (snd (randomUUID w2)));
            msgType := MediaMessage;
            media := Some (withData attachment (encCiphertext encMedia)) |},
       (ready g, snd (dateNow (snd (randomUUID w2))))).
Proof.
  intros K w1 w2.
  destruct (CodecMore.encryptMessage_eq caption K w (keyOf_length _))
    as (enc & Hrun & Henc & _).
  destruct (CodecMore.encryptMessage_eq (mediaData attachment) K w1
              (keyOf_length _)) as (encMedia & Hrun2 & Henc2 & _).
  exists enc, encMedia. split; [exact Henc|]. split; [exact Henc2|].
  unfold encryptMedia, bind, onFst, onSnd, readStore, ret. cbn [fst snd].
  unfold initialize. cbn [fst snd groupKey newGroupSession group].
  fold (keyOf (grpId g)). fold K. rewrite Hrun. cbn [fst snd].
  fold w1. rewrite Hrun2. cbn [fst snd]. fold w2.
  unfold generateUUID, now.
  destruct (randomUUID _) as [id w3]. cbn [fst snd].
  destruct (dateNow w3) as [ts w4]. reflexivity.
Qed.

End WithPlatform.
End GroupFacts.

(** X4. What a [GroupSession] encrypts is decrypted by any [GroupSession]
    made for a group of the same id, whatever its name and members: the
    group key is derived from the id alone. What is read is the well-formed
    form of the text (a surrogate outside a pair has become U+FFFD), so a
    well-formed text is read as it was written. The envelope carries the
    group id and no receiver. *)
Theorem group_roundtrip_by_group_id
  (P : NodePlatform) (HB : Base64Laws P) (HG : GcmLaws P) (HE : EntropyLaws P)
  (HK : KdfLaws P) (g g' : Group) (text sender : string) (w : world) :
  grpId g' = grpId g ->
  Js.valid text = true ->
  exists m s' w',
    GroupChat.encrypt text sender (GroupChat.newGroupSession g, w)
    = (Returned m, (s', w')) /\
    senderId m = sender /\
    receiverId m = None /\
    groupId m = Some (grpId g) /\
    fst (GroupChat.decrypt m (GroupChat.newGroupSession g')) = Returned (Js.toWellFormed text) /\
    fst (GroupChat.decrypt m s') = Returned (Js.toWellFormed text) /\
    (Js.isWellFormed text = true -> Js.toWellFormed text = text).
Proof.
  intros Hid Hvalid.
  destruct (GroupFacts.group_encrypt_new g text sender w) as (enc & _ & Hrun & Hdec).
  rewrite (BufferFacts.toUtf8_fromUtf8 text Hvalid) in Hdec.
  eexists; eexists; eexists. split; [exact Hrun|].
  cbn [senderId receiverId groupId ciphertext iv].
  repeat (split; [reflexivity|]).
  split; [|split].
  - rewrite GroupFacts.group_decrypt_new. cbn [fst ciphertext iv]. rewrite Hid.
    exact Hdec.
  - exact Hdec.
  - intros Hw. now apply JsFacts.toWellFormed_id.
Qed.

(** X5. [GroupSession.encryptMedia] seals the media payload under a second
    nonce and puts only the first one on the envelope. [decryptMedia], which
    uses the envelope's nonce for the payload too, therefore throws on the
    output of [encryptMedia], unless the GCM tags of the sealed payload
    under the two nonces coincide; and then it returns the payload run
    through both key streams. *)
Theorem group_media_payload_needs_tag_collision
  (P : NodePlatform) (HB : Base64Laws P) (HG : GcmLaws P) (HE : EntropyLaws P)
  (HK : KdfLaws P) (g : Group) (caption sender : string)
  (attachment : MediaAttachment) (w : world) :
  let K := GroupTerms.keyOf (grpId g) in
  let n1 := fst (randomBytes E2E.IV_LENGTH w) in
  let n2 := fst (randomBytes E2E.IV_LENGTH (snd (randomBytes E2E.IV_LENGTH w))) in
  let sealed := aes256_ctr K n2 (Buffer.fromUtf8 (mediaData attachment)) in
  exists m s' w',
    GroupChat.encryptMedia caption attachment sender
      (GroupChat.newGroupSession g, w) = (Returned m, (s', w')) /\
    iv m = bufferToBase64 n1 /\
    (gcm_tag K n1 sealed <> gcm_tag K n2 sealed ->
     fst (GroupChat.decryptMedia m s')
     = Thrown (CryptoError "Unsupported state or unable to authenticate data")) /\
    (gcm_tag K n1 sealed = gcm_tag K n2 sealed ->
     fst (GroupChat.decryptMedia m s')
     = Returned (Buffer.toUtf8 (Buffer.fromUtf8 caption),
                 withData attachment (Buffer.toUtf8 (aes256_ctr K n1 sealed)))).
Proof.
  intros K n1 n2 sealed.
  destruct (GroupFacts.encryptMedia_new g caption attachment sender w)
    as (enc & encMedia & Henc & Henc2 & Hrun).
  fold K n1 in Henc. fold K in Henc2. fold n2 in Henc2.
  assert (Hu1 : CodecTerms.usable K n1 = true)
    by (apply CodecMore.usable_drawn, GroupFacts.keyOf_length).
  assert (Hu2 : CodecTerms.usable K n2 = true)
    by (apply CodecMore.usable_drawn, GroupFacts.keyOf_length).
  pose proof (CodecProps.decrypt_encryptWithNonce _ _ _ _ Hu1 Henc) as Hcap.
  assert (Hiv : E2E.encIv enc = bufferToBase64 n1).
  { rewrite (CodecFacts.encryptWithNonce_eq _ _ _ Hu1) in Henc.
    injection Henc as <-. reflexivity. }
  assert (Hsealed :
    E2E.encCiphertext encMedia = bufferToBase64 (sealed ++ gcm_tag K n2 sealed)).
  { rewrite (CodecFacts.encryptWithNonce_eq _ _ _ Hu2) in Henc2.
    injection Henc2 as <-. reflexivity. }
  assert (Hn1 : base64ToBuffer (E2E.encIv enc) = n1).
  { rewrite Hiv. apply base64_decode_encode. }
  assert (Hpayload :
    E2E.decryptMessage (E2E.encCiphertext encMedia) (E2E.encIv enc) K
    = if Buffer.eqb (gcm_tag K n2 sealed) (gcm_tag K n1 sealed)
      then Returned (Buffer.toUtf8 (aes256_ctr K n1 sealed))
      else Thrown (CryptoError "Unsupported state or unable to authenticate data")).
  { rewrite Hsealed.
    rewrite CodecFacts.decryptMessage_eq by (rewrite Hn1; exact Hu1).
    cbv zeta. rewrite Hn1.
    unfold base64ToBuffer, bufferToBase64. rewrite base64_decode_encode.
    rewrite CodecProps.tagOf_app, CodecProps.bodyOf_app by apply gcm_tag_length.
    rewrite gcm_tag_length. simpl NodeCrypto.isValidGcmTagLength. cbv iota.
    rewrite firstn_all2 by (rewrite gcm_tag_length; lia). reflexivity. }
  eexists; eexists; eexists. split; [exact Hrun|].
  cbn [iv]. split; [exact Hiv|].
  split; intros Htag.
  - rewrite GroupFacts.decryptMedia_ready.
    cbn [media ciphertext iv mediaData withData]. fold K. rewrite Hcap, Hpayload.
    destruct (Buffer.eqb _ _) eqn:E; [|reflexivity].
    apply BufferFacts.eqb_eq in E. congruence.
  - rewrite GroupFacts.decryptMedia_ready.
    cbn [media ciphertext iv mediaData withData]. fold K. rewrite Hcap, Hpayload.
    rewrite Htag, BufferFacts.eqb_refl. reflexivity.
Qed.

Lemma group_media_payload_needs_tag_collision_witness :
  exists m s' w',
    GroupChat.encryptMedia (P := Small.platform) "look" Small.photo "alice"
      (GroupChat.newGroupSession
         {| grpId := "g1"; grpName := "team"; grpMembers := [Small.alice; Small.bob];
            grpCreatedAt := 0 |}, 0%nat) = (Returned m, (s', w')) /\
    fst (GroupChat.decryptMedia (P := Small.platform) m s')
    = Thrown (CryptoError "Unsupported state or unable to authenticate data").
Proof.
  destruct (group_media_payload_needs_tag_collision Small.platform
              SmallFacts.base64 SmallFacts.gcm SmallFacts.entropy SmallFacts.kdf
              {| grpId := "g1"; grpName := "team";
                 grpMembers := [Small.alice; Small.bob]; grpCreatedAt := 0 |}
              "look" "alice" Small.photo 0%nat)
    as (m & s' & w' & Hrun & _ & Hbad & _).
  exists m, s', w'. split; [exact Hrun|].
  apply Hbad. vm_compute. discriminate.
Defined.

Lemma group_roundtrip_by_group_id_witness :
  exists m s' w',
    GroupChat.encrypt (P := Small.platform) "hi" "alice"
      (GroupChat.newGroupSession
         {| grpId := "g1"; grpName := "team"; grpMembers := [Small.alice; Small.bob];
            grpCreatedAt := 0 |}, 0%nat) = (Returned m, (s', w')) /\
    fst (GroupChat.decrypt (P := Small.platform) m
           (GroupChat.newGroupSession
              {| grpId := "g1"; grpName := "elsewhere"; grpMembers := [];
                 grpCreatedAt := 7 |}))
    = Returned "hi".
Proof.
  destruct (group_roundtrip_by_group_id Small.platform
              SmallFacts.base64 SmallFacts.gcm SmallFacts.entropy SmallFacts.kdf
              {| grpId := "g1"; grpName := "team";
                 grpMembers := [Small.alice; Small.bob]; grpCreatedAt := 0 |}
              {| grpId := "g1"; grpName := "elsewhere"; grpMembers := [];
                 grpCreatedAt := 7 |}
              "hi" "alice" 0%nat eq_refl eq_refl)
    as (m & s' & w' & Hrun & _ & _ & _ & Hdec & _).
  exists m, s', w'. split; [exact Hrun|exact Hdec].
Defined.

(** ** Further properties: the queue *)

Module JsMapMore.
Section WithValues.
Context {V : Type}.

Lemma length_set (m : JsMap.t V) k v :
  (List.length (JsMap.set m k v) <= S (List.length m))%nat.
Proof.
  induction m as [|[k' v'] m IH]; simpl; [lia|].
  destruct (Js.eqb k' k); simpl; lia.
Qed.

Lemma length_set_present (m : JsMap.t V) k v v0 :
  JsMap.get m k = Some v0 -> List.length (JsMap.set m k v) = List.length m.
Proof.
  induction m as [|[k' v'] m IH]; simpl; [discriminate|].
  destruct (Js.eqb k' k); simpl; [reflexivity|]. intros H. now rewrite IH.
Qed.

Lemma length_delete (m : JsMap.t V) k :
  List.length (JsMap.delete m k)
  = (List.length m - match JsMap.get m k with Some _ => 1 | None => 0 end)%nat.
Proof.
  induction m as [|[k' v'] m IH]; simpl; [reflexivity|].
  destruct (Js.eqb k' k); simpl; [lia|]. rewrite IH.
  destruct (JsMap.get m k) eqn:E; [|lia].
  destruct m; [discriminate|]. simpl. lia.
Qed.

Lemma delete_filter (m : JsMap.t V) k :
  QueueTerms.mapWf m ->
  JsMap.delete m k = filter (fun kv => negb (Js.eqb (fst kv) k)) m.
Proof.
  unfold QueueTerms.mapWf, JsMap.keys.
  induction m as [|[k' v'] m IH]; simpl; [reflexivity|]. intros Hwf.
  inversion Hwf as [|? ? Hnotin Hwf']; subst.
  destruct (Js.eqb k' k) eqn:E; simpl.
  - apply JsFacts.string_eqb_eq in E. subst k'.
    symmetry. apply forallb_filter_id.
    apply forallb_forall. intros [k2 v2] Hin. simpl.
    destruct (Js.eqb k2 k) eqn:E2; [|reflexivity].
    apply JsFacts.string_eqb_eq in E2. subst k2. exfalso. apply Hnotin.
    change k with (fst (k, v2)). now apply in_map.
  - now rewrite IH.
Qed.

Lemma keys_delete (m : JsMap.t V) k :
  QueueTerms.mapWf m ->
  JsMap.keys (JsMap.delete m k)
  = filter (fun x => negb (Js.eqb x k)) (JsMap.keys m).
Proof.
  intros Hwf. rewrite (delete_filter m k Hwf). unfold JsMap.keys.
  induction m as [|[k' v'] m IH]; simpl; [reflexivity|].
  inversion Hwf; subst.
  destruct (Js.eqb k' k); simpl; rewrite IH; auto.
Qed.

Lemma get_In_values (m : JsMap.t V) k v :
  JsMap.get m k = Some v -> In v (JsMap.values m).
Proof.
  induction m as [|[k' v'] m IH]; simpl; [discriminate|].
  destruct (Js.eqb k' k); intros H.
  - injection H as <-. now left.
  - right. now apply IH.
Qed.

Lemma delete_absent (m : JsMap.t V) k :
  JsMap.get m k = None -> JsMap.delete m k = m.
Proof.
  induction m as [|[k' v'] m IH]; simpl; [reflexivity|].
  destruct (Js.eqb k' k); [discriminate|]. intros H. now rewrite IH.
Qed.

End WithValues.
End JsMapMore.

Module QueueMore.
Import Queue QueueTerms QueueOps.

Lemma keys_set_truthy (m : JsMap.t QueuedMessage) k v :
  truthy k = true ->
  Forall (fun k => truthy k = true) (JsMap.keys m) ->
  Forall (fun k => truthy k = true) (JsMap.keys (JsMap.set m k v)).
Proof.
  intros Hk H. apply Forall_forall. intros x Hx.
  apply JsMapFacts.keys_set_subset in Hx as [->|Hx]; [exact Hk|].
  rewrite Forall_forall in H. now apply H.
Qed.

Lemma keys_delete_truthy (m : JsMap.t QueuedMessage) k :
  Forall (fun k => truthy k = true) (JsMap.keys m) ->
  Forall (fun k => truthy k = true) (JsMap.keys (JsMap.delete m k)).
Proof.
  intros H. apply Forall_forall. intros x Hx.
  apply JsMapFacts.keys_delete_subset in Hx.
  rewrite Forall_forall in H. now apply H.
Qed.

Lemma size_delete_le (m : JsMap.t QueuedMessage) k :
  JsMap.size (JsMap.delete m k) <= JsMap.size m.
Proof. unfold JsMap.size. rewrite JsMapMore.length_delete. lia. Qed.

Lemma size_set_le (m : JsMap.t QueuedMessage) k v :
  JsMap.size (JsMap.set m k v) <= JsMap.size m + 1.
Proof.
  unfold JsMap.size. pose proof (JsMapMore.length_set m k v). lia.
Qed.

Lemma bounded_enqueue cap q m :
  1 <= cap -> truthy (msgId m) = true ->
  bounded cap q -> bounded cap (enqueue q m).
Proof.
  intros Hcap Hid (Hwf & Hmax & Hsize & Hkeys).
  assert (Hev : JsMap.size (evictIfFull q) <= cap - 1 /\
                Forall (fun k => truthy k = true) (JsMap.keys (evictIfFull q))).
  { unfold evictIfFull. rewrite Hmax. unfold size in Hsize.
    destruct (JsMap.size (queue q) >=? cap) eqn:E.
    - assert (Hfull : JsMap.size (queue q) = cap) by lia.
      destruct (queue q) as [|[k v] rest] eqn:Eq.
      { unfold JsMap.size in Hfull. simpl in Hfull. lia. }
      cbn [JsMap.firstKey]. inversion Hkeys as [|? ? Hk Hrest]; subst.
      rewrite Hk. cbn [JsMap.delete]. rewrite JsFacts.string_eqb_refl.
      split; [|exact Hrest].
      unfold JsMap.size in *. simpl in Hfull. lia.
    - split; [lia|exact Hkeys]. }
  destruct Hev as [Hev1 Hev2].
  unfold bounded, enqueue, wf, size. cbn [queue maxSize withQueue].
  split; [|split; [exact Hmax|split]].
  - apply JsMapFacts.wf_set, QueueFacts.wf_evictIfFull, Hwf.
  - pose proof (size_set_le (evictIfFull q) (msgId m) (freshEntry m)). lia.
  - now apply keys_set_truthy.
Qed.

Lemma bounded_delete cap q id :
  bounded cap q -> bounded cap (withQueue q (JsMap.delete (queue q) id)).
Proof.
  intros (Hwf & Hmax & Hsize & Hkeys).
  unfold bounded, wf, size in *. cbn [queue maxSize withQueue].
  split; [now apply JsMapFacts.wf_delete|]. split; [exact Hmax|].
  split; [pose proof (size_delete_le (queue q) id); lia|].
  now apply keys_delete_truthy.
Qed.

Lemma bounded_markSent cap q id : bounded cap q -> bounded cap (markSent q id).
Proof.
  intros H. unfold markSent. destruct (JsMap.get (queue q) id); [|exact H].
  now apply bounded_delete.
Qed.

Lemma bounded_markFailed cap q id err clock :
  bounded cap q -> bounded cap (markFailed q id err clock).
Proof.
  intros H. unfold markFailed.
  destruct (JsMap.get (queue q) id) as [entry|] eqn:E; [|exact H].
  cbv zeta.
  assert (Hset : bounded cap
            (withQueue q (JsMap.set (queue q) id (failedEntry entry err clock)))).
  { destruct H as (Hwf & Hmax & Hsize & Hkeys).
    unfold bounded, wf, size in *. cbn [queue maxSize withQueue].
    split; [now apply JsMapFacts.wf_set|]. split; [exact Hmax|].
    split.
    - unfold JsMap.size in *.
      rewrite (JsMapMore.length_set_present _ _ _ _ E). exact Hsize.
    - unfold JsMap.keys. fold (JsMap.keys (JsMap.set (queue q) id (failedEntry entry err clock))).
      rewrite (JsMapFacts.keys_set_present _ _ _ _ E). exact Hkeys. }
  destruct (_ >=? _); [|exact Hset].
  exact (bounded_delete cap _ id Hset).
Qed.

Lemma bounded_apply cap q op :
  1 <= cap -> enqueuesNamed op = true ->
  bounded cap q -> bounded cap (apply q op).
Proof.
  intros Hcap Hop H. destruct op; cbn [apply enqueuesNamed] in *.
  - now apply bounded_enqueue.
  - now apply bounded_markSent.
  - now apply bounded_markFailed.
  - now apply bounded_delete.
  - destruct H as (Hwf & Hmax & Hsize & Hkeys).
    unfold bounded, clear, wf, size, mapWf. cbn.
    repeat split; [constructor|exact Hmax|unfold JsMap.size; simpl; lia|constructor].
Qed.

Lemma bounded_applyAll cap ops :
  1 <= cap -> forallb enqueuesNamed ops = true ->
  forall q, bounded cap q -> bounded cap (applyAll q ops).
Proof.
  intros Hcap. induction ops as [|op ops IH]; intros Hops q H; [exact H|].
  cbn [forallb] in Hops. apply andb_true_iff in Hops as [Hop Hops].
  unfold applyAll. cbn [fold_left]. apply (IH Hops).
  now apply bounded_apply.
Qed.

Lemma filter_disjoint_length {A : Type} (p r : A -> bool) (l : list A) :
  (forall x, p x = true -> r x = false) ->
  (List.length (filter p l) + List.length (filter r l) <= List.length l)%nat.
Proof.
  intros H. induction l as [|x l IH]; simpl; [lia|].
  destruct (p x) eqn:E.
  - rewrite (H x E). simpl. lia.
  - destruct (r x); simpl; lia.
Qed.

End QueueMore.

(** X6. A queue of capacity at least one, starting empty, never holds more
    entries than its capacity, whatever is called on it ([enqueue],
    [markSent], [markFailed], [remove], [clear]) and in whatever order, as
    long as every envelope that is enqueued has an id that is not empty. *)
Theorem queue_never_exceeds_capacity
  (cap retries delay : Z) (ops : list QueueOps.QueueOp) :
  1 <= cap ->
  forallb QueueOps.enqueuesNamed ops = true ->
  Queue.size (QueueOps.applyAll (Queue.newMessageQueue cap retries delay) ops)
  <= cap.
Proof.
  intros Hcap Hops.
  assert (H0 : QueueOps.bounded cap (Queue.newMessageQueue cap retries delay)).
  { unfold QueueOps.bounded, QueueTerms.wf, QueueTerms.mapWf, Queue.size,
      JsMap.size. cbn. repeat split; [constructor|lia|constructor]. }
  apply (QueueMore.bounded_applyAll cap ops Hcap Hops _ H0).
Qed.

Lemma queue_never_exceeds_capacity_witness :
  Queue.size
    (QueueOps.applyAll (Queue.newMessageQueue 2 3 2000)
       [QueueOps.Enqueue (Small.envelope "a");
        QueueOps.Enqueue (Small.envelope "b");
        QueueOps.MarkFailed "a" (NetworkError "down") 10;
        QueueOps.Enqueue (Small.envelope "c");
        QueueOps.Enqueue (Small.envelope "d")])
  <= 2.
Proof.
  apply (queue_never_exceeds_capacity 2 3 2000); [lia|reflexivity].
Defined.

(** X7. [markSent] removes the entry of the given id and nothing else: the
    id is no longer queued, every other id keeps its entry, the remaining
    ids keep their order, the size drops by one when the id was queued and
    not at all otherwise, and a second call changes nothing. *)
Theorem markSent_removes_exactly_that_entry
  (q : Queue.MessageQueue) (id : string) :
  QueueTerms.wf q ->
  Queue.get (Queue.markSent q id) id = None /\
  (forall other, other <> id ->
     Queue.get (Queue.markSent q id) other = Queue.get q other) /\
  JsMap.keys (Queue.queue (Queue.markSent q id))
  = filter (fun k => negb (Js.eqb k id)) (JsMap.keys (Queue.queue q)) /\
  Queue.size (Queue.markSent q id)
  = Queue.size q - (match Queue.get q id with Some _ => 1 | None => 0 end) /\
  Queue.markSent (Queue.markSent q id) id = Queue.markSent q id.
Proof.
  intros Hwf. unfold Queue.markSent, Queue.get, Queue.size.
  destruct (JsMap.get (Queue.queue q) id) as [entry|] eqn:E.
  - cbn [Queue.queue Queue.withQueue].
    rewrite (JsMapFacts.get_delete_same _ _ Hwf).
    split; [reflexivity|].
    split; [intros other Hne; apply JsMapFacts.get_delete_other; congruence|].
    split; [apply JsMapMore.keys_delete, Hwf|].
    split; [|reflexivity].
    unfold JsMap.size. rewrite JsMapMore.length_delete, E.
    destruct (Queue.queue q); [discriminate|]. simpl List.length. lia.
  - rewrite E. split; [reflexivity|]. split; [reflexivity|].
    split; [|split; [lia|reflexivity]].
    rewrite <- (JsMapMore.keys_delete _ id Hwf).
    now rewrite JsMapMore.delete_absent.
Qed.

Lemma markSent_removes_exactly_that_entry_witness :
  let q := Queue.enqueue
             (Queue.enqueue Queue.defaultMessageQueue (Small.envelope "a"))
             (Small.envelope "b") in
  JsMap.keys (Queue.queue (Queue.markSent q "a")) = ["b"].
Proof.
  intros q.
  pose proof (markSent_removes_exactly_that_entry q "a") as H.
  assert (Hwf : QueueTerms.wf q).
  { unfold QueueTerms.wf, QueueTerms.mapWf. vm_compute.
    repeat constructor; simpl; intuition discriminate. }
  destruct (H Hwf) as (_ & _ & Hkeys & _). rewrite Hkeys. reflexivity.
Defined.

(** X8. After [markFailed] at time [t] has left an entry below the retry
    ceiling, [getRetryableMessages] at a later reading of the clock lists
    that entry exactly when [retryDelay] has elapsed since [t]. ([t] is not
    zero: a time stamp of zero is falsy in the code and counts as none.) *)
Theorem failed_message_waits_for_retry_delay
  (q : Queue.MessageQueue) (id : string) (entry : Queue.QueuedMessage)
  (err : fault) (t clock : Z) :
  Queue.get q id = Some entry ->
  Z.of_nat (S (Queue.attempts entry)) < Queue.maxRetries q ->
  t <> 0 ->
  (In (Queue.failedEntry entry err t)
      (Queue.getRetryableMessages (Queue.markFailed q id err t) clock)
   <-> Queue.retryDelay q <= clock - t).
Proof.
  intros Hget Hbelow Ht.
  pose proof (QueueFacts.markFailed_below q id entry err t Hget Hbelow) as Hnew.
  unfold Queue.getRetryableMessages. rewrite filter_In.
  rewrite QueueFacts.maxRetries_markFailed.
  assert (Hdelay : Queue.retryDelay (Queue.markFailed q id err t) = Queue.retryDelay q).
  { unfold Queue.markFailed. destruct (JsMap.get _ _); [|reflexivity].
    cbv zeta. destruct (_ >=? _); reflexivity. }
  unfold Queue.retryDue. rewrite Hdelay.
  cbn [Queue.status Queue.attempts Queue.lastAttempt Queue.failedEntry Queue.statusEqb].
  assert (Hlt : (Z.of_nat (S (Queue.attempts entry)) <? Queue.maxRetries q) = true)
    by (apply Z.ltb_lt; exact Hbelow).
  rewrite Hlt. cbn [andb].
  assert (Hz : (t =? 0) = false) by (apply Z.eqb_neq; exact Ht).
  rewrite Hz. cbn [orb].
  split.
  - intros [_ H]. apply Z.geb_le in H. lia.
  - intros H. split.
    + exact (JsMapMore.get_In_values _ _ _ Hnew).
    + apply Z.geb_le. lia.
Qed.

Lemma failed_message_waits_for_retry_delay_witness :
  let q := Queue.enqueue Queue.defaultMessageQueue (Small.envelope "a") in
  let failed := Queue.failedEntry (Queue.freshEntry (Small.envelope "a"))
                  (NetworkError "down") 5000 in
  ~ In failed (Queue.getRetryableMessages
                 (Queue.markFailed q "a" (NetworkError "down") 5000) 6999) /\
  In failed (Queue.getRetryableMessages
               (Queue.markFailed q "a" (NetworkError "down") 5000) 7000).
Proof.
  intros q failed.
  assert (Hget : Queue.get q "a" = Some (Queue.freshEntry (Small.envelope "a")))
    by reflexivity.
  assert (Hbelow : Z.of_nat (S (Queue.attempts (Queue.freshEntry (Small.envelope "a"))))
                   < Queue.maxRetries q) by (vm_compute; reflexivity).
  assert (Ht : 5000 <> 0) by lia.
  split.
  - intros Hin.
    apply (failed_message_waits_for_retry_delay q "a" _ (NetworkError "down")
             5000 6999 Hget Hbelow Ht) in Hin.
    vm_compute in Hin. apply Hin. reflexivity.
  - apply (failed_message_waits_for_retry_delay q "a" _ (NetworkError "down")
             5000 7000 Hget Hbelow Ht).
    vm_compute. discriminate.
Defined.

(** X9. [getQueueStatus] returns; the size it reports is the size of the
    queue, and its pending and retryable counts are counts of different
    entries: no entry is both pending and retryable, so the two counts add
    up to at most the size. *)
Theorem queue_status_counts_are_disjoint
  (P : NodePlatform) (sdk : SDK.ChatSDK) (w : world) :
  exists st w',
    Orchestrator.getQueueStatus sdk w = (Returned st, w') /\
    Orchestrator.statusSize st = Queue.size (SDK.messageQueue sdk) /\
    Z.of_nat (Orchestrator.statusPending st + Orchestrator.statusRetryable st)
    <= Orchestrator.statusSize st /\
    (forall queued clock,
        In queued (Queue.getPendingMessages (SDK.messageQueue sdk)) ->
        ~ In queued (Queue.getRetryableMessages (SDK.messageQueue sdk) clock)).
Proof.
  unfold Orchestrator.getQueueStatus, bind, now, ret.
  destruct (dateNow w) as [clock w'].
  eexists; eexists; split; [reflexivity|].
  cbn [Orchestrator.statusSize Orchestrator.statusPending
       Orchestrator.statusRetryable].
  split; [reflexivity|]. split.
  - unfold Queue.getPendingMessages, Queue.getRetryableMessages, Queue.size,
      JsMap.size.
    match goal with
    | |- context [filter ?p ?l] =>
        match goal with
        | |- context [List.length (filter ?r l)] =>
            lazymatch r with
            | p => fail
            | _ => pose proof (QueueMore.filter_disjoint_length p r l) as H
            end
        end
    end.
    unfold JsMap.values in *. rewrite length_map in H.
    apply Nat2Z.inj_le. apply H.
    intros x Hx. destruct (Queue.status x); try discriminate. reflexivity.
  - intros queued clock0 Hp Hr.
    unfold Queue.getPendingMessages, Queue.getRetryableMessages in *.
    apply filter_In in Hp as [_ Hp]. apply filter_In in Hr as [_ Hr].
    destruct (Queue.status queued); discriminate.
Qed.

(** ** Further properties: the orchestrator *)

Module FlushFacts.
Import Queue QueueTerms QueueOps FlushTerms SDK Orchestrator.
Section WithPlatform.
Context {P : NodePlatform}.

Lemma withSent_nil sdk : withSent sdk [] = sdk.
Proof. destruct sdk. unfold withSent. cbn. now rewrite app_nil_r. Qed.

Lemma forEach_delivers port (items : list QueuedMessage) :
  (forall queued, In queued items ->
     portSend port (message queued) = Returned tt) ->
  forall sdk w,
    forEach items (deliverQueued port) (sdk, w)
    = (Returned tt, (withSent sdk items, w)).
Proof.
  induction items as [|x items IH]; intros Hok sdk w.
  - cbn. now rewrite withSent_nil.
  - cbn [forEach]. unfold bind at 1.
    assert (Hx : deliverQueued port x (sdk, w)
                 = (Returned tt, (withSent sdk [x], w))).
    { unfold deliverQueued, tryCatch, bind, liftOutcome, onFst, updateQueue,
        emit. rewrite (Hok x (or_introl eq_refl)). reflexivity. }
    rewrite Hx. rewrite IH by (intros; apply Hok; now right).
    unfold withSent. cbn [config currentUser messageQueue emitted fold_left map].
    now rewrite <- app_assoc.
Qed.

Lemma filter_twice {A : Type} (f g : A -> bool) (l : list A) :
  filter f (filter g l) = filter (fun x => g x && f x) l.
Proof.
  induction l as [|x l IH]; simpl; [reflexivity|].
  destruct (g x); simpl; [destruct (f x)|]; now rewrite IH.
Qed.

(** [markSent], whether or not the id is queued. *)
Lemma markSent_delete q id :
  markSent q id = withQueue q (JsMap.delete (queue q) id).
Proof.
  unfold markSent. destruct (JsMap.get (queue q) id) eqn:E; [reflexivity|].
  rewrite (JsMapMore.delete_absent _ _ E). now destruct q.
Qed.

Lemma wf_filter (f : string * QueuedMessage -> bool) (m : JsMap.t QueuedMessage) :
  mapWf m -> mapWf (filter f m).
Proof.
  unfold mapWf, JsMap.keys. induction m as [|kv m IH]; simpl; [auto|].
  intros H. inversion H as [|? ? Hn Hm]; subst.
  destruct (f kv); simpl; [|now apply IH].
  constructor; [|now apply IH].
  intros Hin. apply Hn. apply in_map_iff in Hin as (x & Hx & Hin).
  apply filter_In in Hin as [Hin _]. rewrite <- Hx. now apply in_map.
Qed.

Lemma markSent_all (sent : list QueuedMessage) :
  forall q,
    wf q ->
    fold_left (fun q queued => markSent q (idOf queued)) sent q
    = withQueue q
        (filter (fun kv => negb (existsb (fun queued => Js.eqb (fst kv) (idOf queued)) sent))
                (queue q)).
Proof.
  induction sent as [|x sent IH]; intros q Hwf.
  - cbn. rewrite forallb_filter_id by (apply forallb_forall; intros; reflexivity).
    now destruct q.
  - cbn [fold_left existsb]. rewrite IH by now apply QueueFacts.wf_markSent.
    rewrite markSent_delete. cbn [queue withQueue maxSize maxRetries retryDelay].
    rewrite (JsMapMore.delete_filter _ _ Hwf).
    unfold withQueue. f_equal. rewrite filter_twice.
    apply filter_ext. intros [k v]. cbn [fst].
    now rewrite negb_orb.
Qed.

Lemma fst_injective (m : JsMap.t QueuedMessage) a b :
  mapWf m -> In a m -> In b m -> fst a = fst b -> a = b.
Proof.
  unfold mapWf, JsMap.keys. induction m as [|x m IH]; simpl; [tauto|].
  intros H Ha Hb Hab. inversion H as [|? ? Hn Hm]; subst.
  destruct Ha as [->|Ha], Hb as [->|Hb]; auto.
  - exfalso. apply Hn. rewrite Hab. now apply in_map.
  - exfalso. apply Hn. rewrite <- Hab. now apply in_map.
Qed.

Lemma toSend_spec q clock queued :
  In queued (toSend q clock)
  <-> In queued (JsMap.values (queue q)) /\ due q clock queued = true.
Proof.
  unfold toSend, getPendingMessages, getRetryableMessages, due.
  fold (retryable q clock). rewrite in_app_iff, !filter_In, orb_true_iff.
  tauto.
Qed.

(** In a queue with distinct keys, filed by id, the ids of a pass tell
    which entries it picks up. *)
Lemma picked_by_id q clock kv :
  wf q -> keyed q -> In kv (queue q) ->
  existsb (fun queued => Js.eqb (fst kv) (idOf queued)) (toSend q clock)
  = due q clock (snd kv).
Proof.
  intros Hwf Hkeyed Hin.
  unfold keyed in Hkeyed. rewrite Forall_forall in Hkeyed.
  destruct (due q clock (snd kv)) eqn:Hdue.
  - apply existsb_exists. exists (snd kv). split.
    + apply toSend_spec. split; [|exact Hdue].
      unfold JsMap.values. now apply in_map.
    + apply JsFacts.string_eqb_eq. symmetry. now apply Hkeyed.
  - destruct (existsb _ _) eqn:E; [|reflexivity].
    apply existsb_exists in E as (queued & Hq & Heq).
    apply JsFacts.string_eqb_eq in Heq.
    apply toSend_spec in Hq as [Hv Hd].
    unfold JsMap.values in Hv. apply in_map_iff in Hv as (kv' & <- & Hin').
    assert (kv' = kv).
    { apply (fst_injective (queue q)); auto.
      rewrite Heq. symmetry. now apply Hkeyed. }
    subst kv'. congruence.
Qed.

Lemma map_snd_filter (f : QueuedMessage -> bool) (m : JsMap.t QueuedMessage) :
  JsMap.values (filter (fun kv => f (snd kv)) m) = filter f (JsMap.values m).
Proof.
  unfold JsMap.values. induction m as [|kv m IH]; simpl; [reflexivity|].
  destruct (f (snd kv)); simpl; now rewrite IH.
Qed.

Lemma filter_none {A : Type} (f : A -> bool) (l : list A) :
  (forall x, In x l -> f x = false) -> filter f l = [].
Proof.
  induction l as [|x l IH]; simpl; [reflexivity|]. intros H.
  rewrite (H x (or_introl eq_refl)). apply IH. intros; apply H; now right.
Qed.

Lemma NoDup_map_filter {A B : Type} (f : A -> B) (p : A -> bool) (l : list A) :
  NoDup (List.map f l) -> NoDup (List.map f (filter p l)).
Proof.
  induction l as [|x l IH]; simpl; [auto|]. intros H.
  inversion H as [|? ? Hn Hl]; subst.
  destruct (p x); simpl; [|now apply IH].
  constructor; [|now apply IH].
  intros Hin. apply Hn. apply in_map_iff in Hin as (y & Hy & Hin).
  apply filter_In in Hin as [Hin _]. rewrite <- Hy. now apply in_map.
Qed.

Lemma map_injective_on {A B : Type} (f : A -> B) (l : list A) a b :
  NoDup (List.map f l) -> In a l -> In b l -> f a = f b -> a = b.
Proof.
  induction l as [|x l IH]; simpl; [tauto|].
  intros H Ha Hb Hab. inversion H as [|? ? Hn Hl]; subst.
  destruct Ha as [->|Ha], Hb as [->|Hb]; auto.
  - exfalso. apply Hn. rewrite Hab. now apply in_map.
  - exfalso. apply Hn. rewrite <- Hab. now apply in_map.
Qed.

Lemma ids_of_values q :
  keyed q -> List.map idOf (JsMap.values (queue q)) = JsMap.keys (queue q).
Proof.
  unfold keyed, JsMap.values, JsMap.keys.
  induction (queue q) as [|kv m IH]; simpl; [reflexivity|].
  intros H. inversion H; subst. unfold idOf at 1. now rewrite IH; [f_equal|].
Qed.

(** No envelope is sent twice in one pass. *)
Lemma toSend_NoDup q clock :
  wf q -> keyed q -> NoDup (List.map idOf (toSend q clock)).
Proof.
  intros Hwf Hkeyed.
  assert (Hids : NoDup (List.map idOf (JsMap.values (queue q))))
    by (rewrite ids_of_values by exact Hkeyed; exact Hwf).
  unfold toSend, getPendingMessages, getRetryableMessages.
  rewrite map_app. apply NoDup_app.
  - now apply NoDup_map_filter.
  - now apply NoDup_map_filter.
  - intros id H1 H2.
    apply in_map_iff in H1 as (a & Ha & Hina).
    apply in_map_iff in H2 as (b & Hb & Hinb).
    apply filter_In in Hina as [Hina Hpa]. apply filter_In in Hinb as [Hinb Hrb].
    assert (a = b) by (apply (map_injective_on idOf _ a b Hids); congruence).
    subst b. destruct (status a); discriminate.
Qed.

End WithPlatform.
End FlushFacts.

(** X10. One pass of [processMessageQueue] over a queue filed by envelope
    id, when the transport accepts every envelope of the pass: it sends the
    pending entries and then the failed ones whose retry is due, each once,
    announces each as sent in that order, and removes them; what stays in
    the queue, in its order, are the failed entries that are not due yet,
    so that nothing is pending and nothing is retryable at that time. *)
Theorem processMessageQueue_flushes_when_sends_succeed
  (P : NodePlatform) (port : SDK.TransportPort) (sdk : SDK.ChatSDK) (w : world) :
  let q := SDK.messageQueue sdk in
  let clock := fst (dateNow w) in
  QueueTerms.wf q ->
  QueueOps.keyed q ->
  (forall queued,
      In queued (FlushTerms.toSend q clock) ->
      SDK.portSend port (Queue.message queued) = Returned tt) ->
  exists sdk',
    Orchestrator.processMessageQueue port (sdk, w)
    = (Returned tt, (sdk', snd (dateNow w))) /\
    SDK.emitted sdk'
    = SDK.emitted sdk
      ++ List.map (fun queued => SDK.MESSAGE_SENT (Queue.message queued))
                  (FlushTerms.toSend q clock) /\
    NoDup (List.map FlushTerms.idOf (FlushTerms.toSend q clock)) /\
    Queue.getAll (SDK.messageQueue sdk')
    = filter (fun queued => negb (FlushTerms.due q clock queued))
             (Queue.getAll q) /\
    Queue.getPendingMessages (SDK.messageQueue sdk') = [] /\
    Queue.getRetryableMessages (SDK.messageQueue sdk') clock = [].
Proof.
  intros q clock Hwf Hkeyed Hok.
  exists (FlushTerms.withSent sdk (FlushTerms.toSend q clock)).
  assert (Hq : SDK.messageQueue (FlushTerms.withSent sdk (FlushTerms.toSend q clock))
               = Queue.withQueue q
                   (filter (fun kv => negb (FlushTerms.due q clock (snd kv)))
                           (Queue.queue q))).
  { unfold FlushTerms.withSent. cbn [SDK.messageQueue]. fold q.
    rewrite (FlushFacts.markSent_all _ q Hwf). f_equal.
    apply filter_ext_in. intros kv Hin.
    now rewrite (FlushFacts.picked_by_id q clock kv Hwf Hkeyed Hin). }
  assert (Hall : Queue.getAll (SDK.messageQueue (FlushTerms.withSent sdk (FlushTerms.toSend q clock)))
                 = filter (fun queued => negb (FlushTerms.due q clock queued))
                          (Queue.getAll q)).
  { rewrite Hq. unfold Queue.getAll. cbn [Queue.queue Queue.withQueue].
    apply (FlushFacts.map_snd_filter (fun queued => negb (FlushTerms.due q clock queued))). }
  split.
  { unfold Orchestrator.processMessageQueue, bind, onFst, onSnd, readStore, now.
    cbn [fst snd]. destruct (dateNow w) as [t w'] eqn:E. cbn [fst snd].
    subst clock. cbn [fst] in *.
    apply (FlushFacts.forEach_delivers port _ Hok). }
  split; [reflexivity|].
  split; [now apply FlushFacts.toSend_NoDup|].
  split; [exact Hall|].
  unfold Queue.getAll in Hall.
  split.
  - unfold Queue.getPendingMessages. rewrite Hall.
    apply FlushFacts.filter_none. intros x Hx. apply filter_In in Hx as [_ Hx].
    unfold FlushTerms.due in Hx. apply negb_true_iff, orb_false_iff in Hx.
    tauto.
  - unfold Queue.getRetryableMessages. rewrite Hall.
    rewrite Hq. cbn [Queue.maxRetries Queue.withQueue].
    apply FlushFacts.filter_none. intros x Hx. apply filter_In in Hx as [_ Hx].
    unfold FlushTerms.due in Hx. apply negb_true_iff, orb_false_iff in Hx.
    destruct Hx as [_ Hx]. unfold FlushTerms.retryable in Hx.
    unfold Queue.retryDue in *. cbn [Queue.retryDelay] in *. exact Hx.
Qed.

Module KeyedFacts.
Import Queue QueueTerms QueueOps.

Lemma keyed_set (m : JsMap.t QueuedMessage) k v :
  msgId (message v) = k ->
  Forall (fun kv => msgId (message (snd kv)) = fst kv) m ->
  Forall (fun kv => msgId (message (snd kv)) = fst kv) (JsMap.set m k v).
Proof.
  intros Hv. induction m as [|[k' v'] m IH]; simpl; intros H.
  - constructor; [exact Hv|constructor].
  - inversion H as [|x l H1 H2]. destruct (Js.eqb k' k).
    + constructor; [exact Hv|assumption].
    + constructor; [assumption|now apply IH].
Qed.

Lemma keyed_delete (m : JsMap.t QueuedMessage) k :
  Forall (fun kv => msgId (message (snd kv)) = fst kv) m ->
  Forall (fun kv => msgId (message (snd kv)) = fst kv) (JsMap.delete m k).
Proof.
  induction m as [|[k' v'] m IH]; simpl; intros H; [constructor|].
  inversion H; subst. destruct (Js.eqb k' k); [assumption|].
  constructor; [assumption|now apply IH].
Qed.

Lemma keyed_enqueue q m : keyed q -> keyed (enqueue q m).
Proof.
  unfold keyed, enqueue. cbn [queue withQueue]. intros H.
  apply keyed_set; [reflexivity|].
  unfold evictIfFull. destruct (_ >=? _); [|exact H].
  destruct (JsMap.firstKey (queue q)) as [k|]; [|exact H].
  destruct (truthy k); [|exact H]. now apply keyed_delete.
Qed.

Lemma get_enqueue q m : get (enqueue q m) (msgId m) = Some (freshEntry m).
Proof. unfold get, enqueue. cbn [queue withQueue]. apply JsMapFacts.get_set_same. Qed.

End KeyedFacts.

Module SendFacts.
Import Queue SDK Orchestrator.
Section WithPlatform.
Context {P : NodePlatform}.

Lemma handOver_offline port m sdk sw :
  portIsConnected port = false ->
  handOver port m (sdk, sw)
  = (Returned tt,
     ({| config := config sdk; currentUser := currentUser sdk;
         messageQueue := enqueue (messageQueue sdk) m;
         emitted := emitted sdk |}, sw)).
Proof. intros H. unfold handOver. rewrite H. reflexivity. Qed.

End WithPlatform.
End SendFacts.

(** X11. A message sent while the transport is offline is put in the queue
    as a pending entry and not announced as sent; the next pass of
    [processMessageQueue] over a transport that delivers announces it as
    sent and removes it from the queue. *)
Theorem offline_message_is_sent_by_the_next_flush
  (P : NodePlatform) (text : string) (sdk : SDK.ChatSDK)
  (session : Chat.ChatSession) (w : world) (port port' : SDK.TransportPort)
  (m : Message) (sdk1 : SDK.ChatSDK) (session1 : Chat.ChatSession) (w1 : world) :
  QueueTerms.wf (SDK.messageQueue sdk) ->
  QueueOps.keyed (SDK.messageQueue sdk) ->
  SDK.transport (SDK.config sdk) = Some port ->
  SDK.portIsConnected port = false ->
  SDK.sendMessage text (sdk, (session, w)) = (Returned m, (sdk1, (session1, w1))) ->
  (forall m', SDK.portSend port' m' = Returned tt) ->
  SDK.messageQueue sdk1 = Queue.enqueue (SDK.messageQueue sdk) m /\
  Queue.get (SDK.messageQueue sdk1) (msgId m) = Some (Queue.freshEntry m) /\
  SDK.emitted sdk1 = SDK.emitted sdk /\
  exists sdk2 w2,
    Orchestrator.processMessageQueue port' (sdk1, w1) = (Returned tt, (sdk2, w2)) /\
    In (SDK.MESSAGE_SENT m) (SDK.emitted sdk2) /\
    Queue.get (SDK.messageQueue sdk2) (msgId m) = None /\
    Queue.getPendingMessages (SDK.messageQueue sdk2) = [].
Proof.
  intros Hwf Hkeyed Hport Hoff Hsend Hok.
  destruct (SDKFacts.sendMessage_returned _ _ _ _ _ _ Hsend)
    as (user & sw1 & Huser & Henc & Hhand).
  rewrite Hport in Hhand. rewrite (SendFacts.handOver_offline _ _ _ _ Hoff) in Hhand.
  injection Hhand as Hsdk1 Hsw1.
  assert (Hq1 : SDK.messageQueue sdk1 = Queue.enqueue (SDK.messageQueue sdk) m)
    by (rewrite <- Hsdk1; reflexivity).
  assert (Hget : Queue.get (SDK.messageQueue sdk1) (msgId m) = Some (Queue.freshEntry m))
    by (rewrite Hq1; apply KeyedFacts.get_enqueue).
  split; [exact Hq1|]. split; [exact Hget|].
  split; [rewrite <- Hsdk1; reflexivity|].
  assert (Hwf1 : QueueTerms.wf (SDK.messageQueue sdk1))
    by (rewrite Hq1; now apply QueueFacts.wf_enqueue).
  assert (Hkeyed1 : QueueOps.keyed (SDK.messageQueue sdk1))
    by (rewrite Hq1; now apply KeyedFacts.keyed_enqueue).
  set (q1 := SDK.messageQueue sdk1) in *.
  set (clock := fst (dateNow w1)).
  assert (Hin : In (Queue.freshEntry m) (FlushTerms.toSend q1 clock)).
  { apply FlushFacts.toSend_spec. split; [|reflexivity].
    exact (JsMapMore.get_In_values _ _ _ Hget). }
  exists (FlushTerms.withSent sdk1 (FlushTerms.toSend q1 clock)), (snd (dateNow w1)).
  assert (Hsent : SDK.messageQueue (FlushTerms.withSent sdk1 (FlushTerms.toSend q1 clock))
                  = Queue.withQueue q1
                      (filter (fun kv => negb (FlushTerms.due q1 clock (snd kv)))
                              (Queue.queue q1))).
  { unfold FlushTerms.withSent. cbn [SDK.messageQueue]. fold q1.
    rewrite (FlushFacts.markSent_all _ q1 Hwf1). f_equal.
    apply filter_ext_in. intros kv Hkv.
    now rewrite (FlushFacts.picked_by_id q1 clock kv Hwf1 Hkeyed1 Hkv). }
  split.
  { unfold Orchestrator.processMessageQueue, bind, onFst, onSnd, readStore, now.
    cbn [fst snd]. destruct (dateNow w1) as [t w'] eqn:E. cbn [fst snd].
    subst clock. cbn [fst] in *.
    apply (FlushFacts.forEach_delivers port'). intros; apply Hok. }
  split.
  { unfold FlushTerms.withSent. cbn [SDK.emitted]. apply in_or_app. right.
    change (SDK.MESSAGE_SENT m)
      with ((fun queued => SDK.MESSAGE_SENT (Queue.message queued)) (Queue.freshEntry m)).
    now apply in_map. }
  split.
  { rewrite Hsent. unfold Queue.get. cbn [Queue.queue Queue.withQueue].
    destruct (JsMap.get _ (msgId m)) as [e|] eqn:E; [|reflexivity].
    exfalso.
    assert (Hwff : QueueTerms.mapWf
              (filter (fun kv => negb (FlushTerms.due q1 clock (snd kv))) (Queue.queue q1)))
      by (apply FlushFacts.wf_filter; exact Hwf1).
    assert (Hine : In (msgId m, e)
              (filter (fun kv => negb (FlushTerms.due q1 clock (snd kv))) (Queue.queue q1))).
    { clear -E. induction (filter _ _) as [|[k v] l IH]; simpl in *; [discriminate|].
      destruct (Js.eqb k (msgId m)) eqn:Ek.
      - apply JsFacts.string_eqb_eq in Ek. injection E as <-. left. now rewrite Ek.
      - right. now apply IH. }
    apply filter_In in Hine as [Hine Hdue]. cbn [snd] in Hdue.
    assert (Hinf : In (msgId m, Queue.freshEntry m) (Queue.queue q1)).
    { clear -Hget. unfold Queue.get in Hget.
      induction (Queue.queue q1) as [|[k v] l IH]; simpl in *; [discriminate|].
      destruct (Js.eqb k (msgId m)) eqn:Ek.
      - apply JsFacts.string_eqb_eq in Ek. injection Hget as <-. left. now rewrite Ek.
      - right. now apply IH. }
    assert (Heq : (msgId m, e) = (msgId m, Queue.freshEntry m))
      by (apply (FlushFacts.fst_injective (Queue.queue q1)); auto).
    injection Heq as ->. discriminate. }
  unfold Queue.getPendingMessages. rewrite Hsent.
  cbn [Queue.queue Queue.withQueue].
  rewrite (FlushFacts.map_snd_filter (fun queued => negb (FlushTerms.due q1 clock queued))).
  apply FlushFacts.filter_none. intros x Hx. apply filter_In in Hx as [_ Hx].
  unfold FlushTerms.due in Hx. apply negb_true_iff, orb_false_iff in Hx. tauto.
Qed.

Lemma offline_message_is_sent_by_the_next_flush_witness :
  exists m sdk1 session1 w1 sdk2 w2,
    SDK.sendMessage (P := Small.platform) "hi"
      (Examples.aliceOffline, (Small.aliceBob, 0%nat))
    = (Returned m, (sdk1, (session1, w1))) /\
    Orchestrator.processMessageQueue (P := Small.platform)
      Examples.deliveringPort (sdk1, w1) = (Returned tt, (sdk2, w2)) /\
    In (SDK.MESSAGE_SENT m) (SDK.emitted sdk2) /\
    Queue.get (SDK.messageQueue sdk2) (msgId m) = None.
Proof.
  pose (r := SDK.sendMessage (P := Small.platform) "hi"
               (Examples.aliceOffline, (Small.aliceBob, 0%nat))).
  pose (m := match fst r with Returned m => m | Thrown _ => Small.envelope "" end).
  assert (Hrun : SDK.sendMessage (P := Small.platform) "hi"
                   (Examples.aliceOffline, (Small.aliceBob, 0%nat))
                 = (Returned m, (fst (snd r), (fst (snd (snd r)), snd (snd (snd r))))))
    by (vm_compute; reflexivity).
  assert (Hwf : QueueTerms.wf (SDK.messageQueue Examples.aliceOffline))
    by constructor.
  assert (Hkeyed : QueueOps.keyed (SDK.messageQueue Examples.aliceOffline))
    by constructor.
  destruct (offline_message_is_sent_by_the_next_flush Small.platform "hi"
              Examples.aliceOffline Small.aliceBob 0%nat
              Examples.offlinePort Examples.deliveringPort
              m (fst (snd r)) (fst (snd (snd r))) (snd (snd (snd r)))
              Hwf Hkeyed eq_refl eq_refl Hrun (fun _ => eq_refl))
    as (_ & _ & _ & sdk2 & w2 & Hflush & Hsent & Hgone & _).
  exists m, (fst (snd r)), (fst (snd (snd r))), (snd (snd (snd r))), sdk2, w2.
  repeat split; assumption.
Defined.

Lemma processMessageQueue_flushes_when_sends_succeed_witness :
  let q := Queue.markFailed
             (Queue.enqueue
                (Queue.enqueue Queue.defaultMessageQueue (Small.envelope "a"))
                (Small.envelope "b"))
             "a" (NetworkError "down") 1700000000001 in
  let sdk := {| SDK.config := SDK.config Examples.aliceOffline;
                SDK.currentUser := Some Small.alice;
                SDK.messageQueue := q;
                SDK.emitted := [] |} in
  exists sdk',
    Orchestrator.processMessageQueue (P := Small.platform)
      Examples.deliveringPort (sdk, 5%nat) = (Returned tt, (sdk', 6%nat)) /\
    SDK.emitted sdk' = [SDK.MESSAGE_SENT (Small.envelope "b")] /\
    List.map FlushTerms.idOf (Queue.getAll (SDK.messageQueue sdk')) = ["a"].
Proof.
  intros q sdk.
  assert (Hwf : QueueTerms.wf (SDK.messageQueue sdk)).
  { unfold QueueTerms.wf, QueueTerms.mapWf. vm_compute.
    repeat constructor; simpl; intuition discriminate. }
  assert (Hkeyed : QueueOps.keyed (SDK.messageQueue sdk)).
  { unfold QueueOps.keyed. vm_compute. repeat constructor. }
  destruct (processMessageQueue_flushes_when_sends_succeed Small.platform
              Examples.deliveringPort sdk 5%nat Hwf Hkeyed
              (fun _ _ => eq_refl))
    as (sdk' & Hrun & Hemit & _ & Hall & _).
  exists sdk'. split; [exact Hrun|]. split; [exact Hemit|].
  rewrite Hall. reflexivity.
Defined.

Module ReceiveFacts.
Import Chat SDK Orchestrator IdentityTerms.
Section WithPlatform.
Context {P : NodePlatform}.

(** [decryptMessage] adds nothing to the trace when it returns, and the one
    error it throws when it throws. *)
Lemma tryCatch_reports {A : Type} (body : Eff ChatSDK A) (sdk : ChatSDK) :
  snd (body sdk) = sdk ->
  tryCatch body (fun e => bind (emit (ERROR e)) (fun _ => throw e)) sdk
  = match fst (body sdk) with
    | Returned a => (Returned a, sdk)
    | Thrown e =>
        (Thrown e,
         {| config := config sdk; currentUser := currentUser sdk;
            messageQueue := messageQueue sdk;
            emitted := emitted sdk ++ [ERROR e] |})
    end.
Proof.
  intros H. unfold tryCatch. destruct (body sdk) as [[a|e] sdk'].
  - cbn in *. now subst.
  - cbn in *. subst. reflexivity.
Qed.

Lemma liftOutcome_pure {A : Type} (o : outcome A) (sdk : ChatSDK) :
  liftOutcome o sdk = (o, sdk).
Proof. reflexivity. Qed.

Lemma decryptGroupMessage_pure stores m id sdk :
  snd (decryptGroupMessage stores m id sdk) = sdk.
Proof.
  unfold decryptGroupMessage, bind, liftOutcome, throw.
  destruct (findGroupById stores id) as [[g|]|e]; reflexivity.
Qed.

Lemma decryptDirectMessage_pure stores m user sdk :
  snd (decryptDirectMessage stores m user sdk) = sdk.
Proof.
  unfold decryptDirectMessage, bind, liftOutcome, throw.
  destruct (present _) as [other|]; [|reflexivity].
  destruct (findUserById stores other) as [[u|]|e]; try reflexivity.
  destruct (initializeForUser _ _) as [[[]|e] s]; reflexivity.
Qed.

Lemma decryptBody_pure stores m user sdk :
  snd (match present (groupId m) with
       | Some id => decryptGroupMessage stores m id
       | None => decryptDirectMessage stores m user
       end sdk) = sdk.
Proof.
  destruct (present (groupId m)).
  - apply decryptGroupMessage_pure.
  - apply decryptDirectMessage_pure.
Qed.

Lemma decryptMessage_reports stores m user sdk :
  decryptMessage stores m user sdk
  = match fst (match present (groupId m) with
               | Some id => decryptGroupMessage stores m id
               | None => decryptDirectMessage stores m user
               end sdk) with
    | Returned a => (Returned a, sdk)
    | Thrown e =>
        (Thrown e,
         {| config := config sdk; currentUser := currentUser sdk;
            messageQueue := messageQueue sdk;
            emitted := emitted sdk ++ [ERROR e] |})
    end.
Proof.
  unfold decryptMessage. apply tryCatch_reports. apply decryptBody_pure.
Qed.

End WithPlatform.
End ReceiveFacts.

(** X14. [decryptMessage] of the orchestrator, on an envelope one user
    encrypted for another in a new session: called for the receiver, with a
    user store that knows the sender by the sender's public key, it returns
    the well-formed form of the text (a surrogate outside a pair has become
    U+FFFD; a well-formed text is returned as it was written), and so it
    does for the sender, with a store that knows the receiver; it changes
    nothing and emits nothing. The two ids differ and the id looked up is
    not empty. *)
Theorem sdk_decrypts_what_the_peer_sent
  (P : NodePlatform) (HB : Base64Laws P) (HG : GcmLaws P) (HE : EntropyLaws P)
  (HD : EcdhLaws P) (HK : KdfLaws P)
  (A B : User) (sid text : string) (w : world) :
  KeyTerms.validIdentity (IdentityTerms.identityOf A) = true ->
  KeyTerms.validIdentity (IdentityTerms.identityOf B) = true ->
  userId A <> userId B ->
  Js.valid text = true ->
  exists m s' w',
    Chat.encrypt text (userId A) (Chat.newChatSession sid A B, w)
    = (Returned m, (s', w')) /\
    (forall stores sdk A',
        Orchestrator.findUserById stores (userId A) = Returned (Some A') ->
        publicKey A' = publicKey A ->
        userId A <> "" ->
        Orchestrator.decryptMessage stores m B sdk
        = (Returned (Js.toWellFormed text), sdk)) /\
    (forall stores sdk B',
        Orchestrator.findUserById stores (userId B) = Returned (Some B') ->
        publicKey B' = publicKey B ->
        userId B <> "" ->
        Orchestrator.decryptMessage stores m A sdk
        = (Returned (Js.toWellFormed text), sdk)) /\
    (Js.isWellFormed text = true -> Js.toWellFormed text = text).
Proof.
  intros HA HB' Hne Hvalid.
  destruct (KeyMore.derive_agree _ _ HA HB') as (k & Hab & Hba & Hlen).
  cbn [IdentityTerms.identityOf kpPublicKey] in Hab, Hba.
  destruct (SessionMore.encrypt_new sid A B k text (userId A) w Hab Hlen)
    as (m & w' & Hrun & Hdec & Hs & Hr & Hg & _).
  rewrite (BufferFacts.toUtf8_fromUtf8 text Hvalid) in Hdec.
  exists m, (Chat.setSharedSecret (Chat.newChatSession sid A B) k), w'.
  split; [exact Hrun|].
  assert (Hrecv : receiverId m = Some (userId B)).
  { rewrite Hr. unfold Chat.counterpart. cbn. now rewrite JsFacts.string_eqb_refl. }
  assert (Htruthy : forall x, x <> "" -> truthy x = true).
  { intros x Hx. unfold truthy. destruct (Js.eqb x "") eqn:E; [|reflexivity].
    apply JsFacts.string_eqb_eq in E. contradiction. }
  split; [|split].
  3:{ intros Hw. now apply JsFacts.toWellFormed_id. }
  - intros stores sdk A' Hfind Hpk Hid.
    rewrite ReceiveFacts.decryptMessage_reports. rewrite Hg. cbn [Orchestrator.present].
    unfold Orchestrator.decryptDirectMessage. rewrite Hs.
    assert (E : Js.eqb (userId A) (userId B) = false)
      by (apply JsFacts.string_eqb_neq; exact Hne).
    rewrite E. cbn [Orchestrator.present]. rewrite (Htruthy _ Hid).
    unfold bind, liftOutcome. rewrite Hfind.
    rewrite SessionFacts.initializeForUser_eq.
    unfold SessionTerms.keyFor. cbn [Chat.userA Chat.userB Chat.newChatSession].
    rewrite JsFacts.string_eqb_refl, Hpk.
    change {| kpPublicKey := publicKey B; kpPrivateKey := privateKey B |}
      with (IdentityTerms.identityOf B).
    rewrite Hba.
    rewrite (SessionMore.decrypt_with_key (Chat.setSharedSecret _ k) k m B eq_refl).
    + cbn [fst]. rewrite Hdec. reflexivity.
    + unfold SessionTerms.participant. cbn. now rewrite JsFacts.string_eqb_refl.
  - intros stores sdk B' Hfind Hpk Hid.
    rewrite ReceiveFacts.decryptMessage_reports. rewrite Hg. cbn [Orchestrator.present].
    unfold Orchestrator.decryptDirectMessage. rewrite Hs, JsFacts.string_eqb_refl, Hrecv.
    cbn [Orchestrator.present]. rewrite (Htruthy _ Hid).
    unfold bind, liftOutcome. rewrite Hfind.
    rewrite SessionFacts.initializeForUser_eq.
    unfold SessionTerms.keyFor. cbn [Chat.userA Chat.userB Chat.newChatSession].
    rewrite JsFacts.string_eqb_refl, Hpk.
    change {| kpPublicKey := publicKey A; kpPrivateKey := privateKey A |}
      with (IdentityTerms.identityOf A).
    rewrite Hab.
    rewrite (SessionMore.decrypt_with_key (Chat.setSharedSecret _ k) k m A eq_refl).
    + cbn [fst]. rewrite Hdec. reflexivity.
    + unfold SessionTerms.participant. cbn. now rewrite JsFacts.string_eqb_refl.
Qed.

Lemma sdk_decrypts_what_the_peer_sent_witness :
  exists m s' w',
    Chat.encrypt (P := Small.platform) "hi" "alice"
      (Chat.newChatSession "alice-bob" Small.alice Small.bob, 0%nat)
    = (Returned m, (s', w')) /\
    Orchestrator.decryptMessage (P := Small.platform)
      (Orchestrator.inMemoryAdapters Examples.directory []) m Small.bob
      Examples.bobSdk
    = (Returned "hi", Examples.bobSdk).
Proof.
  destruct (sdk_decrypts_what_the_peer_sent Small.platform
              SmallFacts.base64 SmallFacts.gcm SmallFacts.entropy
              SmallFacts.ecdh SmallFacts.kdf
              Small.alice Small.bob "alice-bob" "hi" 0%nat eq_refl eq_refl)
    as (m & s' & w' & Hrun & Hbob & _).
  { discriminate. }
  { reflexivity. }
  exists m, s', w'. split; [exact Hrun|].
  apply (Hbob (Orchestrator.inMemoryAdapters Examples.directory [])
              Examples.bobSdk Small.alice); [reflexivity|reflexivity|discriminate].
Defined.

(** X15. [decryptMessage] of the orchestrator, on a group envelope: once
    the group store returns a group of the envelope's group id, the
    well-formed form of the text is returned (a surrogate outside a pair
    has become U+FFFD; a well-formed text is returned as it was written),
    whoever the user passed in is; it changes nothing and emits nothing.
    The group id is not empty (an empty one makes the orchestrator take the
    envelope for a direct message). *)
Theorem sdk_decrypts_group_message_by_id
  (P : NodePlatform) (HB : Base64Laws P) (HG : GcmLaws P) (HE : EntropyLaws P)
  (HK : KdfLaws P) (g : Group) (text sender : string) (w : world) :
  grpId g <> "" ->
  Js.valid text = true ->
  exists m s' w',
    GroupChat.encrypt text sender (GroupChat.newGroupSession g, w)
    = (Returned m, (s', w')) /\
    (forall stores sdk user g',
        Orchestrator.findGroupById stores (grpId g) = Returned (Some g') ->
        grpId g' = grpId g ->
        Orchestrator.decryptMessage stores m user sdk
        = (Returned (Js.toWellFormed text), sdk)) /\
    (Js.isWellFormed text = true -> Js.toWellFormed text = text).
Proof.
  intros Hid Hvalid.
  destruct (GroupFacts.group_encrypt_new g text sender w) as (enc & _ & Hrun & Hdec).
  rewrite (BufferFacts.toUtf8_fromUtf8 text Hvalid) in Hdec.
  eexists; eexists; eexists. split; [exact Hrun|].
  split; [|intros Hw; now apply JsFacts.toWellFormed_id].
  intros stores sdk user g' Hfind Hsame.
  rewrite ReceiveFacts.decryptMessage_reports. cbn [groupId Orchestrator.present].
  assert (Ht : truthy (grpId g) = true).
  { unfold truthy. destruct (Js.eqb (grpId g) "") eqn:E; [|reflexivity].
    apply JsFacts.string_eqb_eq in E. contradiction. }
  rewrite Ht. unfold Orchestrator.decryptGroupMessage, bind, liftOutcome.
  rewrite Hfind. cbn [fst snd].
  rewrite GroupFacts.group_initialize_new.
  change (snd (Returned tt, GroupTerms.ready g')) with (GroupTerms.ready g').
  unfold GroupChat.decrypt, bind, readStore, ret, liftOutcome.
  cbn [GroupChat.groupKey GroupTerms.ready fst snd ciphertext iv].
  rewrite Hsame, Hdec. reflexivity.
Qed.

(** X16. [decryptMessage] of the orchestrator leaves the orchestrator as it
    was when it returns; when it throws, it has emitted that error once as
    an error event and changed nothing else. A group the store does not
    know, an envelope with no other party, and a user the store does not
    know each give their session error. *)
Theorem decryptMessage_reports_each_failure_once
  (P : NodePlatform) (stores : Orchestrator.StoreAdapters) (m : Message)
  (user : User) (sdk : SDK.ChatSDK) :
  (forall text sdk',
      Orchestrator.decryptMessage stores m user sdk = (Returned text, sdk') ->
      sdk' = sdk) /\
  (forall e sdk',
      Orchestrator.decryptMessage stores m user sdk = (Thrown e, sdk') ->
      SDK.emitted sdk' = SDK.emitted sdk ++ [SDK.ERROR e] /\
      SDK.messageQueue sdk' = SDK.messageQueue sdk /\
      SDK.currentUser sdk' = SDK.currentUser sdk) /\
  (forall id,
      Orchestrator.present (groupId m) = Some id ->
      Orchestrator.findGroupById stores id = Returned None ->
      fst (Orchestrator.decryptMessage stores m user sdk)
      = Thrown (SessionError ("Group not found: " ++ id))) /\
  (Orchestrator.present (groupId m) = None ->
   Orchestrator.present
     (if Js.eqb (senderId m) (userId user)
      then receiverId m else Some (senderId m)) = None ->
   fst (Orchestrator.decryptMessage stores m user sdk)
   = Thrown (SessionError "Invalid message: missing receiver/sender")) /\
  (forall other,
      Orchestrator.present (groupId m) = None ->
      Orchestrator.present
        (if Js.eqb (senderId m) (userId user)
         then receiverId m else Some (senderId m)) = Some other ->
      Orchestrator.findUserById stores other = Returned None ->
      fst (Orchestrator.decryptMessage stores m user sdk)
      = Thrown (SessionError ("User not found: " ++ other))).
Proof.
  rewrite ReceiveFacts.decryptMessage_reports.
  split; [|split; [|split; [|split]]].
  - intros text sdk' H. destruct (fst _); inversion H; reflexivity.
  - intros e sdk' H. destruct (fst _); inversion H; subst. cbn. auto.
  - intros id Hg Hfind. rewrite Hg.
    unfold Orchestrator.decryptGroupMessage, bind, liftOutcome. rewrite Hfind.
    reflexivity.
  - intros Hg Ho. rewrite Hg. unfold Orchestrator.decryptDirectMessage.
    rewrite Ho. reflexivity.
  - intros other Hg Ho Hfind. rewrite Hg.
    unfold Orchestrator.decryptDirectMessage. rewrite Ho.
    unfold bind, liftOutcome. rewrite Hfind. reflexivity.
Qed.

Lemma sdk_decrypts_group_message_by_id_witness :
  exists m s' w',
    GroupChat.encrypt (P := Small.platform) "hi" "alice"
      (GroupChat.newGroupSession Examples.team, 0%nat) = (Returned m, (s', w')) /\
    Orchestrator.decryptMessage (P := Small.platform)
      (Orchestrator.inMemoryAdapters Examples.directory
         (Stores.groupCreate Examples.team []))
      m Small.carol Examples.bobSdk
    = (Returned "hi", Examples.bobSdk).
Proof.
  destruct (sdk_decrypts_group_message_by_id Small.platform
              SmallFacts.base64 SmallFacts.gcm SmallFacts.entropy SmallFacts.kdf
              Examples.team "hi" "alice" 0%nat)
    as (m & s' & w' & Hrun & Hdec & _).
  { discriminate. }
  { reflexivity. }
  exists m, s', w'. split; [exact Hrun|].
  apply (Hdec _ Examples.bobSdk Small.carol Examples.team); reflexivity.
Defined.

(** X12. What [sendMessage] refuses. Without a current user, and on a text
    that [validateMessage] rejects, it throws before doing anything: the
    orchestrator, the session and the entropy source are untouched and no
    error event is emitted. [validateMessage] rejects the empty text and a
    text of more than 10000 code units, each with its own error, and accepts
    every other text. When the encryption or the message store throws, the
    same error is thrown and emitted once as an error event, and nothing is
    queued. *)
Theorem sendMessage_refusals
  (P : NodePlatform) (text : string) (sdk : SDK.ChatSDK)
  (session : Chat.ChatSession) (w : world) :
  (SDK.currentUser sdk = None ->
   SDK.sendMessage text (sdk, (session, w))
   = (Thrown (SessionError "No current user set. Call setCurrentUser() first."),
      (sdk, (session, w)))) /\
  (forall user e,
      SDK.currentUser sdk = Some user ->
      validateMessage text = Thrown e ->
      SDK.sendMessage text (sdk, (session, w)) = (Thrown e, (sdk, (session, w)))) /\
  (forall user e sw',
      SDK.currentUser sdk = Some user ->
      validateMessage text = Returned tt ->
      Chat.encrypt text (userId user) (session, w) = (Thrown e, sw') ->
      exists sdk',
        SDK.sendMessage text (sdk, (session, w)) = (Thrown e, (sdk', sw')) /\
        SDK.emitted sdk' = SDK.emitted sdk ++ [SDK.ERROR e] /\
        SDK.messageQueue sdk' = SDK.messageQueue sdk) /\
  (forall user m e sw',
      SDK.currentUser sdk = Some user ->
      validateMessage text = Returned tt ->
      Chat.encrypt text (userId user) (session, w) = (Returned m, sw') ->
      SDK.messageStoreCreate (SDK.config sdk) m = Thrown e ->
      exists sdk',
        SDK.sendMessage text (sdk, (session, w)) = (Thrown e, (sdk', sw')) /\
        SDK.emitted sdk' = SDK.emitted sdk ++ [SDK.ERROR e] /\
        SDK.messageQueue sdk' = SDK.messageQueue sdk) /\
  validateMessage text
  = (if Js.eqb text "" then
       Thrown (ValidationError "Message content is required")
     else if Js.length text >? 10000 then
       Thrown (ValidationError
                 "Message exceeds maximum length of 10000 characters")
     else Returned tt).
Proof.
  split; [|split; [|split; [|split]]].
  - intros H. unfold SDK.sendMessage, bind, onFst, readStore. cbn [fst snd].
    rewrite H. reflexivity.
  - intros user e Hu Hv. unfold SDK.sendMessage, bind, onFst, readStore.
    cbn [fst snd]. rewrite Hu. unfold liftOutcome. rewrite Hv. reflexivity.
  - intros user e sw' Hu Hv Henc.
    unfold SDK.sendMessage, bind, onFst, readStore. cbn [fst snd]. rewrite Hu.
    unfold liftOutcome at 1. rewrite Hv. unfold tryCatch, bind, onSnd.
    cbn [fst snd]. rewrite Henc. cbn [fst snd].
    eexists. split; [reflexivity|]. split; reflexivity.
  - intros user m e sw' Hu Hv Henc Hstore.
    unfold SDK.sendMessage, bind, onFst, readStore. cbn [fst snd]. rewrite Hu.
    unfold liftOutcome at 1. rewrite Hv. unfold tryCatch, bind, onSnd.
    cbn [fst snd]. rewrite Henc. cbn [fst snd].
    unfold liftOutcome. rewrite Hstore. cbn [fst snd].
    eexists. split; [reflexivity|]. split; reflexivity.
  - unfold validateMessage, truthy, MAX_MESSAGE_LENGTH.
    destruct text as [|u text]; [reflexivity|].
    cbn [Js.eqb negb]. unfold Js.length. cbn [List.length].
    destruct (Z.eqb_spec (Z.of_nat (S (List.length text))) 0); [lia|reflexivity].
Qed.

Module MediaSendFacts.
Import Chat Queue SDK Orchestrator.
Section WithPlatform.
Context {P : NodePlatform}.

(** What [encryptMedia] does to the attachment when it returns. *)
Lemma encryptMedia_payload caption attachment sender this w m st' :
  encryptMedia caption attachment sender (this, w) = (Returned m, st') ->
  msgType m = MediaMessage /\
  senderId m = sender /\
  exists sealed, media m = Some (withData attachment sealed).
Proof.
  unfold encryptMedia, bind, onFst, onSnd, readStore, ret, throw.
  cbn [fst snd].
  destruct (sharedSecret this) as [k|] eqn:Hk; cbn [fst snd].
  - rewrite Hk. cbn [fst snd].
    destruct (E2E.encryptMessage caption k w) as [[enc|e] w1]; cbn [fst snd];
      [|discriminate].
    destruct (E2E.encryptMessage (mediaData attachment) k w1) as [[enc2|e] w2];
      cbn [fst snd]; [|discriminate].
    unfold generateUUID, now.
    destruct (randomUUID w2) as [id w3]. cbn [fst snd].
    destruct (dateNow w3) as [ts w4]. cbn [fst snd].
    intros H. injection H as <- _. cbn. eauto.
  - destruct (initialize this) as [[[]|e] this'] eqn:Hi; cbn [fst snd];
      [|discriminate].
    destruct (sharedSecret this') as [k|]; [|discriminate]. cbn [fst snd].
    destruct (E2E.encryptMessage caption k w) as [[enc|e] w1]; cbn [fst snd];
      [|discriminate].
    destruct (E2E.encryptMessage (mediaData attachment) k w1) as [[enc2|e] w2];
      cbn [fst snd]; [|discriminate].
    unfold generateUUID, now.
    destruct (randomUUID w2) as [id w3]. cbn [fst snd].
    destruct (dateNow w3) as [ts w4]. cbn [fst snd].
    intros H. injection H as <- _. cbn. eauto.
Qed.

Lemma sendMediaMessage_returned caption attachment sdk session w m st' :
  sendMediaMessage caption attachment (sdk, (session, w)) = (Returned m, st') ->
  exists user sw1,
    currentUser sdk = Some user /\
    encryptMedia caption attachment (userId user) (session, w) = (Returned m, sw1) /\
    messageStoreCreate (config sdk) m = Returned tt /\
    match transport (config sdk) with
    | Some port => handOver port m (sdk, sw1) = (Returned tt, st')
    | None => st' = (sdk, sw1)
    end.
Proof.
  unfold sendMediaMessage, bind, onFst, readStore. cbn [fst snd].
  destruct (currentUser sdk) as [user|]; [|discriminate].
  unfold tryCatch, bind, onSnd, liftOutcome, ret, throw. cbn [fst snd].
  destruct (encryptMedia caption attachment (userId user) (session, w))
    as [[m1|e] sw1] eqn:Henc; cbn [fst snd].
  2:{ unfold emit. cbn. discriminate. }
  destruct (messageStoreCreate (config sdk) m1) as [[]|e] eqn:Hstore.
  2:{ unfold emit. cbn. discriminate. }
  destruct (transport (config sdk)) as [port|].
  - destruct (handOver port m1 (sdk, sw1)) as [[[]|e] st1] eqn:Hh.
    + intros H. injection H as <- <-. exists user, sw1. auto.
    + unfold emit. cbn. discriminate.
  - intros H. injection H as <- <-. exists user, sw1. auto.
Qed.

Lemma handOver_delivered port m sdk sw :
  portIsConnected port = true ->
  portSend port m = Returned tt ->
  handOver port m (sdk, sw)
  = (Returned tt,
     ({| config := config sdk; currentUser := currentUser sdk;
         messageQueue := messageQueue sdk;
         emitted := emitted sdk ++ [MESSAGE_SENT m] |}, sw)).
Proof. intros H1 H2. unfold handOver. rewrite H1, H2. reflexivity. Qed.

End WithPlatform.
End MediaSendFacts.

(** X13. The envelope [sendMediaMessage] returns has gone to the message
    store; it is a media envelope whose attachment has the type and the
    metadata (file name, MIME type, size, thumbnail) of the attachment that
    was given, unencrypted: only the data is replaced. An offline transport
    leaves it queued and unannounced; a transport that delivers leaves the
    queue as it was and announces it as sent. *)
Theorem media_metadata_travels_in_clear
  (P : NodePlatform) (caption : string) (attachment : MediaAttachment)
  (sdk : SDK.ChatSDK) (session : Chat.ChatSession) (w : world)
  (m : Message) (sdk' : SDK.ChatSDK) (sw' : Chat.ChatSession * world) :
  Orchestrator.sendMediaMessage caption attachment (sdk, (session, w))
  = (Returned m, (sdk', sw')) ->
  (exists payload,
      media m = Some payload /\
      mediaType payload = mediaType attachment /\
      mediaMetadata payload = mediaMetadata attachment) /\
  msgType m = MediaMessage /\
  SDK.messageStoreCreate (SDK.config sdk) m = Returned tt /\
  (forall port,
      SDK.transport (SDK.config sdk) = Some port ->
      SDK.portIsConnected port = false ->
      SDK.messageQueue sdk' = Queue.enqueue (SDK.messageQueue sdk) m /\
      SDK.emitted sdk' = SDK.emitted sdk) /\
  (forall port,
      SDK.transport (SDK.config sdk) = Some port ->
      SDK.portIsConnected port = true ->
      SDK.portSend port m = Returned tt ->
      SDK.messageQueue sdk' = SDK.messageQueue sdk /\
      SDK.emitted sdk' = SDK.emitted sdk ++ [SDK.MESSAGE_SENT m]).
Proof.
  intros Hsend.
  destruct (MediaSendFacts.sendMediaMessage_returned _ _ _ _ _ _ _ Hsend)
    as (user & sw1 & Huser & Henc & Hstore & Hhand).
  destruct (MediaSendFacts.encryptMedia_payload _ _ _ _ _ _ _ Henc)
    as (Htype & _ & sealed & Hmedia).
  split.
  { exists (withData attachment sealed). split; [exact Hmedia|]. split; reflexivity. }
  split; [exact Htype|]. split; [exact Hstore|].
  split.
  - intros port Hport Hoff. rewrite Hport in Hhand.
    rewrite (SendFacts.handOver_offline _ _ _ _ Hoff) in Hhand.
    injection Hhand as <- _. split; reflexivity.
  - intros port Hport Hon Hok. rewrite Hport in Hhand.
    rewrite (MediaSendFacts.handOver_delivered _ _ _ _ Hon Hok) in Hhand.
    injection Hhand as <- _. split; reflexivity.
Qed.

Lemma media_metadata_travels_in_clear_witness :
  exists m sdk' sw',
    Orchestrator.sendMediaMessage (P := Small.platform) "" Small.photo
      (Examples.aliceLocal, (Small.aliceBob, 0%nat))
    = (Returned m, (sdk', sw')) /\
    exists payload,
      media m = Some payload /\
      mediaMetadata payload = mediaMetadata Small.photo.
Proof.
  pose (r := Orchestrator.sendMediaMessage (P := Small.platform) "" Small.photo
               (Examples.aliceLocal, (Small.aliceBob, 0%nat))).
  pose (m := match fst r with Returned m => m | Thrown _ => Small.envelope "" end).
  assert (Hrun : Orchestrator.sendMediaMessage (P := Small.platform) "" Small.photo
                   (Examples.aliceLocal, (Small.aliceBob, 0%nat))
                 = (Returned m, (fst (snd r), snd (snd r))))
    by (vm_compute; reflexivity).
  destruct (media_metadata_travels_in_clear Small.platform "" Small.photo
              Examples.aliceLocal Small.aliceBob 0%nat m
              (fst (snd r)) (snd (snd r)) Hrun)
    as ((payload & Hm & _ & Hmeta) & _).
  exists m, (fst (snd r)), (snd (snd r)). split; [exact Hrun|].
  exists payload. split; [exact Hm|exact Hmeta].
Defined.

(** ** Further properties: the connection manager *)

Module TraceFacts.
Import Transport TransportTerms TransportFacts TraceTerms.

#[local] Opaque backoffDelay.

Section Extension.
Variable ok : Output -> bool.

Lemma ext_refl c : extendsBy ok c c.
Proof. exists []. now rewrite app_nil_r. Qed.

Lemma ext_trans c1 c2 c3 :
  extendsBy ok c1 c2 -> extendsBy ok c2 c3 -> extendsBy ok c1 c3.
Proof.
  intros (l1 & H1 & O1) (l2 & H2 & O2). exists (l1 ++ l2).
  rewrite H2, H1, <- app_assoc, forallb_app, O1, O2. auto.
Qed.

Lemma ext_same c c' : outputs c' = outputs c -> extendsBy ok c c'.
Proof. intros H. exists []. now rewrite app_nil_r. Qed.

Lemma ext_emit o c : ok o = true -> extendsBy ok c (emit o c).
Proof. intros H. exists [o]. cbn. now rewrite H. Qed.

Hypothesis ok_state : forall s, ok (StateChanged s) = true.
Hypothesis ok_error : forall e, ok (ErrorReported e) = true.

Lemma ext_updateState s c : extendsBy ok c (updateState s c).
Proof.
  unfold updateState. destruct (stateEqb _ _); [apply ext_refl|].
  apply (ext_emit _ (setConnectionState s c)), ok_state.
Qed.

Lemma ext_handleError e c : extendsBy ok c (handleError e c).
Proof. apply ext_emit, ok_error. Qed.

Lemma ext_clearReconnectTimer c : extendsBy ok c (clearReconnectTimer c).
Proof.
  apply ext_same. unfold clearReconnectTimer.
  destruct (reconnectTimer c); reflexivity.
Qed.

Lemma ext_stopHeartbeat c : extendsBy ok c (stopHeartbeat c).
Proof.
  apply ext_same. unfold stopHeartbeat. destruct (heartbeatTimer c); reflexivity.
Qed.

Lemma ext_closeCurrent c : extendsBy ok c (closeCurrent c).
Proof. apply ext_same. unfold closeCurrent. destruct (ws c); reflexivity. Qed.

Lemma ext_doConnect c : extendsBy ok c (doConnect c).
Proof.
  unfold doConnect. destruct (stateEqb _ _); [apply ext_refl|].
  destruct (urlValid _).
  - apply (ext_trans _ (updateState CONNECTING c)); [apply ext_updateState|].
    apply ext_same. reflexivity.
  - apply (ext_trans _ (updateState CONNECTING c)); [apply ext_updateState|].
    apply ext_handleError.
Qed.

Lemma ext_disconnect c : extendsBy ok c (disconnect c).
Proof.
  unfold disconnect.
  set (c1 := stopHeartbeat (clearReconnectTimer (setShouldReconnect false c))).
  assert (H1 : extendsBy ok c c1).
  { apply (ext_trans _ (clearReconnectTimer (setShouldReconnect false c))).
    - apply (ext_trans _ (setShouldReconnect false c)); [now apply ext_same|].
      apply ext_clearReconnectTimer.
    - apply ext_stopHeartbeat. }
  apply (ext_trans _ _ _ H1).
  destruct (ws c1).
  - apply (ext_trans _ (setWs None (closeCurrent c1))); [|apply ext_updateState].
    apply (ext_trans _ (closeCurrent c1)); [apply ext_closeCurrent|now apply ext_same].
  - apply ext_updateState.
Qed.

Lemma ext_onopen i c : extendsBy ok c (onopen i c).
Proof.
  unfold onopen, startHeartbeat.
  set (c1 := setReconnectAttempts 0 (clearConnectionTimeout i c)).
  apply (ext_trans _ c1); [now apply ext_same|].
  apply (ext_trans _ (updateState CONNECTED c1)); [apply ext_updateState|].
  apply (ext_trans _ (stopHeartbeat (updateState CONNECTED c1)));
    [apply ext_stopHeartbeat|now apply ext_same].
Qed.

Lemma ext_onerror i c : extendsBy ok c (onerror i c).
Proof.
  unfold onerror.
  apply (ext_trans _ (clearConnectionTimeout i c)); [now apply ext_same|].
  apply ext_handleError.
Qed.

Lemma ext_onConnectionTimeout c : extendsBy ok c (onConnectionTimeout c).
Proof.
  unfold onConnectionTimeout. destruct (stateEqb _ _); [|apply ext_refl].
  apply (ext_trans _ (closeCurrent c)); [apply ext_closeCurrent|].
  apply ext_handleError.
Qed.

End Extension.
End TraceFacts.

Module TimingFacts.
Import Transport TransportTerms TransportFacts TraceTerms TraceFacts.

Lemma backoffDelay_below_ceiling (n : nat) :
  (n < RECONNECT_MAX_ATTEMPTS)%nat ->
  backoffDelay (S n) = RECONNECT_BASE_DELAY * 2 ^ (Z.of_nat (S n) - 1).
Proof.
  unfold RECONNECT_MAX_ATTEMPTS. intros H.
  do 5 (destruct n as [|n]; [reflexivity|]). lia.
Qed.

Lemma wellTimed_scheduled (n : nat) :
  (n < RECONNECT_MAX_ATTEMPTS)%nat ->
  wellTimed (ReconnectScheduled (S n) (backoffDelay (S n))) = true.
Proof.
  intros H. unfold wellTimed. rewrite (backoffDelay_below_ceiling n H).
  rewrite Z.eqb_refl, andb_true_r. apply andb_true_iff. split.
  - reflexivity.
  - apply Nat.leb_le. lia.
Qed.

Lemma attempts_clearReconnectTimer c :
  reconnectAttempts (clearReconnectTimer c) = reconnectAttempts c.
Proof. unfold clearReconnectTimer. destruct (reconnectTimer c); reflexivity. Qed.

Lemma ext_scheduleReconnect c :
  (reconnectAttempts c < RECONNECT_MAX_ATTEMPTS)%nat ->
  extendsBy wellTimed c (scheduleReconnect c).
Proof.
  intros H. unfold scheduleReconnect.
  set (c1 := setReconnectAttempts (S (reconnectAttempts (clearReconnectTimer c)))
               (clearReconnectTimer c)).
  assert (A1 : reconnectAttempts c1 = S (reconnectAttempts c))
    by (unfold c1; cbn; now rewrite attempts_clearReconnectTimer).
  assert (E1 : extendsBy wellTimed c c1).
  { apply (ext_trans _ _ (clearReconnectTimer c)).
    - apply ext_clearReconnectTimer.
    - now apply ext_same. }
  cbv zeta. fold c1.
  set (c2 := emit (ReconnectScheduled (reconnectAttempts c1)
                     (backoffDelay (reconnectAttempts c1))) c1).
  assert (E2 : extendsBy wellTimed c1 c2).
  { apply ext_emit. rewrite A1. now apply wellTimed_scheduled. }
  apply (ext_trans _ _ _ _ E1). apply (ext_trans _ _ _ _ E2).
  apply (ext_trans _ _ (updateState RECONNECTING c2)).
  - apply ext_updateState. reflexivity.
  - now apply ext_same.
Qed.

Lemma ext_onclose i c : extendsBy wellTimed c (onclose i c).
Proof.
  unfold onclose.
  set (c1 := stopHeartbeat (clearConnectionTimeout i c)).
  assert (E1 : extendsBy wellTimed c c1).
  { apply (ext_trans _ _ (clearConnectionTimeout i c)); [now apply ext_same|].
    apply ext_stopHeartbeat. }
  apply (ext_trans _ _ _ _ E1).
  destruct (negb (stateEqb (connectionState c1) DISCONNECTED)); [|apply ext_refl].
  set (c2 := updateState DISCONNECTED c1).
  apply (ext_trans _ _ c2); [apply ext_updateState; reflexivity|].
  destruct (shouldReconnect c2 && (reconnectAttempts c2 <? RECONNECT_MAX_ATTEMPTS)%nat)
    eqn:Hguard.
  - apply andb_true_iff in Hguard as [_ Hlt]. apply Nat.ltb_lt in Hlt.
    now apply ext_scheduleReconnect.
  - destruct (RECONNECT_MAX_ATTEMPTS <=? reconnectAttempts c2)%nat; [|apply ext_refl].
    apply (ext_trans _ _ (updateState FAILED c2)).
    + apply ext_updateState. reflexivity.
    + apply ext_handleError. reflexivity.
Qed.

Lemma ext_dispatch e c : extendsBy wellTimed c (dispatch e c).
Proof.
  destruct e as [j|j f|j|j|j| | |user| | |m]; unfold dispatch.
  - destruct (readyStateAt j c) as [[]|]; try apply ext_refl.
    apply (ext_trans _ _ (setReadyState j WS_OPEN c)); [now apply ext_same|].
    apply ext_onopen; reflexivity.
  - destruct (readyStateAt j c) as [[]|]; try apply ext_refl.
    unfold onmessage. destruct f.
    + apply ext_refl.
    + now apply ext_emit.
    + now apply ext_handleError.
  - destruct (readyStateAt j c) as [[]|]; try apply ext_refl;
      apply ext_onerror; reflexivity.
  - destruct (readyStateAt j c) as [[]|]; try apply ext_refl;
      (apply (ext_trans _ _ (setReadyState j WS_CLOSED c));
       [now apply ext_same|apply ext_onclose]).
  - destruct (socketAt j c) as [[? []]|]; try apply ext_refl.
    apply (ext_trans _ _ (clearConnectionTimeout j c)); [now apply ext_same|].
    apply ext_onConnectionTimeout; reflexivity.
  - destruct (reconnectTimer c) as [[]|]; try apply ext_refl.
    apply (ext_trans _ _ (setReconnectTimer (Some false) c)); [now apply ext_same|].
    apply ext_doConnect; reflexivity.
  - destruct (heartbeatTimer c); [|apply ext_refl].
    unfold heartbeat. destruct (isConnected c); [|apply ext_refl].
    destruct (ws c); [|apply ext_refl]. now apply ext_emit.
  - unfold connect.
    apply (ext_trans _ _ (setShouldReconnect true (setCurrentUserId (Some user) c)));
      [now apply ext_same|].
    apply ext_doConnect; reflexivity.
  - apply ext_disconnect; reflexivity.
  - unfold reconnect.
    set (c1 := disconnect (setShouldReconnect true (setReconnectAttempts 0 c))).
    assert (E1 : extendsBy wellTimed c c1).
    { apply (ext_trans _ _ (setShouldReconnect true (setReconnectAttempts 0 c)));
        [now apply ext_same|].
      apply ext_disconnect; reflexivity. }
    cbv zeta. fold c1.
    destruct (currentUserId c1) as [u|]; [destruct (truthy u)|]; cbn [snd];
      try exact E1.
    apply (ext_trans _ _ _ _ E1). apply ext_doConnect; reflexivity.
  - unfold send. destruct (isConnected c); [|apply ext_refl].
    destruct (ws c); cbn [snd]; [|apply ext_refl]. now apply ext_emit.
Qed.

Lemma ext_run events : forall c, extendsBy wellTimed c (run c events).
Proof.
  induction events as [|e events IH]; intros c; [apply ext_refl|].
  unfold run. cbn [fold_left].
  apply (ext_trans _ _ (dispatch e c)); [apply ext_dispatch|apply IH].
Qed.

End TimingFacts.

(** X17. Every reconnect a client schedules, in any run from its creation,
    is numbered from 1 to 5 and is delayed, before the jitter, by one second
    doubled for every earlier attempt: 1, 2, 4, 8 or 16 seconds. The cap of
    30 seconds is never reached. *)
Theorem reconnect_delays_double_and_stay_below_the_cap
  (valid : bool) (events : list Transport.Event) (attempt : nat) (delay : Z) :
  In (Transport.ReconnectScheduled attempt delay)
     (Transport.outputs
        (Transport.run (Transport.newWebSocketClient valid) events)) ->
  (1 <= attempt <= 5)%nat /\
  delay = 1000 * 2 ^ (Z.of_nat attempt - 1) /\
  delay = Transport.backoffDelay attempt /\
  1000 <= delay <= 16000 /\
  delay < Transport.RECONNECT_MAX_DELAY.
Proof.
  intros Hin.
  destruct (TimingFacts.ext_run events (Transport.newWebSocketClient valid))
    as (l & Hout & Hok).
  rewrite Hout in Hin. cbn [Transport.outputs Transport.newWebSocketClient app] in Hin.
  rewrite forallb_forall in Hok. specialize (Hok _ Hin).
  unfold TraceTerms.wellTimed in Hok.
  apply andb_true_iff in Hok as [Hok Hd]. apply andb_true_iff in Hok as [H1 H5].
  apply Nat.leb_le in H1, H5. apply Z.eqb_eq in Hd.
  unfold Transport.RECONNECT_MAX_ATTEMPTS, Transport.RECONNECT_BASE_DELAY in *.
  split; [lia|]. split; [exact Hd|].
  destruct attempt as [|n]; [lia|].
  assert (Hn : (n < Transport.RECONNECT_MAX_ATTEMPTS)%nat)
    by (unfold Transport.RECONNECT_MAX_ATTEMPTS; lia).
  split; [rewrite (TimingFacts.backoffDelay_below_ceiling n Hn); exact Hd|].
  subst delay. unfold Transport.RECONNECT_MAX_DELAY.
  do 5 (destruct n as [|n]; [cbn; lia|]). lia.
Qed.

Lemma reconnect_delays_double_and_stay_below_the_cap_witness :
  let events := [Transport.CallConnect "alice"; Transport.SocketOpened 0;
                 Transport.SocketClosed 0; Transport.ReconnectTimerFired;
                 Transport.SocketClosed 1] in
  In (Transport.ReconnectScheduled 2 2000)
     (Transport.outputs
        (Transport.run (Transport.newWebSocketClient true) events)) /\
  2000 = Transport.backoffDelay 2 /\
  2000 < Transport.RECONNECT_MAX_DELAY.
Proof.
  intros events.
  assert (Hin : In (Transport.ReconnectScheduled 2 2000)
                   (Transport.outputs
                      (Transport.run (Transport.newWebSocketClient true) events)))
    by (vm_compute; tauto).
  split; [exact Hin|].
  destruct (reconnect_delays_double_and_stay_below_the_cap true events 2 2000 Hin)
    as (_ & _ & Hdelay & _ & Hcap).
  split; [exact Hdelay|exact Hcap].
Defined.

Module DormantFacts.
Import Transport TransportTerms TransportFacts TraceTerms TraceFacts.

Lemma forallb_changeSocket (p : Socket -> bool) (f : Socket -> Socket) :
  (forall s, p s = true -> p (f s) = true) ->
  forall l i, forallb p l = true -> forallb p (changeSocket i f l) = true.
Proof.
  intros Hf. induction l as [|s l IH]; intros i H; [destruct i; reflexivity|].
  cbn in H. apply andb_true_iff in H as [Hs Hl].
  destruct i; cbn; rewrite ?Hs, ?Hl, ?(Hf s Hs), ?IH; auto.
Qed.

Lemma dying_closing s : dying (closing s) = true.
Proof. unfold closing, dying. destruct s as [[] ?]; reflexivity. Qed.

Lemma dying_at l i s :
  forallb dying l = true -> nth_error l i = Some s -> dying s = true.
Proof.
  intros H Hn. rewrite forallb_forall in H. apply H.
  now apply nth_error_In with i.
Qed.

Lemma othersDying_past l :
  forall n k,
    (k < n)%nat -> othersDying (Some k) n l = true -> forallb dying l = true.
Proof.
  induction l as [|s l IH]; intros n k Hk H; [reflexivity|].
  cbn [othersDying] in H. apply andb_true_iff in H as [Hs Hl].
  assert (E : Nat.eqb n k = false) by (apply Nat.eqb_neq; lia).
  rewrite E in Hs. cbn in Hs. cbn. rewrite Hs. cbn.
  apply (IH (S n) k); [lia|exact Hl].
Qed.

(** Closing the current socket of a client that holds no other live socket
    leaves none alive. *)
Lemma othersDying_close l :
  forall k j,
    othersDying (Some (k + j)%nat) k l = true ->
    forallb dying (changeSocket j closing l) = true.
Proof.
  induction l as [|s l IH]; intros k j H; [destruct j; reflexivity|].
  cbn [othersDying] in H. apply andb_true_iff in H as [Hs Hl].
  destruct j as [|j].
  - cbn [changeSocket forallb]. rewrite dying_closing. cbn.
    apply (othersDying_past l (S k) (k + 0)); [lia|exact Hl].
  - cbn [changeSocket forallb].
    assert (E : Nat.eqb k (k + S j) = false) by (apply Nat.eqb_neq; lia).
    rewrite E in Hs. cbn in Hs. rewrite Hs. cbn.
    apply (IH (S k) j). now replace (S k + j)%nat with (k + S j)%nat by lia.
Qed.

Lemma othersDying_none l : forall k,
  othersDying None k l = true -> forallb dying l = true.
Proof.
  induction l as [|s l IH]; intros k H; [reflexivity|].
  cbn in *. apply andb_true_iff in H as [Hs Hl]. rewrite Hs. cbn.
  now apply (IH (S k)).
Qed.

Lemma dormant_after_disconnect c :
  onlyCurrentAlive c = true -> Dormant (disconnect c).
Proof.
  unfold onlyCurrentAlive. intros H.
  destruct c as [w url st att tmr hb uid sr socks outs].
  cbn [ws sockets] in H.
  unfold Dormant, disconnect, clearReconnectTimer, stopHeartbeat, closeCurrent,
    updateState.
  destruct tmr as [t|], hb, w as [i|], st; cbn;
    repeat split;
    try (apply (othersDying_close socks 0 i); exact H);
    try (apply (othersDying_none socks 0); exact H).
Qed.

Lemma readyState_dying l i :
  forallb dying l = true ->
  option_map readyState (nth_error l i) = Some WS_CLOSING \/
  option_map readyState (nth_error l i) = Some WS_CLOSED \/
  option_map readyState (nth_error l i) = None.
Proof.
  intros H. destruct (nth_error l i) as [s|] eqn:E; [|auto].
  pose proof (dying_at l i s H E) as Hd. unfold dying in Hd. cbn.
  destruct (readyState s); try discriminate; auto.
Qed.

Lemma dying_withReadyState_closed s : dying (withReadyState WS_CLOSED s) = true.
Proof. reflexivity. Qed.

Lemma dying_withoutTimeout s : dying s = true -> dying (withoutTimeout s) = true.
Proof. destruct s. auto. Qed.

(** A dormant client answers the runtime with error reports at most, and
    stays dormant. *)
Lemma dormant_dispatch c e :
  Dormant c -> automatic e = true ->
  Dormant (dispatch e c) /\
  extendsBy isErrorReport c (dispatch e c) /\
  scheduledReconnects (dispatch e c) = scheduledReconnects c.
Proof.
  intros (Hst & Hws & Hsr & Htm & Hhb & Hdy) Ha.
  destruct c as [w url st att tmr hb uid sr socks outs].
  cbn [connectionState ws shouldReconnect reconnectTimer heartbeatTimer sockets]
    in *. subst.
  assert (Hrefl : forall c', Dormant c' ->
            Dormant c' /\ extendsBy isErrorReport c' c' /\
            scheduledReconnects c' = scheduledReconnects c')
    by (intros c' H; split; [exact H|split; [apply ext_refl|reflexivity]]).
  assert (Hdorm : forall l outs',
            forallb dying l = true ->
            Dormant {| ws := None; urlValid := url; connectionState := DISCONNECTED;
                       reconnectAttempts := att; reconnectTimer := None;
                       heartbeatTimer := false; currentUserId := uid;
                       shouldReconnect := false; sockets := l; outputs := outs' |})
    by (intros; unfold Dormant; cbn; auto 10).
  destruct e as [j|j f|j|j|j| | |user| | |m]; try discriminate Ha;
    unfold dispatch, readyStateAt, socketAt; cbn [sockets].
  - destruct (readyState_dying socks j Hdy) as [H|[H|H]]; rewrite H;
      apply Hrefl; now apply Hdorm.
  - destruct (readyState_dying socks j Hdy) as [H|[H|H]]; rewrite H;
      apply Hrefl; now apply Hdorm.
  - destruct (readyState_dying socks j Hdy) as [H|[H|H]]; rewrite H;
      try (apply Hrefl; now apply Hdorm).
    unfold onerror, handleError, clearConnectionTimeout, emit. cbn.
    split; [|split].
    + apply Hdorm. apply forallb_changeSocket; [apply dying_withoutTimeout|exact Hdy].
    + exists [ErrorReported (NetworkError "WebSocket error")]. auto.
    + unfold scheduledReconnects. cbn. rewrite filter_app, length_app. cbn. lia.
  - destruct (readyState_dying socks j Hdy) as [H|[H|H]]; rewrite H;
      try (apply Hrefl; now apply Hdorm).
    unfold onclose, setReadyState, clearConnectionTimeout, stopHeartbeat. cbn.
    split; [|split].
    + apply Hdorm. apply forallb_changeSocket; [apply dying_withoutTimeout|].
      apply forallb_changeSocket; [intros; apply dying_withReadyState_closed|exact Hdy].
    + now apply ext_same.
    + reflexivity.
  - destruct (nth_error socks j) as [[r []]|] eqn:E;
      try (apply Hrefl; now apply Hdorm).
    unfold onConnectionTimeout, clearConnectionTimeout. cbn.
    split; [|split].
    + apply Hdorm. apply forallb_changeSocket; [apply dying_withoutTimeout|exact Hdy].
    + now apply ext_same.
    + reflexivity.
  - cbn. apply Hrefl. now apply Hdorm.
  - cbn. apply Hrefl. now apply Hdorm.
Qed.

Lemma dormant_run events :
  forall c,
    Dormant c -> forallb automatic events = true ->
    Dormant (run c events) /\
    extendsBy isErrorReport c (run c events) /\
    scheduledReconnects (run c events) = scheduledReconnects c.
Proof.
  induction events as [|e events IH]; intros c Hd Ha.
  - cbn. split; [exact Hd|split; [apply ext_refl|reflexivity]].
  - cbn [forallb] in Ha. apply andb_true_iff in Ha as [He Ha].
    destruct (dormant_dispatch c e Hd He) as (Hd1 & He1 & Hs1).
    destruct (IH _ Hd1 Ha) as (Hd2 & He2 & Hs2).
    unfold run in *. cbn [fold_left].
    split; [exact Hd2|]. split; [|congruence].
    exact (ext_trans _ _ _ _ He1 He2).
Qed.

End DormantFacts.

(** X18. After [disconnect()], on a client that holds no live socket
    besides its current one, whatever the sockets and timers still raise
    leaves the client DISCONNECTED, with no socket, no reconnect timer and
    no heartbeat: no reconnect is scheduled, and the only outputs are error
    reports of the sockets that are closing. *)
Theorem disconnect_is_final
  (c : Transport.WebSocketClient) (events : list Transport.Event) :
  TraceTerms.onlyCurrentAlive c = true ->
  forallb Transport.automatic events = true ->
  let c' := Transport.run (Transport.disconnect c) events in
  Transport.connectionState c' = Transport.DISCONNECTED /\
  Transport.ws c' = None /\
  Transport.reconnectTimer c' = None /\
  Transport.heartbeatTimer c' = false /\
  Transport.isConnected c' = false /\
  Transport.scheduledReconnects c' = Transport.scheduledReconnects c /\
  TraceTerms.extendsBy TraceTerms.isErrorReport (Transport.disconnect c) c'.
Proof.
  intros Halive Ha c'.
  pose proof (DormantFacts.dormant_after_disconnect c Halive) as Hd.
  destruct (DormantFacts.dormant_run events _ Hd Ha)
    as ((Hst & Hws & Hsr & Htm & Hhb & Hdy) & Hext & Hsched).
  fold c' in Hst, Hws, Hsr, Htm, Hhb, Hdy, Hext, Hsched.
  repeat (split; [assumption|]).
  split.
  - unfold Transport.isConnected. rewrite Hst. reflexivity.
  - split; [|exact Hext].
    rewrite Hsched. apply TransportFacts.sched_disconnect.
Qed.

Lemma disconnect_is_final_witness :
  let c := Transport.run (Transport.newWebSocketClient true)
             [Transport.CallConnect "alice"; Transport.SocketOpened 0] in
  let c' := Transport.run (Transport.disconnect c)
              [Transport.SocketErrored 0; Transport.SocketClosed 0;
               Transport.ReconnectTimerFired; Transport.HeartbeatFired] in
  Transport.connectionState c = Transport.CONNECTED /\
  Transport.connectionState c' = Transport.DISCONNECTED /\
  Transport.scheduledReconnects c' = 0%nat.
Proof.
  intros c c'.
  destruct (disconnect_is_final c
              [Transport.SocketErrored 0; Transport.SocketClosed 0;
               Transport.ReconnectTimerFired; Transport.HeartbeatFired]
              eq_refl eq_refl) as (Hst & _ & _ & _ & _ & Hsched & _).
  split; [reflexivity|]. split; [exact Hst|exact Hsched].
Defined.

Module SwitchFacts.
Import Transport TransportTerms TransportFacts TraceTerms TraceFacts.

#[local] Opaque backoffDelay.

Ltac frame :=
  intros;
  repeat (first
    [ reflexivity
    | match goal with
      | |- context [match ?x with _ => _ end] => destruct x
      end ]).

Lemma sr_updateState s c : shouldReconnect (updateState s c) = shouldReconnect c.
Proof. unfold updateState. frame. Qed.

Lemma sr_stopHeartbeat c : shouldReconnect (stopHeartbeat c) = shouldReconnect c.
Proof. unfold stopHeartbeat. frame. Qed.

Lemma sr_clearReconnectTimer c :
  shouldReconnect (clearReconnectTimer c) = shouldReconnect c.
Proof. unfold clearReconnectTimer. frame. Qed.

Lemma sr_closeCurrent c : shouldReconnect (closeCurrent c) = shouldReconnect c.
Proof. unfold closeCurrent. frame. Qed.

Lemma sr_doConnect c : shouldReconnect (doConnect c) = shouldReconnect c.
Proof.
  unfold doConnect. destruct (stateEqb _ _); [reflexivity|].
  destruct (urlValid _); cbn; apply sr_updateState.
Qed.

Lemma sr_disconnect c : shouldReconnect (disconnect c) = false.
Proof.
  unfold disconnect. rewrite sr_updateState.
  destruct (ws _); cbn [shouldReconnect setWs];
    rewrite ?sr_closeCurrent, sr_stopHeartbeat, sr_clearReconnectTimer;
    reflexivity.
Qed.

Lemma sr_onopen i c : shouldReconnect (onopen i c) = shouldReconnect c.
Proof.
  unfold onopen, startHeartbeat. cbn [shouldReconnect setHeartbeatTimer].
  rewrite sr_stopHeartbeat, sr_updateState. reflexivity.
Qed.

Lemma sr_onConnectionTimeout c :
  shouldReconnect (onConnectionTimeout c) = shouldReconnect c.
Proof.
  unfold onConnectionTimeout. destruct (stateEqb _ _); [|reflexivity].
  cbn. apply sr_closeCurrent.
Qed.

(** With automatic reconnection off, a closing socket schedules nothing. *)
Lemma onclose_off i c :
  shouldReconnect c = false ->
  shouldReconnect (onclose i c) = false /\
  scheduledReconnects (onclose i c) = scheduledReconnects c.
Proof.
  intros Hoff. unfold onclose.
  set (c1 := stopHeartbeat (clearConnectionTimeout i c)).
  assert (S1 : shouldReconnect c1 = false)
    by (unfold c1; rewrite sr_stopHeartbeat; exact Hoff).
  assert (H1 : scheduledReconnects c1 = scheduledReconnects c)
    by (unfold c1; rewrite sched_stopHeartbeat; reflexivity).
  destruct (negb (stateEqb (connectionState c1) DISCONNECTED)); [|auto].
  set (c2 := updateState DISCONNECTED c1).
  assert (S2 : shouldReconnect c2 = false)
    by (unfold c2; rewrite sr_updateState; exact S1).
  assert (H2 : scheduledReconnects c2 = scheduledReconnects c)
    by (unfold c2; rewrite sched_updateState; exact H1).
  rewrite S2. cbn [andb].
  destruct (RECONNECT_MAX_ATTEMPTS <=? reconnectAttempts c2)%nat; [|auto].
  split.
  - cbn. rewrite sr_updateState. exact S2.
  - rewrite sched_handleError, sched_updateState. exact H2.
Qed.

Lemma off_dispatch e c :
  shouldReconnect c = false -> isCallConnect e = false ->
  shouldReconnect (dispatch e c) = false /\
  scheduledReconnects (dispatch e c) = scheduledReconnects c.
Proof.
  intros Hoff He.
  destruct e as [j|j f|j|j|j| | |user| | |m]; try discriminate He;
    unfold dispatch.
  - destruct (readyStateAt j c) as [[]|]; auto.
    rewrite sr_onopen, sched_onopen. auto.
  - destruct (readyStateAt j c) as [[]|]; auto.
    unfold onmessage. destruct f; auto.
    + rewrite sched_emit. cbn. auto.
    + rewrite sched_handleError. auto.
  - unfold onerror.
    destruct (readyStateAt j c) as [[]|]; auto;
      rewrite sched_handleError; auto.
  - destruct (readyStateAt j c) as [[]|]; auto;
      apply (onclose_off j (setReadyState j WS_CLOSED c)); exact Hoff.
  - destruct (socketAt j c) as [[? []]|]; auto.
    rewrite sr_onConnectionTimeout, sched_onConnectionTimeout. auto.
  - destruct (reconnectTimer c) as [[]|]; auto.
    rewrite sr_doConnect, sched_doConnect. auto.
  - unfold heartbeat. destruct (heartbeatTimer c); auto.
    destruct (isConnected c); auto. destruct (ws c); auto.
    rewrite sched_emit. cbn. auto.
  - rewrite sr_disconnect, sched_disconnect. auto.
  - unfold reconnect.
    destruct (currentUserId _) as [u|]; [destruct (truthy u)|]; cbn [snd];
      rewrite ?sr_doConnect, ?sched_doConnect, sr_disconnect, sched_disconnect;
      auto.
  - unfold send. destruct (isConnected c); auto.
    destruct (ws c); cbn [snd]; auto. rewrite sched_emit. cbn. auto.
Qed.

Lemma off_run events :
  forall c,
    shouldReconnect c = false ->
    forallb (fun e => negb (isCallConnect e)) events = true ->
    shouldReconnect (run c events) = false /\
    scheduledReconnects (run c events) = scheduledReconnects c.
Proof.
  induction events as [|e events IH]; intros c Hoff He; [auto|].
  cbn [forallb] in He. apply andb_true_iff in He as [He Hes].
  apply negb_true_iff in He.
  destruct (off_dispatch e c Hoff He) as [H1 H2].
  destruct (IH _ H1 Hes) as [H3 H4].
  unfold run in *. cbn [fold_left]. split; [exact H3|congruence].
Qed.

Lemma attempts_closeCurrent c :
  reconnectAttempts (closeCurrent c) = reconnectAttempts c.
Proof. unfold closeCurrent. frame. Qed.

Lemma attempts_doConnect c : reconnectAttempts (doConnect c) = reconnectAttempts c.
Proof.
  unfold doConnect. destruct (stateEqb _ _); [reflexivity|].
  destruct (urlValid _); cbn; apply attempts_updateState.
Qed.

Lemma attempts_disconnect c : reconnectAttempts (disconnect c) = reconnectAttempts c.
Proof.
  unfold disconnect. rewrite attempts_updateState.
  destruct (ws _); cbn [reconnectAttempts setWs];
    rewrite ?attempts_closeCurrent, attempts_stopHeartbeat,
      TimingFacts.attempts_clearReconnectTimer;
    reflexivity.
Qed.

(** A dormant client that connects, sees its socket open and then close. *)
Lemma dormant_connect_open_close d :
  Dormant d -> urlValid d = true ->
  let i := List.length (sockets d) in
  connectionState (doConnect d) = CONNECTING /\
  ws (doConnect d) = Some i /\
  connectionState (run (doConnect d) [SocketOpened i]) = CONNECTED /\
  connectionState (run (doConnect d) [SocketOpened i; SocketClosed i])
  = DISCONNECTED /\
  reconnectTimer (run (doConnect d) [SocketOpened i; SocketClosed i]) = None.
Proof.
  intros (Hst & Hws & Hsr & Htm & Hhb & Hdy) Hurl i.
  destruct d as [w url st att tmr hb uid sr socks outs].
  cbn [connectionState ws shouldReconnect reconnectTimer heartbeatTimer sockets
       urlValid] in *. subst. subst i.
  set (new := {| readyState := WS_CONNECTING; timeoutPending := true |}).
  set (opened := {| readyState := WS_OPEN; timeoutPending := false |}).
  set (c1 := {| ws := Some (List.length socks); urlValid := true;
                connectionState := CONNECTING; reconnectAttempts := att;
                reconnectTimer := None; heartbeatTimer := false;
                currentUserId := uid; shouldReconnect := false;
                sockets := socks ++ [new];
                outputs := outs ++ [StateChanged CONNECTING] |}).
  assert (E1 : doConnect
                 {| ws := None; urlValid := true; connectionState := DISCONNECTED;
                    reconnectAttempts := att; reconnectTimer := None;
                    heartbeatTimer := false; currentUserId := uid;
                    shouldReconnect := false; sockets := socks; outputs := outs |}
               = c1) by reflexivity.
  rewrite E1.
  set (c2 := {| ws := Some (List.length socks); urlValid := true;
                connectionState := CONNECTED; reconnectAttempts := 0;
                reconnectTimer := None; heartbeatTimer := true;
                currentUserId := uid; shouldReconnect := false;
                sockets := socks ++ [opened];
                outputs := (outs ++ [StateChanged CONNECTING])
                           ++ [StateChanged CONNECTED] |}).
  assert (E2 : dispatch (SocketOpened (List.length socks)) c1 = c2).
  { unfold dispatch, readyStateAt, socketAt, c1. cbn [sockets].
    rewrite nth_error_last. cbn [option_map readyState new].
    unfold onopen, setReadyState, clearConnectionTimeout. cbn [sockets setSockets].
    rewrite !changeSocket_last. reflexivity. }
  assert (E3 : connectionState (dispatch (SocketClosed (List.length socks)) c2)
               = DISCONNECTED /\
               reconnectTimer (dispatch (SocketClosed (List.length socks)) c2) = None).
  { unfold dispatch, readyStateAt, socketAt, c2. cbn [sockets].
    rewrite nth_error_last. cbn [option_map readyState opened].
    unfold onclose, setReadyState, clearConnectionTimeout. cbn [sockets setSockets].
    rewrite !changeSocket_last. cbn. auto. }
  unfold run. cbn [fold_left]. rewrite E2.
  split; [reflexivity|]. split; [reflexivity|]. split; [reflexivity|]. exact E3.
Qed.

End SwitchFacts.

(** X19. [reconnect()] resets the attempt counter and leaves automatic
    reconnection switched off, because the [disconnect()] it calls clears
    the flag it has just set: until [connect()] is called again no reconnect
    is scheduled, whatever happens. In particular, on a client that has a
    user id that is not empty, when the connection it opens is established
    and then drops, the client ends DISCONNECTED with no reconnect timer.
    On a client with no user id, or with the empty one, [reconnect()]
    throws and leaves the client DISCONNECTED. *)
Theorem manual_reconnect_turns_auto_reconnect_off
  (c : Transport.WebSocketClient) (events : list Transport.Event) :
  forallb (fun e => negb (TraceTerms.isCallConnect e)) events = true ->
  let c1 := snd (Transport.reconnect c) in
  Transport.shouldReconnect c1 = false /\
  Transport.reconnectAttempts c1 = 0%nat /\
  Transport.shouldReconnect (Transport.run c1 events) = false /\
  Transport.scheduledReconnects (Transport.run c1 events)
  = Transport.scheduledReconnects c /\
  (forall user,
      Transport.currentUserId c = Some user ->
      user <> "" ->
      Transport.urlValid c = true ->
      TraceTerms.onlyCurrentAlive c = true ->
      let i := List.length (Transport.sockets c) in
      fst (Transport.reconnect c) = Returned tt /\
      Transport.connectionState c1 = Transport.CONNECTING /\
      Transport.connectionState (Transport.run c1 [Transport.SocketOpened i])
      = Transport.CONNECTED /\
      Transport.connectionState
        (Transport.run c1 [Transport.SocketOpened i; Transport.SocketClosed i])
      = Transport.DISCONNECTED /\
      Transport.reconnectTimer
        (Transport.run c1 [Transport.SocketOpened i; Transport.SocketClosed i])
      = None) /\
  (Transport.currentUserId c = None \/ Transport.currentUserId c = Some "" ->
   fst (Transport.reconnect c)
   = Thrown (TransportError "Cannot reconnect: no user ID set") /\
   Transport.connectionState c1 = Transport.DISCONNECTED /\
   Transport.ws c1 = None).
Proof.
  intros Hev c1.
  set (c0 := Transport.setShouldReconnect true (Transport.setReconnectAttempts 0 c)).
  set (d := Transport.disconnect c0).
  assert (Hrec : Transport.reconnect c
                 = match Transport.currentUserId d with
                   | Some user =>
                       if truthy user then (Returned tt, Transport.doConnect d)
                       else (Thrown (TransportError "Cannot reconnect: no user ID set"), d)
                   | None =>
                       (Thrown (TransportError "Cannot reconnect: no user ID set"), d)
                   end) by reflexivity.
  assert (Hc1 : c1 = match Transport.currentUserId d with
                     | Some user => if truthy user then Transport.doConnect d else d
                     | None => d
                     end).
  { unfold c1. rewrite Hrec.
    destruct (Transport.currentUserId d) as [u|]; [destruct (truthy u)|];
      reflexivity. }
  assert (Hsr : Transport.shouldReconnect c1 = false).
  { rewrite Hc1.
    destruct (Transport.currentUserId d) as [u|]; [destruct (truthy u)|];
      rewrite ?SwitchFacts.sr_doConnect; apply SwitchFacts.sr_disconnect. }
  assert (Hsched : Transport.scheduledReconnects c1 = Transport.scheduledReconnects c).
  { rewrite Hc1.
    destruct (Transport.currentUserId d) as [u|]; [destruct (truthy u)|];
      rewrite ?TransportFacts.sched_doConnect; unfold d;
      rewrite TransportFacts.sched_disconnect; reflexivity. }
  assert (Hatt : Transport.reconnectAttempts c1 = 0%nat).
  { rewrite Hc1.
    destruct (Transport.currentUserId d) as [u|]; [destruct (truthy u)|];
      rewrite ?SwitchFacts.attempts_doConnect; unfold d;
      rewrite SwitchFacts.attempts_disconnect; reflexivity. }
  assert (Hdu : Transport.currentUserId d = Transport.currentUserId c).
  { unfold d, Transport.disconnect, Transport.clearReconnectTimer,
      Transport.stopHeartbeat, Transport.closeCurrent, Transport.updateState.
    destruct c as [w url st att tmr hb uid sr socks outs].
    destruct tmr, hb, w, st; reflexivity. }
  destruct (SwitchFacts.off_run events c1 Hsr Hev) as [Hoff Hsame].
  split; [exact Hsr|]. split; [exact Hatt|]. split; [exact Hoff|].
  split; [congruence|]. split.
  - intros user Huser Hne Hurl Halive i.
    assert (Hd : TraceTerms.Dormant d)
      by (apply DormantFacts.dormant_after_disconnect; exact Halive).
    assert (Hdurl : Transport.urlValid d = true).
    { rewrite <- Hurl.
      unfold d, Transport.disconnect, Transport.clearReconnectTimer,
        Transport.stopHeartbeat, Transport.closeCurrent, Transport.updateState.
      destruct c as [w url st att tmr hb uid sr socks outs].
      destruct tmr, hb, w, st; reflexivity. }
    assert (Hdlen : List.length (Transport.sockets d) = i).
    { unfold d, Transport.disconnect, Transport.clearReconnectTimer,
        Transport.stopHeartbeat, Transport.closeCurrent, Transport.updateState.
      destruct c as [w url st att tmr hb uid sr socks outs].
      assert (Hlen : forall j f, List.length (Transport.changeSocket j f socks)
                                 = List.length socks).
      { clear. induction socks as [|s l IH]; intros [|j] f; cbn; auto. }
      destruct tmr, hb, w, st; cbn; rewrite ?Hlen; reflexivity. }
    assert (Ht : truthy user = true) by (apply JsFacts.truthy_nonempty; exact Hne).
    rewrite Hrec, Hc1, Hdu, Huser, Ht.
    destruct (SwitchFacts.dormant_connect_open_close d Hd Hdurl)
      as (H1 & _ & H3 & H4 & H5).
    rewrite Hdlen in H3, H4, H5. auto.
  - intros Hnone.
    assert (Hstate : Transport.connectionState d = Transport.DISCONNECTED
                     /\ Transport.ws d = None).
    { unfold d, Transport.disconnect, Transport.clearReconnectTimer,
        Transport.stopHeartbeat, Transport.closeCurrent, Transport.updateState.
      destruct c0 as [w url st att tmr hb uid sr socks outs].
      destruct tmr, hb, w, st; split; reflexivity. }
    rewrite Hrec, Hc1, Hdu.
    destruct Hnone as [-> | ->]; cbn [truthy Js.eqb negb fst]; exact (conj eq_refl Hstate).
Qed.

Lemma manual_reconnect_turns_auto_reconnect_off_witness :
  let c := Transport.run (Transport.newWebSocketClient true)
             [Transport.CallConnect "alice"; Transport.SocketOpened 0] in
  let c1 := snd (Transport.reconnect c) in
  Transport.shouldReconnect c = true /\
  Transport.shouldReconnect c1 = false /\
  Transport.connectionState
    (Transport.run c1 [Transport.SocketClosed 0; Transport.SocketOpened 1;
                       Transport.SocketClosed 1])
  = Transport.DISCONNECTED /\
  Transport.scheduledReconnects
    (Transport.run c1 [Transport.SocketClosed 0; Transport.SocketOpened 1;
                       Transport.SocketClosed 1])
  = 0%nat.
Proof.
  intros c c1.
  destruct (manual_reconnect_turns_auto_reconnect_off c
              [Transport.SocketClosed 0; Transport.SocketOpened 1;
               Transport.SocketClosed 1] eq_refl)
    as (Hsr & _ & _ & Hsched & _).
  split; [reflexivity|]. split; [exact Hsr|]. split; [reflexivity|exact Hsched].
Defined.

(** X20. When the reconnect timer fires and the new socket opens, the
    client is connected again with its attempt counter back at zero,
    however many attempts were counted before; when that connection drops,
    the first reconnect of a new series of five is scheduled. *)
Theorem successful_reconnect_restores_the_budget
  (n : nat) (c : Transport.WebSocketClient) :
  TransportTerms.backingOff n c = true ->
  let i := List.length (Transport.sockets c) in
  let opened := Transport.run c [Transport.ReconnectTimerFired;
                                 Transport.SocketOpened i] in
  TransportTerms.established i opened = true /\
  Transport.reconnectAttempts opened = 0%nat /\
  Transport.scheduledReconnects opened = Transport.scheduledReconnects c /\
  TransportTerms.backingOff 1
    (Transport.run c [Transport.ReconnectTimerFired; Transport.SocketOpened i;
                      Transport.SocketClosed i]) = true.
Proof.
  intros Hb i opened.
  apply ReconnectFacts.backingOff_spec in Hb.
  destruct Hb as (Hst & Hatt & Htm & Hhb & Hsr & Hurl & Hsettled).
  destruct c as [w url st att tmr hb uid sr socks outs].
  cbn [Transport.connectionState Transport.reconnectAttempts
       Transport.reconnectTimer Transport.heartbeatTimer
       Transport.shouldReconnect Transport.urlValid Transport.sockets] in *.
  subst. subst i.
  set (new := {| Transport.readyState := Transport.WS_CONNECTING;
                 Transport.timeoutPending := true |}).
  set (live := {| Transport.readyState := Transport.WS_OPEN;
                  Transport.timeoutPending := false |}).
  set (c1 := {| Transport.ws := Some (List.length socks);
                Transport.urlValid := true;
                Transport.connectionState := Transport.CONNECTING;
                Transport.reconnectAttempts := n;
                Transport.reconnectTimer := Some false;
                Transport.heartbeatTimer := false;
                Transport.currentUserId := uid;
                Transport.shouldReconnect := true;
                Transport.sockets := socks ++ [new];
                Transport.outputs :=
                  outs ++ [Transport.StateChanged Transport.CONNECTING] |}).
  set (c2 := {| Transport.ws := Some (List.length socks);
                Transport.urlValid := true;
                Transport.connectionState := Transport.CONNECTED;
                Transport.reconnectAttempts := 0;
                Transport.reconnectTimer := Some false;
                Transport.heartbeatTimer := true;
                Transport.currentUserId := uid;
                Transport.shouldReconnect := true;
                Transport.sockets := socks ++ [live];
                Transport.outputs :=
                  (outs ++ [Transport.StateChanged Transport.CONNECTING])
                  ++ [Transport.StateChanged Transport.CONNECTED] |}).
  assert (E1 : Transport.dispatch Transport.ReconnectTimerFired
                 {| Transport.ws := w; Transport.urlValid := true;
                    Transport.connectionState := Transport.RECONNECTING;
                    Transport.reconnectAttempts := n;
                    Transport.reconnectTimer := Some true;
                    Transport.heartbeatTimer := false;
                    Transport.currentUserId := uid;
                    Transport.shouldReconnect := true;
                    Transport.sockets := socks; Transport.outputs := outs |}
               = c1) by reflexivity.
  assert (E2 : Transport.dispatch (Transport.SocketOpened (List.length socks)) c1
               = c2).
  { unfold Transport.dispatch, Transport.readyStateAt, Transport.socketAt, c1.
    cbn [Transport.sockets]. rewrite TransportFacts.nth_error_last.
    cbn [option_map Transport.readyState new].
    unfold Transport.onopen, Transport.setReadyState,
      Transport.clearConnectionTimeout.
    cbn [Transport.sockets Transport.setSockets].
    rewrite !TransportFacts.changeSocket_last. reflexivity. }
  assert (Hopened : opened = c2).
  { unfold opened, Transport.run. cbn [fold_left]. rewrite E1, E2. reflexivity. }
  assert (Hest : TransportTerms.established (List.length socks) c2 = true).
  { unfold TransportTerms.established, c2, Transport.socketAt.
    cbn [Transport.connectionState Transport.reconnectAttempts
         Transport.shouldReconnect Transport.urlValid Transport.ws
         Transport.reconnectTimer Transport.sockets Transport.stateEqb].
    rewrite TransportFacts.nth_error_last, length_app, firstn_app, firstn_all.
    rewrite Nat.sub_diag. cbn [firstn]. rewrite app_nil_r, Hsettled.
    cbn [List.length]. rewrite !Nat.eqb_refl.
    replace (Nat.eqb (S (List.length socks)) (List.length socks + 1)) with true
      by (symmetry; apply Nat.eqb_eq; lia).
    reflexivity. }
  rewrite Hopened.
  split; [exact Hest|]. split; [reflexivity|].
  split.
  { unfold Transport.scheduledReconnects, c2. cbn [Transport.outputs].
    rewrite !filter_app, !length_app. cbn. lia. }
  apply ReconnectFacts.backingOff_spec.
  replace (Transport.run _ _)
    with (Transport.dispatch (Transport.SocketClosed (List.length socks)) c2).
  - apply (TransportFacts.established_closes _ c2 Hest).
  - unfold Transport.run. cbn [fold_left]. rewrite E1, E2. reflexivity.
Qed.

Lemma successful_reconnect_restores_the_budget_witness :
  let c := Transport.run (Transport.newWebSocketClient true)
             [Transport.CallConnect "alice"; Transport.SocketOpened 0;
              Transport.SocketClosed 0; Transport.ReconnectTimerFired;
              Transport.SocketClosed 1] in
  TransportTerms.backingOff 2 c = true /\
  Transport.reconnectAttempts
    (Transport.run c [Transport.ReconnectTimerFired; Transport.SocketOpened 2])
  = 0%nat.
Proof.
  intros c. split; [reflexivity|].
  destruct (successful_reconnect_restores_the_budget 2 c eq_refl)
    as (_ & H & _). exact H.
Defined.

Module SocketlessFacts.
Import Transport TransportTerms TransportFacts TraceTerms.

Lemma socketless_new : Socketless (newWebSocketClient false).
Proof. unfold Socketless. cbn. auto 10. Qed.

Lemma socketless_dispatch e c : Socketless c -> Socketless (dispatch e c).
Proof.
  intros (Hs & Hurl & Hws & Htm & Hhb & Hst & Hsched).
  destruct c as [w url st att tmr hb uid sr socks outs].
  cbn [connectionState ws sockets urlValid reconnectTimer heartbeatTimer] in *.
  unfold scheduledReconnects in Hsched. cbn [outputs] in Hsched.
  subst.
  assert (Hnone : forall j, nth_error (@nil Socket) j = None)
    by (intros [|j]; reflexivity).
  assert (Hkeep : forall st' sr' uid' att' outs',
            (st' = DISCONNECTED \/ st' = CONNECTING) ->
            List.length (filter isScheduled outs') = 0%nat ->
            Socketless {| ws := None; urlValid := false; connectionState := st';
                          reconnectAttempts := att'; reconnectTimer := None;
                          heartbeatTimer := false; currentUserId := uid';
                          shouldReconnect := sr'; sockets := [];
                          outputs := outs' |}).
  { intros st' sr' uid' att' outs' Hst' Hex. unfold Socketless. cbn.
    repeat (split; [auto|]). exact Hex. }
  assert (Hmore : forall l,
            forallb (fun o => negb (isScheduled o)) l = true ->
            List.length (filter isScheduled (outs ++ l)) = 0%nat).
  { intros l Hl. rewrite filter_app, length_app, Hsched. cbn.
    induction l as [|o l IH]; [reflexivity|].
    cbn in Hl. apply andb_true_iff in Hl as [Ho Hl].
    apply negb_true_iff in Ho. cbn. rewrite Ho. now apply IH. }
  destruct e as [j|j f|j|j|j| | |user| | |m];
    unfold dispatch, readyStateAt, socketAt; cbn [sockets];
    rewrite ?Hnone; cbn [option_map]; try (apply Hkeep; assumption).
  - unfold connect, doConnect, updateState, handleError.
    destruct Hst as [-> | ->]; cbn; apply Hkeep; auto; cbn;
      rewrite <- ?app_assoc; apply Hmore; reflexivity.
  - unfold disconnect, clearReconnectTimer, stopHeartbeat, updateState.
    destruct Hst as [-> | ->]; cbn; apply Hkeep; auto; cbn;
      rewrite <- ?app_assoc; apply Hmore; reflexivity.
  - unfold reconnect, disconnect, clearReconnectTimer, stopHeartbeat, updateState,
      doConnect, handleError.
    destruct Hst as [-> | ->], uid as [[|x u]|]; cbn; apply Hkeep; auto; cbn;
      rewrite <- ?app_assoc; apply Hmore; reflexivity.
  - unfold send, isConnected. destruct Hst as [-> | ->]; cbn; apply Hkeep; auto.
Qed.

Lemma socketless_run events : forall c, Socketless c -> Socketless (run c events).
Proof.
  induction events as [|e events IH]; intros c H; [exact H|].
  unfold run. cbn [fold_left]. apply IH. now apply socketless_dispatch.
Qed.

(** Once the first [connect()] has failed, only [disconnect()] and
    [reconnect()] take the client out of CONNECTING. *)
Lemma stuck_dispatch e c :
  Socketless c -> connectionState c = CONNECTING -> isManualReset e = false ->
  connectionState (dispatch e c) = CONNECTING /\
  outputs (dispatch e c) = outputs c.
Proof.
  intros (Hs & Hurl & Hws & Htm & Hhb & _ & _) Hst He.
  destruct c as [w url st att tmr hb uid sr socks outs].
  cbn [connectionState ws sockets urlValid reconnectTimer heartbeatTimer] in *.
  subst.
  assert (Hnone : forall j, nth_error (@nil Socket) j = None)
    by (intros [|j]; reflexivity).
  destruct e as [j|j f|j|j|j| | |user| | |m]; try discriminate He;
    unfold dispatch, readyStateAt, socketAt; cbn [sockets];
    rewrite ?Hnone; cbn [option_map]; auto.
Qed.

Lemma stuck_run events :
  forall c,
    Socketless c -> connectionState c = CONNECTING ->
    forallb (fun e => negb (isManualReset e)) events = true ->
    connectionState (run c events) = CONNECTING /\
    outputs (run c events) = outputs c.
Proof.
  induction events as [|e events IH]; intros c Hc Hst He; [auto|].
  cbn [forallb] in He. apply andb_true_iff in He as [He Hes].
  apply negb_true_iff in He.
  destruct (stuck_dispatch e c Hc Hst He) as [H1 H2].
  destruct (IH _ (socketless_dispatch e c Hc) H1 Hes) as [H3 H4].
  unfold run in *. cbn [fold_left]. split; [exact H3|congruence].
Qed.

End SocketlessFacts.

(** X21. A client whose URL the WebSocket constructor rejects never has a
    socket, is never connected, never gives up as FAILED and never schedules
    a reconnect, whatever is called on it. Its first [connect()] reports the
    error and leaves it CONNECTING; from then on, until [disconnect()] or
    [reconnect()] is called, it stays CONNECTING and reports nothing more,
    further [connect()] calls included. *)
Theorem malformed_url_leaves_the_client_connecting
  (events : list Transport.Event) :
  let c := Transport.run (Transport.newWebSocketClient false) events in
  (Transport.sockets c = [] /\
   Transport.isConnected c = false /\
   Transport.connectionState c <> Transport.CONNECTED /\
   Transport.connectionState c <> Transport.FAILED /\
   Transport.scheduledReconnects c = 0%nat) /\
  (forall user,
      forallb (fun e => negb (TraceTerms.isManualReset e)) events = true ->
      let c' := Transport.run (Transport.newWebSocketClient false)
                  (Transport.CallConnect user :: events) in
      Transport.connectionState c' = Transport.CONNECTING /\
      Transport.outputs c'
      = [Transport.StateChanged Transport.CONNECTING;
         Transport.ErrorReported
           (NetworkError "Failed to create WebSocket connection")]).
Proof.
  intros c. split.
  - destruct (SocketlessFacts.socketless_run events _ SocketlessFacts.socketless_new)
      as (Hs & _ & Hws & _ & _ & Hst & Hsched).
    fold c in Hs, Hws, Hst, Hsched.
    split; [exact Hs|]. split.
    { unfold Transport.isConnected. rewrite Hws. apply andb_false_r. }
    split; [destruct Hst as [-> | ->]; discriminate|].
    split; [destruct Hst as [-> | ->]; discriminate|exact Hsched].
  - intros user Hev c'.
    set (c0 := Transport.dispatch (Transport.CallConnect user)
                 (Transport.newWebSocketClient false)).
    assert (H0 : TraceTerms.Socketless c0)
      by (apply SocketlessFacts.socketless_dispatch, SocketlessFacts.socketless_new).
    destruct (SocketlessFacts.stuck_run events c0 H0 eq_refl Hev) as [H1 H2].
    split; [exact H1|exact H2].
Qed.

(** ** Further properties: identifiers *)

Module UuidFacts.
Import Uuid UuidTerms.

Lemma all_bytes_check :
  forallb byteChecks (List.map Z.of_nat (seq 0 256)) = true.
Proof. vm_compute. reflexivity. Qed.

Lemma byte_checks (b : Z) : isByte b = true -> byteChecks b = true.
Proof.
  intros H. unfold isByte in H. apply andb_true_iff in H as [H0 H1].
  apply Z.leb_le in H0. apply Z.ltb_lt in H1.
  pose proof all_bytes_check as Hall. rewrite forallb_forall in Hall.
  apply Hall. apply in_map_iff. exists (Z.to_nat b). split; [lia|].
  apply in_seq. lia.
Qed.

Lemma twoDigits_spec s first :
  twoDigits s first = true ->
  exists h l, s = [h; l] /\
              first h = true /\ isHexDigit l = true.
Proof.
  destruct s as [|h [|l [|? ?]]]; try discriminate. cbn.
  intros H. apply andb_true_iff in H. exists h, l. tauto.
Qed.

Lemma plain_digits b :
  isByte b = true ->
  exists h l, padStart2 (toString16 b) = [h; l] /\
              isHexDigit h = true /\ isHexDigit l = true.
Proof.
  intros H. apply byte_checks in H. unfold byteChecks in H.
  apply andb_true_iff in H as [H _]. apply andb_true_iff in H as [H _].
  now apply twoDigits_spec.
Qed.

Lemma version_digits b :
  isByte b = true ->
  exists h l, padStart2 (toString16 (Z.lor (Z.land b 15) 64))
              = [h; l] /\
              fits Version4 h = true /\ isHexDigit l = true.
Proof.
  intros H. apply byte_checks in H. unfold byteChecks in H.
  apply andb_true_iff in H as [H _]. apply andb_true_iff in H as [_ H].
  now apply twoDigits_spec.
Qed.

Lemma variant_digits b :
  isByte b = true ->
  exists h l, padStart2 (toString16 (Z.lor (Z.land b 63) 128))
              = [h; l] /\
              fits Variant h = true /\ isHexDigit l = true.
Proof.
  intros H. apply byte_checks in H. unfold byteChecks in H.
  apply andb_true_iff in H as [_ H]. now apply twoDigits_spec.
Qed.

End UuidFacts.

(** X22. The identifier the [getRandomValues] branch of [generateUUID]
    makes of sixteen bytes has 36 characters in the form
    xxxxxxxx-xxxx-4xxx-yxxx-xxxxxxxxxxxx: lower-case hexadecimal digits, the
    version digit 4, and a variant digit among 8, 9, a, b. *)
Theorem uuid_from_random_values_is_version_4 (bytes : list Z) :
  List.length bytes = 16%nat ->
  forallb UuidTerms.isByte bytes = true ->
  UuidTerms.matches UuidTerms.uuidV4 (Uuid.uuidFromRandomValues bytes) = true /\
  Js.length (Uuid.uuidFromRandomValues bytes) = 36.
Proof.
  intros Hlen Hbytes.
  do 16 (destruct bytes as [|? bytes]; [discriminate Hlen|]).
  destruct bytes; [|discriminate Hlen]. clear Hlen.
  cbn [forallb] in Hbytes.
  repeat match type of Hbytes with
         | (_ && _) = true => apply andb_true_iff in Hbytes as [?H Hbytes]
         end.
  clear Hbytes.
  unfold Uuid.uuidFromRandomValues. cbn [Uuid.assignAt List.map].
  match goal with
  | H : UuidTerms.isByte ?b = true
    |- context [Uuid.toString16 (Z.lor (Z.land ?b 15) 64)] =>
      destruct (UuidFacts.version_digits b H) as (? & ? & -> & ? & ?); clear H
  end.
  match goal with
  | H : UuidTerms.isByte ?b = true
    |- context [Uuid.toString16 (Z.lor (Z.land ?b 63) 128)] =>
      destruct (UuidFacts.variant_digits b H) as (? & ? & -> & ? & ?); clear H
  end.
  repeat match goal with
         | H : UuidTerms.isByte ?b = true |- _ =>
             destruct (UuidFacts.plain_digits b H) as (? & ? & -> & ? & ?);
             clear H
         end.
  cbn [Uuid.join app Uuid.sliceStr List.length Nat.min Nat.sub firstn skipn].
  split; [|reflexivity].
  cbn [UuidTerms.matches UuidTerms.uuidV4 repeat app].
  repeat match goal with
         | H : UuidTerms.isHexDigit _ = true |- _ =>
             change (UuidTerms.isHexDigit) with (UuidTerms.fits UuidTerms.Hex) in H
         end.
  repeat match goal with
         | H : UuidTerms.fits _ _ = true |- _ => rewrite H; clear H
         end.
  reflexivity.
Qed.

Lemma uuid_from_random_values_is_version_4_witness :
  Uuid.uuidFromRandomValues
    [0; 17; 34; 51; 68; 85; 102; 119; 136; 153; 170; 187; 204; 221; 238; 255]
  = "00112233-4455-4677-8899-aabbccddeeff" /\
  UuidTerms.matches UuidTerms.uuidV4 "00112233-4455-4677-8899-aabbccddeeff" = true.
Proof.
  split; [reflexivity|].
  apply (uuid_from_random_values_is_version_4
           [0; 17; 34; 51; 68; 85; 102; 119; 136; 153; 170; 187; 204; 221; 238; 255]);
    reflexivity.
Defined.

(** ** Further properties: the message store, and starting a session *)

Module StoreFacts.
Import Stores.

Lemma listByUser_create m messages user :
  listByUser (messageCreate m messages) user
  = listByUser messages user
    ++ (if Js.eqb (senderId m) user || sameId (receiverId m) user
        then [m] else []).
Proof.
  unfold listByUser, messageCreate. rewrite filter_app. cbn [filter].
  destruct (_ || _); reflexivity.
Qed.

Lemma listByGroup_create m messages id :
  listByGroup (messageCreate m messages) id
  = listByGroup messages id ++ (if sameId (groupId m) id then [m] else []).
Proof.
  unfold listByGroup, messageCreate. rewrite filter_app. cbn [filter].
  destruct (sameId _ _); reflexivity.
Qed.

End StoreFacts.

(** X23. Where the in-memory message store lists an envelope it has
    stored. A direct envelope, as [ChatSession.encrypt] makes it, is added
    to the listing of its sender and to that of its receiver, to no other
    user's and to no group's. A group envelope, as [GroupSession.encrypt]
    makes it, is added to the listing of its group and to that of its
    sender, and to no other user's: the other members do not find it by
    user. *)
Theorem stored_envelopes_are_listed_by_party_or_group
  (P : NodePlatform) (HB : Base64Laws P) (HG : GcmLaws P) (HE : EntropyLaws P)
  (HD : EcdhLaws P) (HK : KdfLaws P)
  (A B : User) (g : Group) (sid text : string) (w : world)
  (messages : Stores.InMemoryMessageStore) :
  KeyTerms.validIdentity (IdentityTerms.identityOf A) = true ->
  KeyTerms.validIdentity (IdentityTerms.identityOf B) = true ->
  (exists m s' w',
      Chat.encrypt text (userId A) (Chat.newChatSession sid A B, w)
      = (Returned m, (s', w')) /\
      let stored := Stores.messageCreate m messages in
      Stores.listByUser stored (userId A)
      = Stores.listByUser messages (userId A) ++ [m] /\
      Stores.listByUser stored (userId B)
      = Stores.listByUser messages (userId B) ++ [m] /\
      (forall other,
          other <> userId A -> other <> userId B ->
          Stores.listByUser stored other = Stores.listByUser messages other) /\
      (forall id, Stores.listByGroup stored id = Stores.listByGroup messages id)) /\
  (exists m s' w',
      GroupChat.encrypt text (userId A) (GroupChat.newGroupSession g, w)
      = (Returned m, (s', w')) /\
      let stored := Stores.messageCreate m messages in
      Stores.listByGroup stored (grpId g)
      = Stores.listByGroup messages (grpId g) ++ [m] /\
      Stores.listByUser stored (userId A)
      = Stores.listByUser messages (userId A) ++ [m] /\
      (forall other,
          other <> userId A ->
          Stores.listByUser stored other = Stores.listByUser messages other)).
Proof.
  intros HA HB'. split.
  - destruct (KeyMore.derive_agree _ _ HA HB') as (k & Hab & _ & Hlen).
    cbn [IdentityTerms.identityOf kpPublicKey] in Hab.
    destruct (SessionMore.encrypt_new sid A B k text (userId A) w Hab Hlen)
      as (m & w' & Hrun & _ & Hs & Hr & Hg & _).
    assert (Hrecv : receiverId m = Some (userId B)).
    { rewrite Hr. unfold Chat.counterpart. cbn. now rewrite JsFacts.string_eqb_refl. }
    exists m, (Chat.setSharedSecret (Chat.newChatSession sid A B) k), w'.
    split; [exact Hrun|]. cbv zeta.
    rewrite !StoreFacts.listByUser_create. rewrite Hs, Hrecv.
    cbn [Stores.sameId]. rewrite !JsFacts.string_eqb_refl, orb_true_r. cbn [orb].
    split; [reflexivity|]. split; [reflexivity|]. split.
    + intros other H1 H2. rewrite StoreFacts.listByUser_create, Hs, Hrecv.
      cbn [Stores.sameId].
      assert (E1 : Js.eqb (userId A) other = false)
        by (apply JsFacts.string_eqb_neq; congruence).
      assert (E2 : Js.eqb (userId B) other = false)
        by (apply JsFacts.string_eqb_neq; congruence).
      rewrite E1, E2. cbn. apply app_nil_r.
    + intros id. rewrite StoreFacts.listByGroup_create, Hg. cbn.
      apply app_nil_r.
  - destruct (GroupFacts.group_encrypt_new g text (userId A) w) as (enc & _ & Hrun & _).
    eexists; eexists; eexists. split; [exact Hrun|]. cbv zeta.
    rewrite StoreFacts.listByGroup_create, StoreFacts.listByUser_create.
    cbn [groupId senderId receiverId Stores.sameId].
    rewrite !JsFacts.string_eqb_refl. cbn [orb].
    split; [reflexivity|]. split; [reflexivity|].
    intros other H1. rewrite StoreFacts.listByUser_create.
    cbn [groupId senderId receiverId Stores.sameId].
    assert (E1 : Js.eqb (userId A) other = false)
      by (apply JsFacts.string_eqb_neq; congruence).
    rewrite E1. cbn. apply app_nil_r.
Qed.

Lemma stored_envelopes_are_listed_by_party_or_group_witness :
  exists m s' w',
    GroupChat.encrypt (P := Small.platform) "hi" "alice"
      (GroupChat.newGroupSession
         {| grpId := "g1"; grpName := "team";
            grpMembers := [Small.alice; Small.bob]; grpCreatedAt := 0 |}, 0%nat)
    = (Returned m, (s', w')) /\
    Stores.listByGroup (Stores.messageCreate m []) "g1" = [m] /\
    Stores.listByUser (Stores.messageCreate m []) "bob" = [].
Proof.
  destruct (stored_envelopes_are_listed_by_party_or_group Small.platform
              SmallFacts.base64 SmallFacts.gcm SmallFacts.entropy
              SmallFacts.ecdh SmallFacts.kdf Small.alice Small.bob
              {| grpId := "g1"; grpName := "team";
                 grpMembers := [Small.alice; Small.bob]; grpCreatedAt := 0 |}
              "alice-bob" "hi" 0%nat [] eq_refl eq_refl)
    as (_ & m & s' & w' & Hrun & Hgroup & _ & Hother).
  exists m, s', w'. split; [exact Hrun|]. split; [exact Hgroup|].
  apply (Hother "bob"). discriminate.
Defined.

Module StartFacts.
Import Chat SDK IdentityTerms.
Section WithPlatform.
Context {P : NodePlatform}.

Lemma startSession_eq a b sdk :
  startSession a b sdk
  = match E2E.deriveSharedSecret (identityOf a) (publicKey b) with
    | Returned k =>
        let session :=
          setSharedSecret (newChatSession (pairwiseSessionId a b) a b) k in
        (Returned session,
         {| config := config sdk; currentUser := currentUser sdk;
            messageQueue := messageQueue sdk;
            emitted := emitted sdk ++ [SESSION_CREATED session] |})
    | Thrown _ =>
        (Thrown (SessionError "Failed to create chat session"),
         {| config := config sdk; currentUser := currentUser sdk;
            messageQueue := messageQueue sdk;
            emitted := emitted sdk
                       ++ [ERROR (SessionError "Failed to create chat session")] |})
    end.
Proof.
  unfold startSession, tryCatch. rewrite SessionMore.initialize_eq.
  cbn [userA userB newChatSession].
  destruct (E2E.deriveSharedSecret _ _); reflexivity.
Qed.

End WithPlatform.
End StartFacts.

(** C6. The session id [startSession] computes is the two identity ids in
    the order of [sort()], code unit by code unit, joined by a dash; it is
    the same for (A, B) and for (B, A). It is the id of the session
    [startSession] returns, and for two well-formed identities
    [startSession] does return, in either order of its arguments, a session
    of that id. *)
Theorem pairwiseSessionId_order_independent
  (P : NodePlatform) (HD : EcdhLaws P) (HK : KdfLaws P)
  (A B : User) (sdk : SDK.ChatSDK) :
  SDK.pairwiseSessionId A B = SDK.pairwiseSessionId B A /\
  SDK.pairwiseSessionId A B
  = (if Js.leb (userId A) (userId B)
     then userId A ++ "-" ++ userId B
     else userId B ++ "-" ++ userId A) /\
  (forall session sdk',
      SDK.startSession A B sdk = (Returned session, sdk') ->
      Chat.sessionId session = SDK.pairwiseSessionId A B) /\
  (KeyTerms.validIdentity (IdentityTerms.identityOf A) = true ->
   KeyTerms.validIdentity (IdentityTerms.identityOf B) = true ->
   exists sessionAB sdk1 sessionBA sdk2,
     SDK.startSession A B sdk = (Returned sessionAB, sdk1) /\
     SDK.startSession B A sdk = (Returned sessionBA, sdk2) /\
     Chat.sessionId sessionAB = SDK.pairwiseSessionId A B /\
     Chat.sessionId sessionBA = SDK.pairwiseSessionId A B).
Proof.
  assert (Hsym : SDK.pairwiseSessionId A B = SDK.pairwiseSessionId B A).
  { unfold SDK.pairwiseSessionId.
    rewrite (SDKFacts.sortStrings_pair_sym (userId A) (userId B)). reflexivity. }
  split; [exact Hsym|]. split; [|split].
  - unfold SDK.pairwiseSessionId. rewrite SDKFacts.sortStrings_pair.
    unfold Js.leb, Js.ltb.
    rewrite (JsFacts.string_compare_antisym (userId B) (userId A)).
    destruct (Js.compare (userId A) (userId B)) eqn:E; simpl; try reflexivity.
  - intros session sdk'. rewrite StartFacts.startSession_eq.
    destruct (E2E.deriveSharedSecret _ _); cbv zeta; intros H; inversion H.
    reflexivity.
  - intros HA HB.
    destruct (KeyMore.derive_agree _ _ HA HB) as (k & Hab & Hba & _).
    cbn [IdentityTerms.identityOf kpPublicKey] in Hab, Hba.
    rewrite !StartFacts.startSession_eq, Hab, Hba. cbv zeta.
    eexists; eexists; eexists; eexists.
    split; [reflexivity|]. split; [reflexivity|].
    cbn [Chat.sessionId Chat.setSharedSecret Chat.newChatSession].
    split; [reflexivity|]. symmetry. exact Hsym.
Qed.

Lemma pairwiseSessionId_order_independent_witness :
  SDK.pairwiseSessionId Small.bob Small.alice = "alice-bob" /\
  exists session sdk',
    SDK.startSession (P := Small.platform) Small.bob Small.alice Examples.aliceLocal
    = (Returned session, sdk') /\
    Chat.sessionId session = "alice-bob".
Proof.
  destruct (pairwiseSessionId_order_independent Small.platform
              SmallFacts.ecdh SmallFacts.kdf Small.bob Small.alice
              Examples.aliceLocal)
    as (_ & Hid & _ & Hrun).
  split; [rewrite Hid; reflexivity|].
  destruct (Hrun eq_refl eq_refl) as (session & sdk' & _ & _ & Hstart & _ & Hsid & _).
  exists session, sdk'. split; [exact Hstart|]. rewrite Hsid, Hid. reflexivity.
Defined.

(** X24. [startSession] either returns a session of the two users that
    holds a 32-byte key and announces it once, or throws the session error
    "Failed to create chat session", whatever made the derivation fail, and
    emits that error once; the queue is untouched either way. For two
    well-formed identities it returns, and called with the users in either
    order it gives sessions with the same id and the same key. *)
Theorem startSession_creates_a_keyed_session_or_reports
  (P : NodePlatform) (HD : EcdhLaws P) (HK : KdfLaws P)
  (A B : User) (sdk : SDK.ChatSDK) :
  (forall session sdk',
      SDK.startSession A B sdk = (Returned session, sdk') ->
      Chat.userA session = A /\ Chat.userB session = B /\
      (exists k, Chat.sharedSecret session = Some k /\ List.length k = 32%nat) /\
      SDK.emitted sdk' = SDK.emitted sdk ++ [SDK.SESSION_CREATED session] /\
      SDK.messageQueue sdk' = SDK.messageQueue sdk) /\
  (forall e sdk',
      SDK.startSession A B sdk = (Thrown e, sdk') ->
      e = SessionError "Failed to create chat session" /\
      SDK.emitted sdk' = SDK.emitted sdk ++ [SDK.ERROR e] /\
      SDK.messageQueue sdk' = SDK.messageQueue sdk) /\
  (KeyTerms.validIdentity (IdentityTerms.identityOf A) = true ->
   KeyTerms.validIdentity (IdentityTerms.identityOf B) = true ->
   exists sessionAB sessionBA sdk1 sdk2 k,
     SDK.startSession A B sdk = (Returned sessionAB, sdk1) /\
     SDK.startSession B A sdk = (Returned sessionBA, sdk2) /\
     Chat.sessionId sessionAB = Chat.sessionId sessionBA /\
     Chat.sharedSecret sessionAB = Some k /\
     Chat.sharedSecret sessionBA = Some k).
Proof.
  split; [|split].
  - intros session sdk'. rewrite StartFacts.startSession_eq.
    destruct (E2E.deriveSharedSecret _ _) as [k|e] eqn:E; [|discriminate].
    cbv zeta. intros H. injection H as <- <-. cbn.
    repeat split; try reflexivity.
    exists k. split; [reflexivity|].
    rewrite KeyFacts.deriveSharedSecret_eq in E.
    destruct (ecdh_computeSecret _ _); [|discriminate].
    injection E as <-. apply pbkdf2_length.
  - intros e sdk'. rewrite StartFacts.startSession_eq.
    destruct (E2E.deriveSharedSecret _ _) as [k|e0] eqn:E; [discriminate|].
    intros H. injection H as <- <-. cbn. auto.
  - intros HA HB.
    destruct (KeyMore.derive_agree _ _ HA HB) as (k & Hab & Hba & Hlen).
    cbn [IdentityTerms.identityOf kpPublicKey] in Hab, Hba.
    rewrite !StartFacts.startSession_eq, Hab, Hba. cbv zeta.
    eexists; eexists; eexists; eexists; exists k.
    split; [reflexivity|]. split; [reflexivity|].
    cbn [Chat.sessionId Chat.sharedSecret Chat.setSharedSecret
         Chat.newChatSession].
    split; [|split; reflexivity].
    unfold SDK.pairwiseSessionId.
    rewrite (SDKFacts.sortStrings_pair_sym (userId B) (userId A)). reflexivity.
Qed.

Lemma startSession_creates_a_keyed_session_or_reports_witness :
  exists session sdk',
    SDK.startSession (P := Small.platform) Small.alice Small.bob
      {| SDK.config := {| SDK.messageStoreCreate := fun _ => Returned tt;
                          SDK.transport := None |};
         SDK.currentUser := None;
         SDK.messageQueue := Queue.defaultMessageQueue;
         SDK.emitted := [] |}
    = (Returned session, sdk') /\
    Chat.sessionId session = "alice-bob".
Proof.
  destruct (startSession_creates_a_keyed_session_or_reports Small.platform
              SmallFacts.ecdh SmallFacts.kdf Small.alice Small.bob
              {| SDK.config := {| SDK.messageStoreCreate := fun _ => Returned tt;
                                  SDK.transport := None |};
                 SDK.currentUser := None;
                 SDK.messageQueue := Queue.defaultMessageQueue;
                 SDK.emitted := [] |})
    as (_ & _ & H).
  destruct (H eq_refl eq_refl) as (session & _ & sdk' & _ & _ & Hrun & _).
  exists session, sdk'. split; [exact Hrun|].
  vm_compute in Hrun. injection Hrun as <- _. reflexivity.
Defined.
